(** * INSTA-DOWNLOADER-BOT: link classifier, rate limiter, session store and
      fetch/deliver handlers of [main.py] and [instagram_bot.py].

    Python [str] values are sequences of Unicode code points; they are
    modelled as [list N].  Case folding ([re.IGNORECASE]) is modelled on the
    ASCII letters, the only letters the patterns of the program contain. *)

From Stdlib Require Import ZArith NArith List Bool Lia String Ascii QArith.
From Stdlib Require Import DecimalString Lqa.
From Stdlib Require DecimalPos.
From stdpp Require Import base option list gmap.

Local Open Scope Z_scope.
Local Open Scope list_scope.

(** ** Strings *)

Abbreviation char := N (only parsing).
Abbreviation str := (list N) (only parsing).

(** An ASCII literal of the source as a list of code points. *)
Definition u (s : string) : str :=
  List.map N_of_ascii (list_ascii_of_string s).

(** [str(n)] for an integer. *)
Definition str_of_Z (n : Z) : str := u (NilZero.string_of_int (Z.to_int n)).

Definition lower (c : char) : char :=
  if ((65 <=? c) && (c <=? 90))%N then (c + 32)%N else c.

Definition lower_str (s : str) : str := List.map lower s.

(** ** The fragment of Python's [re] the program uses

    Backtracking is modelled by the list of successes, in the order in which
    Python's matcher tries them (greedy first). *)

Inductive cset : Type :=
| CLit (c : char)            (* a literal character *)
| CAny                       (* [.]  : anything but a newline *)
| CNot (cs : list char).     (* [[^...]] *)

Inductive regex : Type :=
| Eps
| Chr (c : cset)
| Cat (r1 r2 : regex)
| Opt (r : regex)            (* [r?] *)
| Star (c : cset)            (* [c*] *)
| Plus (c : cset)            (* [c+] *)
| Grp (n : nat) (r : regex)  (* capturing group number [n] *)
| Eos.                       (* [$] without MULTILINE *)

Definition chr_eq (ic : bool) (c x : char) : bool :=
  if ic then (lower x =? lower c)%N else (x =? c)%N.

Definition cset_ok (ic : bool) (c : cset) (x : char) : bool :=
  match c with
  | CLit c => chr_eq ic c x
  | CAny => negb (x =? 10)%N
  | CNot cs => negb (existsb (fun c => chr_eq ic c x) cs)
  end.

(** Remainders after [c*], longest run first. *)
Fixpoint star (ok : char -> bool) (s : str) : list str :=
  match s with
  | x :: s' => if ok x then star ok s' ++ [s] else [s]
  | [] => [[]]
  end.

Definition plus (ok : char -> bool) (s : str) : list str :=
  match s with
  | x :: s' => if ok x then star ok s' else []
  | [] => []
  end.

(** Captured groups, most recent first. *)
Abbreviation caps := (list (nat * list N)) (only parsing).

Definition consumed (s rest : str) : str :=
  firstn (length s - length rest) s.

Definition at_eos (s : str) : bool :=
  match s with
  | [] => true
  | [c] => (c =? 10)%N
  | _ => false
  end.

Fixpoint rmatch (ic : bool) (r : regex) (s : str) (g : caps)
  : list (str * caps) :=
  match r with
  | Eps => [(s, g)]
  | Chr c =>
      match s with
      | x :: s' => if cset_ok ic c x then [(s', g)] else []
      | [] => []
      end
  | Cat r1 r2 =>
      flat_map (fun sg => rmatch ic r2 (fst sg) (snd sg)) (rmatch ic r1 s g)
  | Opt r => rmatch ic r s g ++ [(s, g)]
  | Star c => List.map (fun s' => (s', g)) (star (cset_ok ic c) s)
  | Plus c => List.map (fun s' => (s', g)) (plus (cset_ok ic c) s)
  | Grp n r =>
      List.map (fun sg => (fst sg, (n, consumed s (fst sg)) :: snd sg))
               (rmatch ic r s g)
  | Eos => if at_eos s then [(s, g)] else []
  end.

(** A match object: [group(0)] and the numbered groups. *)
Record rematch : Type := MkMatch { group0 : str; groups : caps }.

Fixpoint assoc (n : nat) (g : caps) : option str :=
  match g with
  | [] => None
  | (m, v) :: g' => if Nat.eqb n m then Some v else assoc n g'
  end.

Definition group (n : nat) (m : rematch) : option str :=
  match n with
  | O => Some (group0 m)
  | _ => assoc n (groups m)
  end.

Definition match_here (ic : bool) (r : regex) (s : str) : option rematch :=
  match rmatch ic r s [] with
  | (rest, g) :: _ => Some (MkMatch (consumed s rest) g)
  | [] => None
  end.

(** [re.search]: the leftmost start position at which the pattern matches. *)
Fixpoint search (ic : bool) (r : regex) (s : str) : option rematch :=
  match match_here ic r s with
  | Some m => Some m
  | None =>
      match s with
      | [] => None
      | _ :: s' => search ic r s'
      end
  end.

Definition lit (s : string) : regex :=
  fold_right (fun c r => Cat (Chr (CLit c)) r) Eps (u s).

Fixpoint cat (rs : list regex) : regex :=
  match rs with
  | [] => Eps
  | r :: rs' => Cat r (cat rs')
  end.

(** ** Link kinds *)

Inductive kind : Type := Profile | Post | Reel | Story.

(** First pattern of a dict, in insertion order, that [re.search] finds. *)
Fixpoint first_match (ic : bool) (pats : list (kind * regex)) (text : str)
  : option (kind * rematch) :=
  match pats with
  | [] => None
  | (k, p) :: pats' =>
      match search ic p text with
      | Some m => Some (k, m)
      | None => first_match ic pats' text
      end
  end.

(** Does [re.search] find the pattern? *)
Definition found (ic : bool) (r : regex) (text : str) : bool :=
  match search ic r text with
  | Some _ => true
  | None => false
  end.

Definition slash : char := 47%N.
Definition qmark : char := 63%N.
Definition hash : char := 35%N.

(** ** Effects

    The handlers call the chat transport, yt-dlp and the file system, any of
    which may raise.  A handler is a function of the program state that
    returns the new state, the calls it made (oldest first) and either a
    value or the exception that escapes.  What each outside call does is
    read from an environment [env]. *)

Inductive exn_class : Type :=
| DownloadError | ValueError | KeyError | TypeError | OtherException.

Record exn : Type := MkExn { e_class : exn_class; e_msg : list N }.

Inductive result (A : Type) : Type :=
| Val (a : A)
| Raise (e : exn).
Arguments Val {A} a.
Arguments Raise {A} e.

(** A number as yt-dlp reports it: [int] or [float]. *)
Inductive number : Type := Int (z : Z) | Float (q : Q).

(** User-visible texts, by template and parameters. *)
Inductive message : Type :=
(* main.py *)
| MInvalidUrl
| MProcessing (url_type : kind)
| MUnsupported
| MOops (e : list N)
| MDownloadingProfile
| MProfileFailed (status_msg : list N)
| MProfileError (e : list N)
| MChoose (url_type : kind)
| MOptionsError (e : list N)
| MSessionExpired
| MNotForYou
| MCancelled
| MDownloading (audio_only : bool)
| MDownloadFailed (status_msg : list N)
| MDownloadError (e : list N)
(* instagram_bot.py *)
| MRateLimited
| MNoValidUrl
| MProcessingUrl (url : list N) (type : option kind)
| MUnsupportedType
| MErrorOccurred
| MProfilePictureFailed
| MChooseFormat (url : list N)
| MSessionExpiredUrl
| MDownloadingFormat (format_type : list N)
| MDownloadFailedUrl
| MErrorDuringDownload.

(** Captions: the text itself in [main.py]; template and parameters in
    [instagram_bot.py]. *)
Inductive caption : Type :=
| CapText (s : list N)
| CapProfile (username url : list N)
| CapDownload (title uploader : option (list N)) (duration : option (Z * Z))
              (url : list N).

Inductive event : Type :=
| EAnswer (alert : option message)        (* [query.answer] *)
| EReply (m : message)                    (* [message.reply_text] *)
| EEdit (m : message) (keyboard : list (list N))
                                          (* [edit_text], [edit_message_text] *)
| EDeleteMessage                          (* [delete], [delete_message] *)
| EOpen (path : list N)                   (* [open(path, 'rb')] *)
| EReplyPhoto (path : list N) (c : caption)
| EReplyAudio (path : list N) (c : caption)
| EReplyVideo (path : list N) (c : caption)
| EExtractInfo (url : list N)             (* [ydl.extract_info(url, download=False)] *)
| EDownload (url : list N) (audio_only : bool)
                                          (* [ydl.download], [ydl.extract_info(url, download=True)] *)
| EProfilePicture (username : list N)     (* instagrapi and aiohttp *)
| ERemove (path : list N)                 (* [os.remove] *)
| EClearSession (user_id : Z)             (* [bot.clear_session] *)
| EDelUserData (key : list N).            (* [del context.user_data[key]] *)

(** Metadata returned by [extract_info]. *)
Record ydl_info : Type := MkInfo {
  availability_private : bool;
  title : list N;
  description : list N;
  uploader : list N;
  duration : number
}.

Record env : Type := MkEnv {
  (** the exception an outside call raises, if any *)
  fails : event -> option exn;
  (** what [extract_info] reports for a URL *)
  info_of : list N -> ydl_info;
  (** the files a download leaves under its output template, in the order
      in which the directory listing yields them *)
  files_of : list N -> bool -> list (list N);
  (** the file a profile picture is saved to, if the request succeeds *)
  picture_of : list N -> option (list N)
}.

Definition M (S A : Type) : Type := S -> S * list event * result A.

Definition ret {S A} (a : A) : M S A := fun s => (s, [], Val a).

Definition bind {S A B} (m : M S A) (f : A -> M S B) : M S B :=
  fun s =>
    match m s with
    | (s1, ev1, Val a) =>
        match f a s1 with
        | (s2, ev2, r) => (s2, ev1 ++ ev2, r)
        end
    | (s1, ev1, Raise e) => (s1, ev1, Raise e)
    end.

#[export] Instance M_ret {S} : MRet (M S) := @ret S.
#[export] Instance M_bind {S} : MBind (M S) := fun A B f m => bind m f.

Definition raise {S A} (e : exn) : M S A := fun s => (s, [], Raise e).
Definition get {S} : M S S := fun s => (s, [], Val s).
Definition modify {S} (f : S -> S) : M S unit := fun s => (f s, [], Val tt).
Definition emit {S} (e : event) : M S unit := fun s => (s, [e], Val tt).

(** An outside call: recorded, and raising when the environment says so. *)
Definition call {S} (E : env) (e : event) : M S unit :=
  fun s => (s, [e], match fails E e with Some x => Raise x | None => Val tt end).

(** [try: body  except Exception as e: handler(e)] *)
Definition try_except {S A} (body : M S A) (handler : exn -> M S A) : M S A :=
  fun s =>
    match body s with
    | (s1, ev1, Val a) => (s1, ev1, Val a)
    | (s1, ev1, Raise e) =>
        match handler e s1 with
        | (s2, ev2, r) => (s2, ev1 ++ ev2, r)
        end
    end.

(** [try: body  finally: final]: [final] always runs; an exception it raises
    replaces the outcome of [body]. *)
Definition try_finally {S A} (body : M S A) (final : M S unit) : M S A :=
  fun s =>
    match body s with
    | (s1, ev1, r) =>
        match final s1 with
        | (s2, ev2, Val _) => (s2, ev1 ++ ev2, r)
        | (s2, ev2, Raise e) => (s2, ev1 ++ ev2, Raise e)
        end
    end.

(** [x = dflt; try: x = first; rest(x)  except Exception as e: handler(e)
    finally: final(x)]: the variable keeps [dflt] when [first] raises. *)
Definition try_assign {S X A} (dflt : X) (first : M S X) (rest : X -> M S A)
           (handler : exn -> M S A) (final : X -> M S unit) : M S A :=
  fun s =>
    match first s with
    | (s1, ev1, Val x) =>
        match try_finally (try_except (rest x) handler) (final x) s1 with
        | (s2, ev2, r) => (s2, ev1 ++ ev2, r)
        end
    | (s1, ev1, Raise e) =>
        match try_finally (handler e) (final dflt) s1 with
        | (s2, ev2, r) => (s2, ev1 ++ ev2, r)
        end
    end.

Definition state_of {S A} (x : S * list event * result A) : S := fst (fst x).
Definition events_of {S A} (x : S * list event * result A) : list event :=
  snd (fst x).
Definition result_of {S A} (x : S * list event * result A) : result A := snd x.

Definition count (f : event -> bool) (evs : list event) : nat :=
  length (List.filter f evs).

Definition is_clear (user_id : Z) (e : event) : bool :=
  match e with EClearSession v => v =? user_id | _ => false end.
Definition is_del (key : list N) (e : event) : bool :=
  match e with EDelUserData k => bool_decide (k = key) | _ => false end.
Definition is_remove (path : list N) (e : event) : bool :=
  match e with ERemove p => bool_decide (p = path) | _ => false end.
Definition is_any_remove (e : event) : bool :=
  match e with ERemove _ => true | _ => false end.
Definition is_fetch (e : event) : bool :=
  match e with
  | EExtractInfo _ | EDownload _ _ | EProfilePicture _ => true
  | _ => false
  end.

(** The calls that clean up: removing a file, clearing a session. *)
Definition is_cleanup (e : event) : bool :=
  match e with
  | ERemove _ | EClearSession _ | EDelUserData _ => true
  | _ => false
  end.

Definition cleanups (evs : list event) : list event :=
  List.filter is_cleanup evs.

(** A computation that leaves the state alone and cleans nothing up. *)
Definition silent {S A} (m : M S A) : Prop :=
  forall s, state_of (m s) = s /\ cleanups (events_of (m s)) = [].

(** Every call a computation makes satisfies [P]. *)
Definition emits {S A} (P : event -> Prop) (m : M S A) : Prop :=
  forall s, Forall P (events_of (m s)).

(** The caption of a delivery fits the transport's limit. *)
Definition caption_fits (e : event) : Prop :=
  match e with
  | EReplyPhoto _ (CapText c) | EReplyAudio _ (CapText c)
  | EReplyVideo _ (CapText c) => (length c <= 1024)%nat
  | _ => True
  end.

(** Truthiness of an [Optional[str]]. *)
Definition truthy (p : option (list N)) : option (list N) :=
  match p with
  | Some (c :: s) => Some (c :: s)
  | _ => None
  end.

Fixpoint is_prefix (p s : list N) : bool :=
  match p, s with
  | [], _ => true
  | a :: p', b :: s' => (a =? b)%N && is_prefix p' s'
  | _ :: _, [] => false
  end.

(** [p in s] *)
Fixpoint contains (p s : list N) : bool :=
  is_prefix p s ||
  match s with
  | [] => false
  | _ :: s' => contains p s'
  end.

(** [s.split('_', 1)] unpacked into two names: [None] stands for the
    [ValueError] of the unpacking when [s] has no underscore. *)
Fixpoint split_once (s : list N) : option (list N * list N) :=
  match s with
  | [] => None
  | c :: s' =>
      if (c =? 95)%N then Some ([], s')
      else match split_once s' with
           | Some (a, b) => Some (c :: a, b)
           | None => None
           end
  end.

Definition digit (c : N) : option Z :=
  if ((48 <=? c) && (c <=? 57))%N then Some (Z.of_N c - 48) else None.

Fixpoint digits (acc : Z) (s : list N) : option Z :=
  match s with
  | [] => Some acc
  | c :: s' =>
      match digit c with
      | Some d => digits (10 * acc + d) s'
      | None => None
      end
  end.

(** [int(s)] on the texts the buttons carry: an optional sign and decimal
    digits; [None] stands for [ValueError]. *)
Definition parse_int (s : list N) : option Z :=
  match s with
  | [] => None
  | c :: s' =>
      if (c =? 45)%N then
        match s' with [] => None | _ => option_map Z.opp (digits 0 s') end
      else if (c =? 43)%N then
        match s' with [] => None | _ => digits 0 s' end
      else digits 0 s
  end.

Definition value_error : exn := MkExn ValueError [].
Definition key_error : exn := MkExn KeyError [].
Definition type_error : exn := MkExn TypeError [].

(** ** The rate limiter of [instagram_bot.py]

    [datetime] values have a resolution of one microsecond and [timedelta]
    arithmetic is exact: instants are integers, in microseconds. *)

Module Rate.

Definition MAX_REQUESTS_PER_HOUR : nat := 30.
Definition hour : Z := 3600 * 1000000.
Definition five_minutes : Z := 300 * 1000000.

(** The globals [user_requests] and [last_cleanup]. *)
Record state : Type := MkState {
  user_requests : gmap Z (list Z);
  last_cleanup : Z
}.

(** [[req_time for req_time in l if req_time > hour_ago]] *)
Definition recent (hour_ago : Z) (l : list Z) : list Z :=
  List.filter (fun req_time => hour_ago <? req_time) l.

(** [cleanup_old_requests], reading the clock as [now]. *)
Definition cleanup_old_requests (now : Z) (ur : gmap Z (list Z))
  : gmap Z (list Z) :=
  omap (fun l => match recent (now - hour) l with
                 | [] => None
                 | l' => Some l'
                 end) ur.

Definition record_of (ur : gmap Z (list Z)) (user_id : Z) : list Z :=
  default [] (ur !! user_id).

(** [is_rate_limited]: [now] is its own reading of the clock, [now_c] the
    later reading [cleanup_old_requests] makes when it is called. *)
Definition is_rate_limited (user_id now now_c : Z) (st : state)
  : bool * state :=
  let st1 :=
    if five_minutes <? now - last_cleanup st
    then MkState (cleanup_old_requests now_c (user_requests st)) now
    else st in
  let ur2 :=
    match user_requests st1 !! user_id with
    | None => <[user_id := []]> (user_requests st1)
    | Some _ => user_requests st1
    end in
  let kept := recent (now - hour) (record_of ur2 user_id) in
  let ur3 := <[user_id := kept]> ur2 in
  if (MAX_REQUESTS_PER_HOUR <=? length kept)%nat
  then (true, MkState ur3 (last_cleanup st1))
  else (false, MkState (<[user_id := kept ++ [now]]> ur3) (last_cleanup st1)).

(** Start of the window that a call applies to a record: one hour before
    the latest clock reading that pruned it. *)
Definition window_start (now now_c : Z) (st : state) : Z :=
  if five_minutes <? now - last_cleanup st
  then Z.max (now - hour) (now_c - hour)
  else now - hour.

(** The record [is_rate_limited] tests, after the optional sweep and the
    per-user pruning. *)
Definition kept_of (user_id now now_c : Z) (st : state) : list Z :=
  recent (window_start now now_c st) (record_of (user_requests st) user_id).

(** A call by [user], with its two clock readings. *)
Record call : Type := MkCall { c_user : Z; c_now : Z; c_now_c : Z }.

Fixpoint run (cs : list call) (st : state) : list bool * state :=
  match cs with
  | [] => ([], st)
  | c :: cs' =>
      let (r, st1) := is_rate_limited (c_user c) (c_now c) (c_now_c c) st in
      let (rs, st2) := run cs' st1 in
      (r :: rs, st2)
  end.

(** Instants at which [user_id] calls in [cs]. *)
Definition times_of (user_id : Z) (cs : list call) : list Z :=
  List.map c_now (List.filter (fun c => c_user c =? user_id) cs).

(** Every clock reading of [cs] is less than an hour after every instant
    of [ts]. *)
Definition within_hour (cs : list call) (ts : list Z) : Prop :=
  Forall (fun c => Forall (fun t => c_now c - hour < t /\ c_now_c c - hour < t) ts) cs.

End Rate.

(** ** [instagram_bot.py] *)

Module IB.

(** [patterns] of [extract_instagram_info]; [re.search] without flags. *)
Definition p_profile : regex :=
  cat [lit "instagram.com/"; Grp 1 (Plus (CNot [slash]));
       Opt (Chr (CLit slash)); Eos].
Definition p_reel : regex :=
  cat [lit "instagram.com/reel/"; Grp 1 (Plus (CNot [slash]))].
Definition p_post : regex :=
  cat [lit "instagram.com/p/"; Grp 1 (Plus (CNot [slash]))].
Definition p_story : regex :=
  cat [lit "instagram.com/stories/"; Grp 1 (Plus (CNot [slash]));
       Chr (CLit slash); Grp 2 (Plus (CNot [slash]))].

Definition patterns : list (kind * regex) :=
  [(Profile, p_profile); (Reel, p_reel); (Post, p_post); (Story, p_story)].

Definition pattern_of (k : kind) : regex :=
  match k with
  | Profile => p_profile
  | Reel => p_reel
  | Post => p_post
  | Story => p_story
  end.

(** Position of a kind in [patterns]. *)
Definition rank (k : kind) : nat :=
  match k with Profile => 0 | Reel => 1 | Post => 2 | Story => 3 end.

(** The returned dict; ['unknown'] is [None]. *)
Record info : Type := MkInfo {
  i_type : option kind;
  i_id : option str;
  i_url : str
}.

Definition extract_instagram_info (url : str) : info :=
  match first_match false patterns url with
  | Some (k, m) => MkInfo (Some k) (group 1 m) url
  | None => MkInfo None None url
  end.

(** [\s] on [str]: the code points below 128 with [str.isspace()]. *)
Definition whitespace : list char :=
  [9; 10; 11; 12; 13; 28; 29; 30; 31; 32]%N.

(** [r'https?://(?:www\.)?instagram\.com/[^\s]+'] *)
Definition p_url : regex :=
  cat [lit "http"; Opt (Chr (CLit 115%N)); lit "://"; Opt (lit "www.");
       lit "instagram.com/"; Plus (CNot whitespace)].

(** [re.findall(...)[0]] when the list is not empty. *)
Definition first_url (text : str) : option str :=
  option_map group0 (search false p_url text).


(** *** State and handlers *)

(** The globals [user_requests], [last_cleanup] and [instagram_client],
    [context.user_data] of every user, and the files on disk. *)
Record world : Type := MkWorld {
  rate : Rate.state;
  instagram_client : bool;
  user_data : gmap Z (gmap (list N) (list N));
  files : gset (list N)
}.

Definition data_of (w : world) (user_id : Z) : gmap (list N) (list N) :=
  default ∅ (user_data w !! user_id).

Definition set_files (f : gset (list N) -> gset (list N)) (w : world) : world :=
  MkWorld (rate w) (instagram_client w) (user_data w) (f (files w)).

Definition set_data (user_id : Z)
           (f : gmap (list N) (list N) -> gmap (list N) (list N))
           (w : world) : world :=
  MkWorld (rate w) (instagram_client w)
          (<[user_id := f (data_of w user_id)]> (user_data w)) (files w).

Definition exists_file (w : world) (p : list N) : bool :=
  bool_decide (p ∈ files w).

Definition safe_delete_file (E : env) (file_path : list N) : M world unit :=
  try_except
    (w ← get;
     if exists_file w file_path
     then call E (ERemove file_path);;
          modify (set_files (fun fs => fs ∖ {[file_path]}))
     else ret tt)
    (fun _ => ret tt).

(** The dict [download_with_ytdlp] returns. *)
Record download : Type := MkDownload {
  d_file_path : option (list N);
  d_title : list N;
  d_description : list N;
  d_uploader : list N;
  d_duration : number
}.

Definition download_with_ytdlp (E : env) (url : list N) (audio_only : bool)
  : M world (option download) :=
  try_except
    (modify (set_files (fun fs => fs ∪ list_to_set (files_of E url audio_only)));;
     call E (EDownload url audio_only);;
     let info := info_of E url in
     ret (Some (MkDownload (head (files_of E url audio_only))
                           (title info) (description info) (uploader info)
                           (duration info))))
    (fun _ => ret None).

(** What [download_profile_picture] returns: a path or [None], or, without
    a client, whatever [download_with_ytdlp] returns. *)
Inductive picture : Type :=
| PicPath (p : option (list N))
| PicDict (d : option download).

Definition download_profile_picture (E : env) (username : list N)
  : M world picture :=
  try_except
    (w ← get;
     if negb (instagram_client w)
     then d ← download_with_ytdlp E (u "https://instagram.com/" ++ username) false;
          ret (PicDict d)
     else
       call E (EProfilePicture username);;
       match picture_of E username with
       | Some file_path =>
           modify (set_files (fun fs => fs ∪ {[file_path]}));;
           ret (PicPath (Some file_path))
       | None => ret (PicPath None)
       end)
    (fun _ => ret (PicPath None)).

Definition handle_profile_download (E : env) (i : info) : M world unit :=
  let username := default [] (i_id i) in
  file_path ← download_profile_picture E username;
  w ← get;
  match file_path with
  | PicPath p =>
      match truthy p with
      | Some p =>
          if exists_file w p then
            try_finally
              (call E (EOpen p);;
               call E (EReplyPhoto p (CapProfile username (i_url i)));;
               call E EDeleteMessage)
              (safe_delete_file E p)
          else call E (EEdit MProfilePictureFailed [])
      | None => call E (EEdit MProfilePictureFailed [])
      end
  | PicDict (Some _) => raise type_error      (* [os.path.exists] of a dict *)
  | PicDict None => call E (EEdit MProfilePictureFailed [])
  end.

Definition url_key (content_id : list N) : list N := u "url_" ++ content_id.

Definition handle_reel_download (E : env) (user_id : Z) (i : info)
  : M world unit :=
  let id := default [] (i_id i) in
  call E (EEdit (MChooseFormat (i_url i)) [u "video_" ++ id; u "audio_" ++ id]);;
  modify (set_data user_id (fun d => <[url_key id := i_url i]> d)).

(** [now] and [now_c] are the clock readings of [is_rate_limited]. *)
Definition handle_instagram_url (E : env) (now now_c : Z) (user_id : Z)
           (message_text : list N) : M world unit :=
  w ← get;
  let (limited, st) := Rate.is_rate_limited user_id now now_c (rate w) in
  modify (fun w => MkWorld st (instagram_client w) (user_data w) (files w));;
  if limited then call E (EReply MRateLimited)
  else
    match first_url message_text with
    | None => call E (EReply MNoValidUrl)
    | Some url =>
        let i := extract_instagram_info url in
        call E (EReply (MProcessingUrl url (i_type i)));;
        try_except
          (match i_type i with
           | Some Profile => handle_profile_download E i
           | Some Reel | Some Post => handle_reel_download E user_id i
           | _ => call E (EEdit MUnsupportedType [])
           end)
          (fun _ => call E (EEdit MErrorOccurred []))
    end.

(** The caption of [handle_format_callback]: formatting a [float] duration
    with [:02d] raises. *)
Definition build_caption (d : download) (url : list N) : M world caption :=
  let t := if d_title d is [] then None else Some (firstn 100 (d_title d)) in
  let up := if d_uploader d is [] then None else Some (d_uploader d) in
  match d_duration d with
  | Int 0 => ret (CapDownload t up None url)
  | Int n => ret (CapDownload t up (Some (n / 60, n mod 60)) url)
  | Float q =>
      if Qeq_bool q 0 then ret (CapDownload t up None url)
      else raise value_error
  end.

(** The [try] statement that ends [handle_format_callback]. *)
Definition fetch_and_deliver (E : env) (user_id : Z) (key url : list N)
           (audio_only : bool) : M world unit :=
  try_finally
    (try_except
       (result ← download_with_ytdlp E url audio_only;
        w ← get;
        match result with
        | Some d =>
            match truthy (d_file_path d) with
            | Some p =>
                if exists_file w p then
                  try_finally
                    (c ← build_caption d url;
                     call E (EOpen p);;
                     (if audio_only then call E (EReplyAudio p c)
                      else call E (EReplyVideo p c));;
                     call E EDeleteMessage)
                    (safe_delete_file E p)
                else call E (EEdit MDownloadFailedUrl [])
            | None => call E (EEdit MDownloadFailedUrl [])
            end
        | None => call E (EEdit MDownloadFailedUrl [])
        end)
       (fun _ => call E (EEdit MErrorDuringDownload [])))
    (w ← get;
     match data_of w user_id !! key with
     | Some _ =>
         emit (EDelUserData key);;
         modify (set_data user_id (fun d => delete key d))
     | None => ret tt
     end).

(** The file the fetcher hands over: the path it returns, when that is a
    file on disk. *)
Definition fetched (E : env) (url : list N) (audio_only : bool) (w : world)
  : option (list N) :=
  match download_with_ytdlp E url audio_only w with
  | (w1, _, Val (Some d)) =>
      match truthy (d_file_path d) with
      | Some p => if exists_file w1 p then Some p else None
      | None => None
      end
  | _ => None
  end.

Definition handle_format_callback (E : env) (user_id : Z) (data : list N)
  : M world unit :=
  call E (EAnswer None);;
  match split_once data with
  | None => raise value_error
  | Some (format_type, content_id) =>
      w ← get;
      match data_of w user_id !! url_key content_id with
      | None => call E (EEdit MSessionExpiredUrl [])
      | Some url =>
          let audio_only := bool_decide (format_type = u "audio") in
          call E (EEdit (MDownloadingFormat format_type) []);;
          fetch_and_deliver E user_id (url_key content_id) url audio_only
      end
  end.

End IB.

(** ** [main.py] *)

Module Main.

Definition url_prefix : list regex :=
  [lit "http"; Opt (Chr (CLit 115%N)); lit "://"; Opt (lit "www.");
   lit "instagram.com/"].

Definition seg (n : nat) : regex := Grp n (Plus (CNot [slash; qmark; hash])).

(** An optional slash, then an optional query: a question mark and the
    rest of the line. *)
Definition url_tail : list regex :=
  [Opt (Chr (CLit slash)); Opt (Cat (Chr (CLit qmark)) (Star CAny))].

Definition p_profile : regex := cat (url_prefix ++ [seg 1] ++ url_tail ++ [Eos]).
Definition p_post : regex := cat (url_prefix ++ [lit "p/"; seg 1] ++ url_tail).
Definition p_reel : regex := cat (url_prefix ++ [lit "reel/"; seg 1] ++ url_tail).
Definition p_story : regex :=
  cat (url_prefix ++ [lit "stories/"; seg 1; Chr (CLit slash); seg 2] ++ url_tail).

Definition patterns : list (kind * regex) :=
  [(Profile, p_profile); (Post, p_post); (Reel, p_reel); (Story, p_story)].

Definition pattern_of (k : kind) : regex :=
  match k with
  | Profile => p_profile
  | Post => p_post
  | Reel => p_reel
  | Story => p_story
  end.

(** Position of a kind in [patterns]. *)
Definition rank (k : kind) : nat :=
  match k with Profile => 0 | Post => 1 | Reel => 2 | Story => 3 end.

(** Returns [(match.group(0), url_type)] or [None]; [re.IGNORECASE]. *)
Definition extract_instagram_info (text : str) : option (str * kind) :=
  match first_match true patterns text with
  | Some (k, m) => Some (group0 m, k)
  | None => None
  end.

(** *** Sessions

    [time.time()] returns a double; the difference of two doubles within a
    factor two of one another is exact, so instants are modelled as
    rationals, in seconds. *)

Record session : Type := MkSession {
  s_url : list N;
  s_url_type : kind;
  s_timestamp : Q
}.

(** [bot.user_sessions] and the files that exist on disk. *)
Record world : Type := MkWorld {
  user_sessions : gmap Z session;
  files : gset (list N)
}.

Definition session_timeout : Q := 300.

Definition Qltb (x y : Q) : bool := negb (Qle_bool y x).

Definition is_session_valid (user_id : Z) (now : Q) (w : world) : bool :=
  match user_sessions w !! user_id with
  | None => false
  | Some s => Qltb (now - s_timestamp s) session_timeout
  end.

Definition create_session (user_id : Z) (url : list N) (url_type : kind)
           (now : Q) (w : world) : world :=
  MkWorld (<[user_id := MkSession url url_type now]> (user_sessions w))
          (files w).

(** [self.user_sessions.pop(user_id, None)] *)
Definition clear_session (user_id : Z) : M world unit :=
  emit (EClearSession user_id);;
  modify (fun w => MkWorld (delete user_id (user_sessions w)) (files w)).

Definition exists_file (w : world) (p : list N) : bool :=
  bool_decide (p ∈ files w).

Definition safe_delete_file (E : env) (filepath : list N) : M world unit :=
  try_except
    (w ← get;
     if match filepath with [] => false | _ => exists_file w filepath end
     then call E (ERemove filepath);;
          modify (fun w => MkWorld (user_sessions w) (files w ∖ {[filepath]}))
     else ret tt)
    (fun _ => ret tt).

(** *** Captions *)

Definition nl2 : list N := [10; 10]%N.
Definition dots : list N := u "...".

Fixpoint join (sep : list N) (parts : list (list N)) : list N :=
  match parts with
  | [] => []
  | [p] => p
  | p :: ps => p ++ sep ++ join sep ps
  end.

Definition nonempty (s : list N) : bool :=
  match s with [] => false | _ => true end.

(** The caption of [download_with_ytdlp]. *)
Definition build_caption (i : ydl_info) : option (list N) :=
  let caption_parts :=
    (if nonempty (uploader i)
     then [[128100; 32; 42; 42]%N ++ uploader i ++ [42; 42]%N] else [])
    ++ (if nonempty (title i) && negb (bool_decide (title i = uploader i))
        then [[128221; 32]%N ++ title i] else [])
    ++ (if nonempty (description i)
           && negb (bool_decide (description i = title i))
        then let desc :=
               if (200 <? length (description i))%nat
               then firstn 200 (description i) ++ dots
               else description i in
             [[128172; 32]%N ++ desc]
        else []) in
  match caption_parts with
  | [] => None
  | _ => Some (join nl2 caption_parts)
  end.

Inductive status : Type :=
| StPrivate | StOk | StNotFound
| StFailed (e : list N) | StError (e : list N).

(** The status line as it is pasted into a message. *)
Definition status_text (s : status) : list N :=
  match s with
  | StPrivate =>
      [128274; 32]%N
      ++ u "This account/content is private and cannot be downloaded."
  | StOk => [9989; 32]%N ++ u "Download successful!"
  | StNotFound => [10060; 32]%N ++ u "Download completed but file not found."
  | StFailed e => [10060; 32]%N ++ u "Download failed: " ++ e
  | StError e => [10060; 32]%N ++ u "An error occurred during download: " ++ e
  end.

(** Whatever yt-dlp leaves on disk is there once [ydl.download] has been
    called, whether it returns or raises. *)
Definition download_with_ytdlp (E : env) (url : list N) (audio_only : bool)
  : M world (option (list N) * status * option (list N)) :=
  try_except
    (call E (EExtractInfo url);;
     let info := info_of E url in
     if availability_private info then ret (None, StPrivate, None)
     else
       modify (fun w => MkWorld (user_sessions w)
                          (files w ∪ list_to_set (files_of E url audio_only)));;
       call E (EDownload url audio_only);;
       let caption := build_caption info in
       match files_of E url audio_only with
       | file_path :: _ => ret (Some file_path, StOk, caption)
       | [] => ret (None, StNotFound, None)
       end)
    (fun e =>
       match e_class e with
       | DownloadError =>
           let error_msg := lower_str (e_msg e) in
           if contains (u "private") error_msg
              || contains (u "not available") error_msg
           then ret (None, StPrivate, None)
           else ret (None, StFailed (e_msg e), None)
       | _ => ret (None, StError (e_msg e), None)
       end).

(** *** Profile pictures *)

Definition profile_title : list N :=
  [128248; 10024; 32]%N ++ u "**Profile Picture Downloaded!**".

Definition handle_profile_download (E : env) (url : list N) : M world unit :=
  try_assign (None, StOk, None)
    (call E (EEdit MDownloadingProfile []);;
     download_with_ytdlp E url false)
    (fun '(filepath, status_msg, caption) =>
       w ← get;
       match truthy filepath with
       | Some p =>
           if exists_file w p then
             call E (EOpen p);;
             let caption_text :=
               match truthy caption with
               | Some c => profile_title ++ nl2 ++ c
               | None => profile_title
               end in
             call E (EReplyPhoto p (CapText caption_text));;
             call E EDeleteMessage
           else call E (EEdit (MProfileFailed (status_text status_msg)) [])
       | None => call E (EEdit (MProfileFailed (status_text status_msg)) [])
       end)
    (fun e => call E (EEdit (MProfileError (e_msg e)) []))
    (fun '(filepath, _, _) =>
       match truthy filepath with
       | Some p => safe_delete_file E p
       | None => ret tt
       end).

(** *** Format choice *)

(** The [callback_data] of the three buttons. *)
Definition keyboard (user_id : Z) : list (list N) :=
  [u "video_" ++ str_of_Z user_id; u "audio_" ++ str_of_Z user_id;
   u "cancel_" ++ str_of_Z user_id].

Definition handle_media_choice (E : env) (now : Q) (url : list N)
           (url_type : kind) (user_id : Z) : M world unit :=
  try_except
    (modify (create_session user_id url url_type now);;
     call E (EEdit (MChoose url_type) (keyboard user_id)))
    (fun e => call E (EEdit (MOptionsError (e_msg e)) [])).

Definition handle_instagram_message (E : env) (now : Q) (user_id : Z)
           (message_text : list N) : M world unit :=
  match extract_instagram_info message_text with
  | None => call E (EReply MInvalidUrl)
  | Some (url, url_type) =>
      call E (EReply (MProcessing url_type));;
      try_except
        (match url_type with
         | Profile => handle_profile_download E url
         | Reel | Post => handle_media_choice E now url url_type user_id
         | Story => call E (EEdit MUnsupported [])
         end)
        (fun e => call E (EEdit (MOops (e_msg e)) []))
  end.

(** *** Button callbacks *)

Definition done_title (audio_only : bool) : list N :=
  (if audio_only then [127925]%N else [127909]%N) ++ [9989; 32]%N ++ u "**"
  ++ (if audio_only then u "Audio" else u "Video")
  ++ u " Downloaded Successfully!**".

(** The [try] statement that ends [handle_button_callback]. *)
Definition fetch_and_deliver (E : env) (user_id : Z) (url : list N)
           (audio_only : bool) : M world unit :=
  try_assign (None, StOk, None)
    (download_with_ytdlp E url audio_only)
    (fun '(filepath, status_msg, caption) =>
       w ← get;
       match truthy filepath with
       | Some p =>
           if exists_file w p then
             call E (EOpen p);;
             let caption_text :=
               match truthy caption with
               | Some c => done_title audio_only ++ nl2 ++ c
               | None => done_title audio_only
               end in
             (if audio_only
              then call E (EReplyAudio p (CapText (firstn 1024 caption_text)))
              else call E (EReplyVideo p (CapText (firstn 1024 caption_text))));;
             call E EDeleteMessage
           else call E (EEdit (MDownloadFailed (status_text status_msg)) [])
       | None => call E (EEdit (MDownloadFailed (status_text status_msg)) [])
       end)
    (fun e => call E (EEdit (MDownloadError (e_msg e)) []))
    (fun '(filepath, _, _) =>
       clear_session user_id;;
       match truthy filepath with
       | Some p => safe_delete_file E p
       | None => ret tt
       end).

(** The file the fetcher hands over: the path it returns, when that is a
    file on disk. *)
Definition fetched (E : env) (url : list N) (audio_only : bool) (w : world)
  : option (list N) :=
  match download_with_ytdlp E url audio_only w with
  | (w1, _, Val (filepath, _, _)) =>
      match truthy filepath with
      | Some p => if exists_file w1 p then Some p else None
      | None => None
      end
  | _ => None
  end.

(** [action, callback_user_id = query.data.split('_', 1)] and
    [int(callback_user_id)] *)
Definition parse_callback (data : list N) : option (list N * Z) :=
  match split_once data with
  | Some (action, id) =>
      match parse_int id with
      | Some callback_user_id => Some (action, callback_user_id)
      | None => None
      end
  | None => None
  end.

Definition handle_button_callback (E : env) (now : Q) (user_id : Z)
           (data : list N) : M world unit :=
  call E (EAnswer None);;
  w ← get;
  if negb (is_session_valid user_id now w)
  then call E (EEdit MSessionExpired [])
  else
    match parse_callback data with
    | None => raise value_error
    | Some (action, callback_user_id) =>
        if negb (user_id =? callback_user_id)
        then call E (EAnswer (Some MNotForYou))
        else
          match user_sessions w !! user_id with
          | None => raise key_error
          | Some session =>
              if bool_decide (action = u "cancel")
              then clear_session user_id;;
                   call E (EEdit MCancelled [])
              else
                let audio_only := bool_decide (action = u "audio") in
                call E (EEdit (MDownloading audio_only) []);;
                fetch_and_deliver E user_id (s_url session) audio_only
          end
    end.

End Main.

(** ** Sample inputs *)

(** Thirty calls of user 7, one per microsecond. *)
Definition rate_calls_30 : list Rate.call :=
  List.map (fun n => Rate.MkCall 7 (Z.of_nat n) (Z.of_nat n)) (seq 1 30).

(** A store holding one session, created at [t0]. *)
Definition session_world (user_id : Z) (t0 : Q) : Main.world :=
  Main.create_session user_id (u "https://instagram.com/reel/abc") Reel t0
                      (Main.MkWorld ∅ ∅).

(** An environment in which nothing raises and nothing is downloaded. *)
Definition quiet : env :=
  MkEnv (fun _ => None) (fun _ => MkInfo false [] [] [] (Int 0))
        (fun _ _ => []) (fun _ => None).

(** A delivery that fails: yt-dlp leaves one file, sending the video raises. *)
Definition failing_delivery : env :=
  MkEnv (fun e => match e with
                  | EReplyVideo _ _ => Some (MkExn OtherException (u "Timed out"))
                  | _ => None
                  end)
        (fun _ => MkInfo false (u "Video by alice") (u "sunset") (u "alice")
                         (Int 75))
        (fun _ _ => [u "/tmp/instagram_20240101_120000.mp4"])
        (fun _ => None).

(** User 7 was offered the formats of reel [abc]. *)
Definition pending_world : IB.world :=
  IB.MkWorld (Rate.MkState ∅ 0) true
             {[ 7 := {[ u "url_abc" := u "https://instagram.com/reel/abc" ]} ]}
             ∅.

(** yt-dlp reports a title of 1100 characters and leaves one file. *)
Definition long_title : env :=
  MkEnv (fun _ => None)
        (fun _ => MkInfo false (repeat 97%N 1100) [] (u "alice") (Int 0))
        (fun _ _ => [u "downloads/media_1700000000.jpg"])
        (fun _ => None).

(** User 7 has made the thirty calls of [rate_calls_30]. *)
Definition saturated_world : IB.world :=
  IB.MkWorld (snd (Rate.run rate_calls_30 (Rate.MkState ∅ 0))) true ∅ ∅.

(** Lowering the case of a match object and of backtracking states. *)
Definition lower_caps (g : list (nat * list N)) : list (nat * list N) :=
  List.map (fun nv => (fst nv, lower_str (snd nv))) g.

Definition lower_state (sg : list N * list (nat * list N))
  : list N * list (nat * list N) :=
  (lower_str (fst sg), lower_caps (snd sg)).

Definition lower_match (m : rematch) : rematch :=
  MkMatch (lower_str (group0 m)) (lower_caps (groups m)).

(** Unfolding of the monad's operations. *)
Ltac mrun :=
  cbv [mbind mret M_bind M_ret bind ret call get modify emit raise
       try_except try_finally try_assign state_of events_of result_of];
  cbn [fst snd].

(** ** Further notions *)

(** No record holds more than [MAX_REQUESTS_PER_HOUR] instants. *)
Definition bounded (ur : gmap Z (list Z)) : Prop :=
  forall v, (length (Rate.record_of ur v) <= Rate.MAX_REQUESTS_PER_HOUR)%nat.

(** A call of [ydl.download]. *)
Definition is_download (e : event) : bool :=
  match e with EDownload _ _ => true | _ => false end.

(** A reel link as [handle_instagram_url] classifies it. *)
Definition reel_abc : IB.info :=
  IB.extract_instagram_info (u "https://instagram.com/reel/abc").

(** Every group numbered 1 of a pattern is a run [[^...]+] that excludes the
    character [c]. *)
Fixpoint grp1_excludes (c : N) (r : regex) : bool :=
  match r with
  | Grp n r' =>
      (negb (Nat.eqb n 1)
       || match r' with
          | Plus (CNot cs) => existsb (N.eqb c) cs
          | _ => false
          end)
      && grp1_excludes c r'
  | Cat a b => grp1_excludes c a && grp1_excludes c b
  | Opt a => grp1_excludes c a
  | _ => true
  end.

(** Every match of the pattern goes through a group numbered 1. *)
Fixpoint sets_grp1 (r : regex) : bool :=
  match r with
  | Grp n r' => Nat.eqb n 1 || sets_grp1 r'
  | Cat a b => sets_grp1 a || sets_grp1 b
  | _ => false
  end.

(** The captures numbered 1 are not empty and do not contain [c]. *)
Definition caps_exclude (c : N) (g : list (nat * list N)) : Prop :=
  forall v, In (1%nat, v) g -> v <> [] /\ ~ In c v.

(** A download that is interrupted: yt-dlp has written a file when
    [ydl.download] raises (audio extraction without ffmpeg in [main.py], a
    partial video in [instagram_bot.py]). *)
Definition interrupted_download : env :=
  MkEnv (fun e => match e with
                  | EDownload _ _ =>
                      Some (MkExn DownloadError
                                  (u "ERROR: Postprocessing: ffprobe and ffmpeg not found"))
                  | _ => None
                  end)
        (fun _ => MkInfo false (u "Video by alice") (u "sunset") (u "alice")
                         (Int 75))
        (fun _ audio_only =>
           if audio_only then [u "downloads/audio_1700000000.webm"]
           else [u "/tmp/instagram_20240101_120000.mp4.part"])
        (fun _ => None).



(** * Properties *)

Example ib_alice :
  IB.extract_instagram_info (u "https://instagram.com/alice")
  = IB.MkInfo (Some Profile) (Some (u "alice")) (u "https://instagram.com/alice").
Proof. vm_compute. reflexivity. Qed.

Example ib_reel :
  IB.extract_instagram_info (u "https://instagram.com/reel/XYZ123/")
  = IB.MkInfo (Some Reel) (Some (u "XYZ123"))
              (u "https://instagram.com/reel/XYZ123/").
Proof. vm_compute. reflexivity. Qed.

Example main_reel :
  Main.extract_instagram_info (u "see HTTPS://www.Instagram.com/REEL/XYZ123/?a=b ok")
  = Some (u "HTTPS://www.Instagram.com/REEL/XYZ123/?a=b ok", Reel).
Proof. vm_compute. reflexivity. Qed.

(** ** Rate limiter *)

Section RateFacts.
Import Rate.

Lemma recent_recent a b l : recent a (recent b l) = recent (Z.max a b) l.
Proof.
  unfold recent. induction l as [|t l IH]; simpl; [reflexivity|].
  destruct (b <? t) eqn:Hb; simpl.
  - destruct (a <? t) eqn:Ha.
    + replace (Z.max a b <? t) with true by (symmetry; apply Z.ltb_lt; lia).
      now rewrite IH.
    + replace (Z.max a b <? t) with false by (symmetry; apply Z.ltb_ge; lia).
      exact IH.
  - replace (Z.max a b <? t) with false by (symmetry; apply Z.ltb_ge; lia).
    exact IH.
Qed.

Lemma recent_all a l : Forall (fun t => a < t) l -> recent a l = l.
Proof.
  unfold recent. induction 1 as [|t l Ht _ IH]; simpl; [reflexivity|].
  replace (a <? t) with true by (symmetry; apply Z.ltb_lt; lia).
  now rewrite IH.
Qed.

Lemma record_of_cleanup now ur v :
  record_of (cleanup_old_requests now ur) v = recent (now - hour) (record_of ur v).
Proof.
  unfold record_of, cleanup_old_requests. rewrite lookup_omap.
  destruct (ur !! v) as [l|]; simpl; [|reflexivity].
  destruct (recent (now - hour) l); reflexivity.
Qed.

Lemma is_rate_limited_eq user_id now now_c st :
  let kept := kept_of user_id now now_c st in
  let r := (MAX_REQUESTS_PER_HOUR <=? length kept)%nat in
  fst (is_rate_limited user_id now now_c st) = r /\
  user_requests (snd (is_rate_limited user_id now now_c st)) !! user_id
    = Some (if r then kept else kept ++ [now]).
Proof.
  unfold kept_of, window_start, is_rate_limited.
  destruct (five_minutes <? now - last_cleanup st) eqn:Hc; cbn zeta.
  - cbn [user_requests last_cleanup].
    set (ur1 := cleanup_old_requests now_c (user_requests st)).
    assert (Hrec : record_of
              (match ur1 !! user_id with
               | None => <[user_id := []]> ur1
               | Some _ => ur1 end) user_id
            = recent (now_c - hour) (record_of (user_requests st) user_id)).
    { rewrite <- record_of_cleanup. fold ur1. unfold record_of.
      destruct (ur1 !! user_id) eqn:E; [now rewrite E|].
      now rewrite lookup_insert_eq. }
    rewrite Hrec, recent_recent.
    destruct (MAX_REQUESTS_PER_HOUR <=? _)%nat; cbn;
      now rewrite lookup_insert_eq.
  - assert (Hrec : record_of
              (match user_requests st !! user_id with
               | None => <[user_id := []]> (user_requests st)
               | Some _ => user_requests st end) user_id
            = record_of (user_requests st) user_id).
    { unfold record_of.
      destruct (user_requests st !! user_id) eqn:E; [now rewrite E|].
      now rewrite lookup_insert_eq. }
    rewrite Hrec.
    destruct (MAX_REQUESTS_PER_HOUR <=? _)%nat; cbn;
      now rewrite lookup_insert_eq.
Qed.

(** A call leaves the record of another user alone, up to the sweep. *)
Lemma is_rate_limited_other user_id now now_c st v :
  v <> user_id ->
  record_of (user_requests (snd (is_rate_limited user_id now now_c st))) v
  = if five_minutes <? now - last_cleanup st
    then recent (now_c - hour) (record_of (user_requests st) v)
    else record_of (user_requests st) v.
Proof.
  intros Hv. unfold is_rate_limited.
  destruct (five_minutes <? now - last_cleanup st) eqn:Hc; cbn zeta;
    cbn [user_requests last_cleanup].
  - rewrite <- (record_of_cleanup now_c (user_requests st) v).
    set (ur1 := cleanup_old_requests now_c (user_requests st)).
    destruct (ur1 !! user_id); destruct (MAX_REQUESTS_PER_HOUR <=? _)%nat;
      cbn [snd user_requests]; unfold record_of;
      rewrite ?lookup_insert_ne by congruence; reflexivity.
  - destruct (user_requests st !! user_id);
      destruct (MAX_REQUESTS_PER_HOUR <=? _)%nat;
      cbn [snd user_requests]; unfold record_of;
      rewrite ?lookup_insert_ne by congruence; reflexivity.
Qed.

End RateFacts.

Section RateWindow.
Import Rate.

Lemma window_start_ge now now_c st : now - hour <= window_start now now_c st.
Proof. unfold window_start. destruct (_ <? _); lia. Qed.

Lemma kept_all user_id now now_c st :
  Forall (fun t => now - hour < t /\ now_c - hour < t)
         (record_of (user_requests st) user_id) ->
  kept_of user_id now now_c st = record_of (user_requests st) user_id.
Proof.
  intros H. unfold kept_of. apply recent_all.
  eapply List.Forall_impl; [|exact H]. cbn beta.
  intros t [H1 H2]. unfold window_start. destruct (_ <? _); lia.
Qed.

Lemma within_hour_cons c cs ts :
  within_hour (c :: cs) ts <->
  Forall (fun t => c_now c - hour < t /\ c_now_c c - hour < t) ts /\
  within_hour cs ts.
Proof.
  unfold within_hour. split.
  - intros H. inversion H; subst. now split.
  - intros [H1 H2]. now constructor.
Qed.

(** Calls that all lie within an hour of one another are admitted as long
    as the record has room, and are appended to it in order. *)
Lemma run_admits user_id : forall cs st,
  within_hour cs (record_of (user_requests st) user_id ++ times_of user_id cs) ->
  (length (record_of (user_requests st) user_id)
   + length (times_of user_id cs) <= MAX_REQUESTS_PER_HOUR)%nat ->
  record_of (user_requests (snd (run cs st))) user_id
    = record_of (user_requests st) user_id ++ times_of user_id cs /\
  Forall2 (fun c r => c_user c = user_id -> r = false) cs (fst (run cs st)).
Proof.
  induction cs as [|c cs IH]; intros st Hw Hlen.
  - cbn. rewrite app_nil_r. split; constructor.
  - apply within_hour_cons in Hw. destruct Hw as [Hc Hw].
    cbn [run].
    destruct (is_rate_limited (c_user c) (c_now c) (c_now_c c) st)
      as [r st1] eqn:E.
    assert (E1 : st1 = snd (is_rate_limited (c_user c) (c_now c) (c_now_c c) st))
      by now rewrite E.
    assert (Er : r = fst (is_rate_limited (c_user c) (c_now c) (c_now_c c) st))
      by now rewrite E.
    destruct (run cs st1) as [rs st2] eqn:E2.
    cbn [fst snd]. unfold times_of in *. cbn [List.filter] in *.
    destruct (c_user c =? user_id) eqn:Eu.
    + apply Z.eqb_eq in Eu. cbn [List.map length] in *. subst user_id.
      destruct (is_rate_limited_eq (c_user c) (c_now c) (c_now_c c) st)
        as [Hr Hrec].
      cbn zeta in Hr, Hrec.
      apply List.Forall_app in Hc. destruct Hc as [Hl _].
      rewrite (kept_all (c_user c) (c_now c) (c_now_c c) st Hl) in Hr, Hrec.
      assert (Hlt : (MAX_REQUESTS_PER_HOUR
                     <=? length (record_of (user_requests st) (c_user c)))%nat = false)
        by (apply Nat.leb_gt; lia).
      rewrite Hlt in Hr, Hrec. rewrite <- Er in Hr. rewrite <- E1 in Hrec.
      assert (Hrec1 : record_of (user_requests st1) (c_user c)
                      = record_of (user_requests st) (c_user c) ++ [c_now c])
        by (unfold record_of at 1; now rewrite Hrec).
      destruct (IH st1) as [IH1 IH2].
      * rewrite Hrec1, <- app_assoc. exact Hw.
      * rewrite Hrec1, length_app. cbn [length]. lia.
      * rewrite E2 in IH1, IH2. cbn [fst snd] in IH1, IH2. split.
        -- rewrite IH1, Hrec1, <- app_assoc. reflexivity.
        -- constructor; [intros _; exact Hr | exact IH2].
    + apply Z.eqb_neq in Eu.
      assert (Hrec1 : record_of (user_requests st1) user_id
                      = record_of (user_requests st) user_id).
      { rewrite E1, is_rate_limited_other by congruence.
        destruct (_ <? _); [|reflexivity].
        apply recent_all. apply List.Forall_app in Hc. destruct Hc as [Hc _].
        eapply List.Forall_impl; [|exact Hc]. cbn beta. intros t Ht; lia. }
      destruct (IH st1) as [IH1 IH2].
      * rewrite Hrec1. exact Hw.
      * rewrite Hrec1. exact Hlen.
      * rewrite E2 in IH1, IH2. cbn [fst snd] in IH1, IH2. split.
        -- rewrite IH1, Hrec1. reflexivity.
        -- constructor; [intros Hu; congruence | exact IH2].
Qed.

End RateWindow.

(** C2.  Rate-limit admit operation ([is_rate_limited] returns [true] for a
    denied call).  On every call the user's record is first pruned to the
    entries later than the window start, which is never earlier than one
    hour before the current time, so every entry at least one hour old is
    gone; the call is denied exactly when at least 30 entries remain, and
    then the record is the pruned one (the attempt is not recorded);
    otherwise the current instant is appended.  Hence, for a user whose
    record is empty, 30 calls lying within one hour of one another (and of
    the next call, whatever other users do in between) are all admitted and
    the next call is denied; and a full record whose oldest entries have
    left the window admits again. *)
Theorem C2_rate_limit_admit :
  (forall user_id now now_c st,
     let old := Rate.record_of (Rate.user_requests st) user_id in
     let start := Rate.window_start now now_c st in
     let kept := List.filter (fun t => start <? t) old in
     let denied := fst (Rate.is_rate_limited user_id now now_c st) in
     let st' := snd (Rate.is_rate_limited user_id now now_c st) in
     now - Rate.hour <= start /\
     (forall t, In t old -> t <= now - Rate.hour -> ~ In t kept) /\
     (denied = true <-> (30 <= length kept)%nat) /\
     (denied = true -> Rate.user_requests st' !! user_id = Some kept) /\
     (denied = false ->
      Rate.user_requests st' !! user_id = Some (kept ++ [now]))) /\
  (forall user_id cs now now_c st,
     Rate.record_of (Rate.user_requests st) user_id = [] ->
     length (Rate.times_of user_id cs) = 30%nat ->
     Rate.within_hour (cs ++ [Rate.MkCall user_id now now_c])
                      (Rate.times_of user_id cs) ->
     Forall2 (fun c r => Rate.c_user c = user_id -> r = false)
             cs (fst (Rate.run cs st)) /\
     fst (Rate.is_rate_limited user_id now now_c (snd (Rate.run cs st))) = true /\
     Rate.record_of
       (Rate.user_requests
          (snd (Rate.is_rate_limited user_id now now_c (snd (Rate.run cs st)))))
       user_id = Rate.times_of user_id cs) /\
  (forall user_id now now_c st t,
     (length (Rate.record_of (Rate.user_requests st) user_id) <= 30)%nat ->
     In t (Rate.record_of (Rate.user_requests st) user_id) ->
     t <= now - Rate.hour ->
     fst (Rate.is_rate_limited user_id now now_c st) = false).
Proof.
  split; [|split].
  - intros user_id now now_c st old start kept denied st'.
    pose proof (window_start_ge now now_c st) as Hge.
    destruct (is_rate_limited_eq user_id now now_c st) as [Hr Hrec].
    cbn zeta in Hr, Hrec. unfold Rate.kept_of, Rate.recent in Hr, Hrec.
    fold old start kept denied st' in Hr, Hrec.
    split; [exact Hge|]. split; [|split; [|split]].
    + intros t _ Hold Hin. apply List.filter_In in Hin.
      destruct Hin as [_ Hlt]. apply Z.ltb_lt in Hlt. unfold start in Hlt. lia.
    + rewrite Hr. unfold Rate.MAX_REQUESTS_PER_HOUR. apply Nat.leb_le.
    + intros Hd. rewrite Hrec, <- Hr, Hd. reflexivity.
    + intros Hd. rewrite Hrec, <- Hr, Hd. reflexivity.
  - intros user_id cs now now_c st Hempty Hlen Hw.
    unfold Rate.within_hour in Hw. apply List.Forall_app in Hw.
    destruct Hw as [Hcs Hlast]. inversion Hlast as [|? ? Hnow _]; subst.
    cbn [Rate.c_now Rate.c_now_c] in Hnow.
    destruct (run_admits user_id cs st) as [Hrec Hall].
    + rewrite Hempty. exact Hcs.
    + rewrite Hempty, Hlen. unfold Rate.MAX_REQUESTS_PER_HOUR. cbn. lia.
    + rewrite Hempty in Hrec. cbn [app] in Hrec.
      split; [exact Hall|].
      destruct (is_rate_limited_eq user_id now now_c (snd (Rate.run cs st)))
        as [Hr Hrec'].
      cbn zeta in Hr, Hrec'.
      rewrite kept_all in Hr, Hrec' by (rewrite Hrec; exact Hnow).
      rewrite Hrec in Hr, Hrec'. rewrite Hlen in Hr, Hrec'.
      split; [exact Hr|].
      unfold Rate.record_of at 1. rewrite Hrec'. reflexivity.
  - intros user_id now now_c st t Hlen Hin Hold.
    destruct (is_rate_limited_eq user_id now now_c st) as [Hr _].
    cbn zeta in Hr. rewrite Hr. apply Nat.leb_gt.
    unfold Rate.kept_of, Rate.recent, Rate.MAX_REQUESTS_PER_HOUR.
    pose proof (window_start_ge now now_c st) as Hge.
    set (l := Rate.record_of (Rate.user_requests st) user_id) in *.
    set (f := fun req_time => Rate.window_start now now_c st <? req_time).
    assert (Hlt : (length (List.filter f l) < length l)%nat).
    { clear Hlen. induction l as [|x l IH]; [destruct Hin|].
      cbn [List.filter]. destruct Hin as [->|Hin].
      - replace (f t) with false by (symmetry; apply Z.ltb_ge; lia).
        pose proof (List.filter_length_le f l). cbn [length]. lia.
      - specialize (IH Hin). destruct (f x); cbn [length]; lia. }
    lia.
Qed.

(** Thirty calls of user 7 at instants 1..30, then a thirty-first. *)
Lemma C2_rate_limit_admit_witness :
  fst (Rate.is_rate_limited 7 31 31
         (snd (Rate.run rate_calls_30 (Rate.MkState ∅ 0)))) = true.
Proof.
  refine (proj1 (proj2 (proj1 (proj2 C2_rate_limit_admit)
                          7 rate_calls_30 31 31 (Rate.MkState ∅ 0) _ _ _))).
  - reflexivity.
  - reflexivity.
  - unfold Rate.within_hour. apply (bool_decide_unpack _). vm_compute. exact I.
Defined.

(** ** Sessions and button callbacks of [main.py] *)

Lemma Qltb_lt x y : Main.Qltb x y = true <-> (x < y)%Q.
Proof.
  unfold Main.Qltb. rewrite negb_true_iff. split.
  - intros H. apply Qnot_le_lt. intros Hle.
    apply Qle_bool_iff in Hle. congruence.
  - intros H. destruct (Qle_bool y x) eqn:E; [|reflexivity].
    apply Qle_bool_iff in E. exfalso. exact (Qlt_not_le _ _ H E).
Qed.

(** What the handler does when the acting user has no valid session. *)
Lemma callback_expired E now user_id data w :
  Main.is_session_valid user_id now w = false ->
  Main.handle_button_callback E now user_id data w
  = (call E (EAnswer None);; call E (EEdit MSessionExpired [])) w.
Proof.
  intros H. unfold Main.handle_button_callback. mrun.
  destruct (fails E (EAnswer None)); [reflexivity|].
  rewrite H. reflexivity.
Qed.

(** C3.  [is_session_valid] is false exactly when the user has no session or
    [now - createdAt >= 300]; a session created at [t0] is valid exactly at
    the instants before [t0 + 300]; and the button-callback handler, the only
    reader of the session store, tests validity before it reads: without a
    valid session it leaves the store as it is, fetches nothing and clears
    nothing. *)
Theorem C3_session_validity :
  (forall user_id now w,
     Main.is_session_valid user_id now w = false <->
     (Main.user_sessions w !! user_id = None \/
      exists s, Main.user_sessions w !! user_id = Some s /\
                (300 <= now - Main.s_timestamp s)%Q)) /\
  (forall user_id url url_type t0 now w,
     (Main.is_session_valid user_id now
        (Main.create_session user_id url url_type t0 w) = true
      <-> (now < t0 + 300)%Q) /\
     (Main.is_session_valid user_id now
        (Main.create_session user_id url url_type t0 w) = false
      <-> (t0 + 300 <= now)%Q)) /\
  (forall E now user_id data w,
     Main.is_session_valid user_id now w = false ->
     let r := Main.handle_button_callback E now user_id data w in
     state_of r = w /\
     count is_fetch (events_of r) = 0%nat /\
     (forall v, count (is_clear v) (events_of r) = 0%nat) /\
     count is_any_remove (events_of r) = 0%nat).
Proof.
  split; [|split].
  - intros user_id now w. unfold Main.is_session_valid.
    destruct (Main.user_sessions w !! user_id) as [s|] eqn:Hs.
    + split.
      * intros H. right. exists s. split; [reflexivity|].
        apply Qnot_lt_le. intros Hlt.
        apply (proj2 (Qltb_lt _ _)) in Hlt.
        unfold Main.session_timeout in H. congruence.
      * intros [Hn | (s' & Hs' & Hle)]; [discriminate|].
        inversion Hs'; subst s'.
        destruct (Main.Qltb (now - Main.s_timestamp s) Main.session_timeout) eqn:E;
          [|reflexivity].
        apply Qltb_lt in E. exfalso. exact (Qlt_not_le _ _ E Hle).
    + split; [intros _; now left | reflexivity].
  - intros user_id url url_type t0 now w.
    unfold Main.is_session_valid, Main.create_session.
    cbn [Main.user_sessions]. rewrite lookup_insert_eq.
    cbn [Main.s_timestamp]. unfold Main.session_timeout. split.
    + rewrite Qltb_lt. split; intros H; lra.
    + rewrite <- not_true_iff_false, Qltb_lt. split; intros H.
      * apply Qnot_lt_le in H. lra.
      * apply Qle_not_lt. lra.
  - intros E now user_id data w H r. subst r.
    rewrite (callback_expired E now user_id data w H). mrun.
    destruct (fails E (EAnswer None));
      [|destruct (fails E (EEdit MSessionExpired []))];
      cbn; repeat split; reflexivity.
Qed.

(** A callback 301 seconds after the session was created. *)
Lemma C3_session_validity_witness :
  let r := Main.handle_button_callback quiet 301%Q 7 (u "video_7")
             (session_world 7 0%Q) in
  state_of r = session_world 7 0%Q /\
  count is_fetch (events_of r) = 0%nat /\
  (forall v, count (is_clear v) (events_of r) = 0%nat) /\
  count is_any_remove (events_of r) = 0%nat.
Proof.
  apply (proj2 (proj2 C3_session_validity) quiet 301%Q 7 (u "video_7")
               (session_world 7 0%Q)).
  vm_compute. reflexivity.
Defined.

(** C10.  In [handle_button_callback] the acting user's own session is tested
    before the callback data is parsed: when the acting user has no valid
    session the handler answers the callback, shows the session-expired
    message and returns.  The store is left as it is, and what the handler
    does depends neither on the callback data (the owner id is not compared)
    nor on the session of any other user (none is read or cleared), live or
    not. *)
Theorem C10_validity_checked_before_owner E now user_id data w :
  Main.is_session_valid user_id now w = false ->
  let r := Main.handle_button_callback E now user_id data w in
  state_of r = w /\
  events_of r = EAnswer None ::
                match fails E (EAnswer None) with
                | Some _ => []
                | None => [EEdit MSessionExpired []]
                end /\
  (forall v, count (is_clear v) (events_of r) = 0%nat) /\
  (forall data' w',
     Main.user_sessions w' !! user_id = Main.user_sessions w !! user_id ->
     let r' := Main.handle_button_callback E now user_id data' w' in
     state_of r' = w' /\
     events_of r' = events_of r /\ result_of r' = result_of r).
Proof.
  intros H r. subst r.
  assert (Hrun : forall d x,
             Main.is_session_valid user_id now x = false ->
             Main.handle_button_callback E now user_id d x
             = (x, EAnswer None ::
                   match fails E (EAnswer None) with
                   | Some _ => []
                   | None => [EEdit MSessionExpired []]
                   end,
                match fails E (EAnswer None) with
                | Some e => Raise e
                | None => match fails E (EEdit MSessionExpired []) with
                          | Some e => Raise e
                          | None => Val tt
                          end
                end)).
  { intros d x Hx. rewrite (callback_expired E now user_id d x Hx). mrun.
    destruct (fails E (EAnswer None)); [reflexivity|].
    destruct (fails E (EEdit MSessionExpired [])); reflexivity. }
  rewrite (Hrun data w H). unfold state_of, events_of, result_of. cbn [fst snd].
  split; [reflexivity|]. split; [reflexivity|]. split.
  - intros v. destruct (fails E (EAnswer None)); reflexivity.
  - intros data' w' Hsame.
    assert (H' : Main.is_session_valid user_id now w' = false)
      by (unfold Main.is_session_valid in *; now rewrite Hsame).
    rewrite (Hrun data' w' H'). cbn [fst snd]. repeat split.
Qed.

(** User 7 has no session and presses a button of user 9, whose session is
    live. *)
Lemma C10_validity_checked_before_owner_witness :
  let w := session_world 9 0%Q in
  let r := Main.handle_button_callback quiet 10%Q 7 (u "video_9") w in
  Main.is_session_valid 9 10%Q w = true /\
  state_of r = w /\
  events_of r = [EAnswer None; EEdit MSessionExpired []].
Proof.
  intros w r. split; [vm_compute; reflexivity|].
  assert (H : Main.is_session_valid 7 10%Q w = false) by (vm_compute; reflexivity).
  pose proof (C10_validity_checked_before_owner quiet 10%Q 7 (u "video_9") w H)
    as (Hs & He & _).
  split; [exact Hs | exact He].
Defined.

(** C7.  A button callback whose embedded owner id differs from the acting
    user's id changes nothing: the store (of sessions and of files) is the
    same after the handler as before, nothing is fetched, cleared or deleted,
    and the handler only answers the callback and then either shows the
    session-expired message (the acting user has no valid session) or the
    alert that the button belongs to somebody else; it returns normally
    unless the transport itself raises. *)
Theorem C7_owner_mismatch_no_effect E now user_id data action owner w :
  Main.parse_callback data = Some (action, owner) ->
  owner <> user_id ->
  let r := Main.handle_button_callback E now user_id data w in
  state_of r = w /\
  (events_of r = [EAnswer None] \/
   events_of r = [EAnswer None; EEdit MSessionExpired []] \/
   events_of r = [EAnswer None; EAnswer (Some MNotForYou)]) /\
  (Main.is_session_valid user_id now w = true ->
   fails E (EAnswer None) = None ->
   events_of r = [EAnswer None; EAnswer (Some MNotForYou)]) /\
  ((forall e, fails E e = None) -> result_of r = Val tt).
Proof.
  intros Hp Hne r. subst r. unfold Main.handle_button_callback. mrun.
  destruct (fails E (EAnswer None)) eqn:Ha.
  - repeat split; auto; try discriminate.
    intros Hq. rewrite Hq in Ha. discriminate.
  - destruct (Main.is_session_valid user_id now w) eqn:Hv; cbn [negb].
    + rewrite Hp.
      replace (user_id =? owner) with false
        by (symmetry; apply Z.eqb_neq; congruence).
      cbn [negb].
      destruct (fails E (EAnswer (Some MNotForYou))) eqn:Hb;
        repeat split; auto.
      intros Hq. rewrite Hq in Hb. discriminate.
    + destruct (fails E (EEdit MSessionExpired [])) eqn:Hb;
        repeat split; auto; try discriminate.
      intros Hq. rewrite Hq in Hb. discriminate.
Qed.

(** User 7, whose own session is live, presses a button of user 9. *)
Lemma C7_owner_mismatch_no_effect_witness :
  let w := session_world 7 0%Q in
  let r := Main.handle_button_callback quiet 10%Q 7 (u "video_9") w in
  state_of r = w /\
  events_of r = [EAnswer None; EAnswer (Some MNotForYou)] /\
  result_of r = Val tt.
Proof.
  intros w r.
  assert (Hp : Main.parse_callback (u "video_9") = Some (u "video", 9))
    by (vm_compute; reflexivity).
  assert (Hne : 9 <> 7) by lia.
  pose proof (C7_owner_mismatch_no_effect quiet 10%Q 7 (u "video_9")
                (u "video") 9 w Hp Hne) as (Hs & _ & He & Hr).
  split; [exact Hs|]. split.
  - apply He; [vm_compute; reflexivity | reflexivity].
  - apply Hr. intros e. reflexivity.
Defined.

(** ** Cleanup after fetching and delivering *)

(** [download_with_ytdlp] of [main.py] catches every exception, and neither
    clears a session nor removes a file. *)
Lemma main_download_quiet E url audio_only w :
  exists w1 ev1 x,
    Main.download_with_ytdlp E url audio_only w = (w1, ev1, Val x) /\
    Main.user_sessions w1 = Main.user_sessions w /\
    cleanups ev1 = [].
Proof.
  unfold Main.download_with_ytdlp. mrun.
  destruct (fails E (EExtractInfo url)) as [e|].
  - destruct (e_class e); try (destruct (_ || _)); cbn;
      eexists _, _, _; repeat split; reflexivity.
  - destruct (availability_private (info_of E url)).
    + eexists _, _, _; repeat split; reflexivity.
    + destruct (fails E (EDownload url audio_only)) as [e|].
      * destruct (e_class e); try (destruct (_ || _)); cbn;
          eexists _, _, _; repeat split; reflexivity.
      * destruct (files_of E url audio_only); cbn;
          eexists _, _, _; repeat split; reflexivity.
Qed.

Lemma cleanups_app a b : cleanups (a ++ b) = cleanups a ++ cleanups b.
Proof. apply List.filter_app. Qed.

Lemma count_cleanups f evs :
  (forall e, f e = true -> is_cleanup e = true) ->
  count f evs = count f (cleanups evs).
Proof.
  intros Hf. unfold count, cleanups.
  induction evs as [|e evs IH]; [reflexivity|]. cbn [List.filter].
  destruct (f e) eqn:Hfe.
  - rewrite (Hf e Hfe). cbn [List.filter]. rewrite Hfe. cbn [length].
    now rewrite IH.
  - destruct (is_cleanup e); [cbn [List.filter]; rewrite Hfe|]; exact IH.
Qed.

Lemma is_clear_cleanup v e : is_clear v e = true -> is_cleanup e = true.
Proof. now destruct e. Qed.
Lemma is_del_cleanup k e : is_del k e = true -> is_cleanup e = true.
Proof. now destruct e. Qed.
Lemma is_remove_cleanup p e : is_remove p e = true -> is_cleanup e = true.
Proof. now destruct e. Qed.
Lemma is_any_remove_cleanup e : is_any_remove e = true -> is_cleanup e = true.
Proof. now destruct e. Qed.

Section Silent.
Context {S : Type}.

Lemma silent_ret {A} (a : A) : silent (mret a : M S A).
Proof. intros s. split; reflexivity. Qed.

Lemma silent_raise {A} e : silent (raise e : M S A).
Proof. intros s. split; reflexivity. Qed.

Lemma silent_call E e : is_cleanup e = false -> silent (call E e : M S unit).
Proof.
  intros H s. split; [reflexivity|].
  unfold call, events_of, cleanups. cbn. now rewrite H.
Qed.

Lemma silent_bind {A B} (m : M S A) (f : A -> M S B) :
  silent m -> (forall a, silent (f a)) -> silent (m ≫= f).
Proof.
  intros Hm Hf s. specialize (Hm s). revert Hm.
  unfold mbind, M_bind, bind, state_of, events_of.
  destruct (m s) as [[s1 ev1] [a|e]]; cbn [fst snd]; intros [-> Hev].
  - specialize (Hf a s). revert Hf. unfold state_of, events_of.
    destruct (f a s) as [[s2 ev2] r]; cbn [fst snd]. intros [-> Hev2].
    split; [reflexivity|]. now rewrite cleanups_app, Hev, Hev2.
  - split; [reflexivity | exact Hev].
Qed.

Lemma silent_get : silent (get : M S S).
Proof. intros s. split; reflexivity. Qed.

Lemma silent_try_except {A} (m : M S A) h :
  silent m -> (forall e, silent (h e)) -> silent (try_except m h).
Proof.
  intros Hm Hh s. specialize (Hm s). revert Hm.
  unfold try_except, state_of, events_of.
  destruct (m s) as [[s1 ev1] [a|e]]; cbn [fst snd]; intros [-> Hev].
  - split; [reflexivity | exact Hev].
  - specialize (Hh e s). revert Hh. unfold state_of, events_of.
    destruct (h e s) as [[s2 ev2] r]; cbn [fst snd]. intros [-> Hev2].
    split; [reflexivity|]. now rewrite cleanups_app, Hev, Hev2.
Qed.

(** A silent body leaves all the cleaning to the [finally] clause. *)
Lemma try_finally_silent {A} (m : M S A) final s :
  silent m ->
  state_of (try_finally m final s) = state_of (final s) /\
  cleanups (events_of (try_finally m final s))
  = cleanups (events_of (final s)).
Proof.
  intros Hm. specialize (Hm s). revert Hm.
  unfold try_finally, state_of, events_of.
  destruct (m s) as [[s1 ev1] r]; cbn [fst snd]; intros [-> Hev].
  destruct (final s) as [[s2 ev2] [x|e]]; cbn [fst snd];
    rewrite cleanups_app, Hev; split; reflexivity.
Qed.

(** A silent handler adds nothing to what the body did. *)
Lemma try_except_silent {A} (m : M S A) h s :
  (forall e, silent (h e)) ->
  state_of (try_except m h s) = state_of (m s) /\
  cleanups (events_of (try_except m h s)) = cleanups (events_of (m s)).
Proof.
  intros Hh. unfold try_except, state_of, events_of.
  destruct (m s) as [[s1 ev1] [a|e]]; cbn [fst snd].
  - split; reflexivity.
  - specialize (Hh e s1). revert Hh. unfold state_of, events_of.
    destruct (h e s1) as [[s2 ev2] r]; cbn [fst snd]. intros [-> Hev2].
    rewrite cleanups_app, Hev2, app_nil_r. split; reflexivity.
Qed.

End Silent.

Lemma truthy_cons x p : truthy x = Some p -> exists c s, p = c :: s.
Proof.
  destruct x as [[|c s]|]; cbn; intros H; inversion H; subst. now exists c, s.
Qed.

(** The cleanup clause of [handle_button_callback]. *)
Lemma main_final E user_id (filepath : option (list N)) w :
  let r := (Main.clear_session user_id;;
            match truthy filepath with
            | Some p => Main.safe_delete_file E p
            | None => ret tt
            end) w in
  cleanups (events_of r)
  = EClearSession user_id ::
    match truthy filepath with
    | Some p => if Main.exists_file w p then [ERemove p] else []
    | None => []
    end /\
  Main.user_sessions (state_of r) = delete user_id (Main.user_sessions w) /\
  (forall p, truthy filepath = Some p -> Main.exists_file w p = true ->
             fails E (ERemove p) = None -> p ∉ Main.files (state_of r)).
Proof.
  unfold Main.clear_session, Main.safe_delete_file.
  destruct (truthy filepath) as [p|] eqn:Ht.
  - destruct (truthy_cons _ _ Ht) as (c & s & ->).
    unfold Main.exists_file. mrun. cbn [Main.files Main.user_sessions].
    destruct (bool_decide (c :: s ∈ Main.files w)) eqn:Hex.
    + destruct (fails E (ERemove (c :: s))) eqn:Hf; cbn.
      * repeat split. intros p Hp _ Hn. inversion Hp; subst. congruence.
      * repeat split. intros p Hp _ _. inversion Hp; subst.
        rewrite elem_of_difference. intros [_ Hn]. apply Hn.
        now apply elem_of_singleton.
    + cbn. repeat split. intros p Hp Hx. inversion Hp; subst.
      cbn [Main.files] in Hx. congruence.
  - mrun. cbn. repeat split. intros p Hp. discriminate.
Qed.

Lemma main_cleanup E user_id url audio_only w :
  let r := Main.fetch_and_deliver E user_id url audio_only w in
  cleanups (events_of r)
  = EClearSession user_id ::
    match Main.fetched E url audio_only w with
    | Some p => [ERemove p]
    | None => []
    end /\
  Main.user_sessions (state_of r) !! user_id = None /\
  (forall p, Main.fetched E url audio_only w = Some p ->
             fails E (ERemove p) = None -> p ∉ Main.files (state_of r)).
Proof.
  intros r. subst r. unfold Main.fetched, Main.fetch_and_deliver, try_assign.
  destruct (main_download_quiet E url audio_only w)
    as (w1 & ev1 & [[filepath status_msg] caption] & Hd & Hs & Hev1).
  rewrite Hd.
  match goal with
  | |- context [try_finally ?b ?f w1] =>
      assert (Hsil : silent b);
      [|destruct (try_finally_silent b f w1 Hsil) as [Hst Hcl];
        destruct (try_finally b f w1) as [[s2 ev2] r2]]
  end.
  { apply silent_try_except;
      [|intros e; apply silent_call; reflexivity].
    apply silent_bind; [apply silent_get|]. intros w'.
    destruct (truthy filepath);
      [destruct (Main.exists_file w' l)|];
      repeat first [ apply silent_call; reflexivity
                   | apply silent_bind; [|intros ?]
                   | match goal with
                     | |- silent (if ?b then _ else _) => destruct b
                     end ]. }
  cbv beta iota in Hst, Hcl.
  unfold state_of, events_of in *. cbn [fst snd] in *.
  destruct (main_final E user_id filepath w1) as (Hf1 & Hf2 & Hf3).
  cbn zeta in Hf1, Hf2, Hf3. unfold state_of, events_of in Hf1, Hf2, Hf3.
  rewrite cleanups_app, Hcl, Hf1.
  rewrite Hev1. cbn [app]. split; [|split].
  - destruct (truthy filepath) as [p|]; [|reflexivity].
    destruct (Main.exists_file w1 p); reflexivity.
  - rewrite Hst, Hf2. apply lookup_delete_eq.
  - intros p Hp Hn. rewrite Hst.
    destruct (truthy filepath) as [q|] eqn:Ht; [|discriminate].
    destruct (Main.exists_file w1 q) eqn:Hex; [|discriminate].
    inversion Hp; subst q. exact (Hf3 p eq_refl Hex Hn).
Qed.

Lemma try_finally_run {S A} (m : M S A) final s :
  state_of (try_finally m final s) = state_of (final (state_of (m s))) /\
  events_of (try_finally m final s)
  = events_of (m s) ++ events_of (final (state_of (m s))).
Proof.
  unfold try_finally, state_of, events_of.
  destruct (m s) as [[s1 ev1] r]; cbn [fst snd].
  destruct (final s1) as [[s2 ev2] [x|e]]; split; reflexivity.
Qed.

Lemma get_bind {S A} (f : S -> M S A) s : (get ≫= f) s = f s s.
Proof.
  unfold mbind, M_bind, bind, get. destruct (f s s) as [[s2 ev2] r].
  reflexivity.
Qed.

Lemma ib_download_quiet E url audio_only w :
  exists w1 ev1 x,
    IB.download_with_ytdlp E url audio_only w = (w1, ev1, Val x) /\
    IB.user_data w1 = IB.user_data w /\
    cleanups ev1 = [].
Proof.
  unfold IB.download_with_ytdlp. mrun.
  destruct (fails E (EDownload url audio_only)) as [e|]; cbn;
    eexists _, _, _; repeat split; reflexivity.
Qed.

Lemma ib_safe_delete E p w :
  IB.exists_file w p = true ->
  let r := IB.safe_delete_file E p w in
  cleanups (events_of r) = [ERemove p] /\
  IB.user_data (state_of r) = IB.user_data w /\
  (fails E (ERemove p) = None -> p ∉ IB.files (state_of r)).
Proof.
  intros Hex. unfold IB.safe_delete_file. mrun. rewrite Hex.
  destruct (fails E (ERemove p)) eqn:Hf; cbn.
  - repeat split. discriminate.
  - repeat split. intros _. rewrite elem_of_difference. intros [_ Hn].
    apply Hn. now apply elem_of_singleton.
Qed.

(** What follows the download inside the [try] of [handle_format_callback]. *)
Lemma ib_deliver E url (audio_only : bool) (result : option IB.download) w :
  let r :=
    (w ← (get : M IB.world IB.world);
     match result with
     | Some d =>
         match truthy (IB.d_file_path d) with
         | Some p =>
             if IB.exists_file w p then
               try_finally
                 (c ← IB.build_caption d url;
                  @call IB.world E (EOpen p);;
                  (if audio_only then @call IB.world E (EReplyAudio p c)
                   else @call IB.world E (EReplyVideo p c));;
                  @call IB.world E EDeleteMessage)
                 (IB.safe_delete_file E p)
             else @call IB.world E (EEdit MDownloadFailedUrl [])
         | None => @call IB.world E (EEdit MDownloadFailedUrl [])
         end
     | None => @call IB.world E (EEdit MDownloadFailedUrl [])
     end) w in
  let produced :=
    match result with
    | Some d =>
        match truthy (IB.d_file_path d) with
        | Some p => if IB.exists_file w p then Some p else None
        | None => None
        end
    | None => None
    end in
  cleanups (events_of r)
  = match produced with Some p => [ERemove p] | None => [] end /\
  IB.user_data (state_of r) = IB.user_data w /\
  (forall p, produced = Some p -> fails E (ERemove p) = None ->
             p ∉ IB.files (state_of r)).
Proof.
  assert (Hfail : forall s : IB.world,
             let r := call E (EEdit MDownloadFailedUrl []) s in
             cleanups (events_of r) = [] /\
             IB.user_data (state_of r) = IB.user_data s).
  { intros s. split; reflexivity. }
  cbn zeta. rewrite get_bind.
  destruct result as [d|]; [destruct (truthy (IB.d_file_path d)) as [p|]|];
    [destruct (IB.exists_file w p) eqn:Hex|..].
  2-4: destruct (Hfail w) as [H1 H2];
       destruct (call E (EEdit MDownloadFailedUrl []) w) as [[s2 ev2] r2];
       unfold state_of, events_of in *; cbn [fst snd app] in *;
       repeat split; try assumption; discriminate.
  match goal with
  | |- context [try_finally ?b ?f w] =>
      assert (Hsil : silent b);
      [|destruct (try_finally_silent b f w Hsil) as [Hst Hcl];
        destruct (try_finally b f w) as [[s2 ev2] r2]]
  end.
  { apply silent_bind.
    - unfold IB.build_caption.
      destruct (IB.d_duration d) as [[| |]|q]; try apply silent_ret.
      destruct (Qeq_bool q 0); [apply silent_ret | apply silent_raise].
    - intros c.
      repeat first [ apply silent_call; reflexivity
                   | apply silent_bind; [|intros ?]
                   | match goal with
                     | |- silent (if ?b then _ else _) => destruct b
                     end ]. }
  destruct (ib_safe_delete E p w Hex) as (Hd1 & Hd2 & Hd3).
  unfold state_of, events_of in *. cbn [fst snd app] in *.
  rewrite Hcl, Hst. repeat split; try assumption.
  intros q Hq. inversion Hq; subst q. exact Hd3.
Qed.

Lemma bind_val {S A B} (m : M S A) (f : A -> M S B) s s1 ev1 a :
  m s = (s1, ev1, Val a) ->
  state_of ((m ≫= f) s) = state_of (f a s1) /\
  events_of ((m ≫= f) s) = ev1 ++ events_of (f a s1).
Proof.
  intros H. unfold mbind, M_bind, bind, state_of, events_of. rewrite H.
  destruct (f a s1) as [[s2 ev2] r]. split; reflexivity.
Qed.

(** The cleanup clause of [handle_format_callback]. *)
Lemma ib_final user_id key w :
  is_Some (IB.data_of w user_id !! key) ->
  let r := (w ← (get : M IB.world IB.world);
            match IB.data_of w user_id !! key with
            | Some _ =>
                emit (EDelUserData key);;
                modify (IB.set_data user_id (fun d => delete key d))
            | None => ret tt
            end) w in
  cleanups (events_of r) = [EDelUserData key] /\
  IB.data_of (state_of r) user_id !! key = None /\
  IB.files (state_of r) = IB.files w.
Proof.
  intros [url Hk]. cbn zeta. rewrite get_bind, Hk. mrun. cbn.
  repeat split. unfold IB.data_of at 1, IB.set_data. cbn [IB.user_data].
  rewrite lookup_insert_eq. cbn. apply lookup_delete_eq.
Qed.

Lemma ib_cleanup E user_id key url audio_only w :
  is_Some (IB.data_of w user_id !! key) ->
  let r := IB.fetch_and_deliver E user_id key url audio_only w in
  cleanups (events_of r)
  = match IB.fetched E url audio_only w with
    | Some p => [ERemove p]
    | None => []
    end ++ [EDelUserData key] /\
  IB.data_of (state_of r) user_id !! key = None /\
  (forall p, IB.fetched E url audio_only w = Some p ->
             fails E (ERemove p) = None -> p ∉ IB.files (state_of r)).
Proof.
  intros Hkey r. subst r. unfold IB.fetched, IB.fetch_and_deliver.
  destruct (ib_download_quiet E url audio_only w)
    as (w1 & ev1 & result & Hd & Hud & Hev1).
  rewrite Hd.
  match goal with
  | |- context [try_finally (try_except (?m ≫= ?g) ?h) ?f w] =>
      destruct (try_finally_run (try_except (m ≫= g) h) f w) as [Hst Hev];
      destruct (try_except_silent (m ≫= g) h w) as [Hst2 Hcl2];
      [intros e; apply silent_call; reflexivity|];
      destruct (bind_val m g w w1 ev1 result Hd) as [Hst3 Hev3]
  end.
  cbv beta in Hst3, Hev3.
  destruct (ib_deliver E url audio_only result w1) as (Hc4 & Hud4 & Hrm4).
  cbn zeta in Hc4, Hud4, Hrm4.
  rewrite Hst, Hev, Hst2, Hst3. rewrite cleanups_app, Hcl2, Hev3.
  rewrite cleanups_app, Hev1, Hc4. cbn [app].
  match type of Hud4 with
  | IB.user_data ?s = _ =>
      assert (Hkey' : is_Some (IB.data_of s user_id !! key))
        by (unfold IB.data_of; rewrite Hud4, Hud; exact Hkey);
      destruct (ib_final user_id key s Hkey') as (Hf1 & Hf2 & Hf3)
  end.
  cbn zeta in Hf1, Hf2, Hf3. rewrite Hf1. split; [|split].
  - destruct result as [d|]; [|reflexivity].
    destruct (truthy (IB.d_file_path d)) as [p|]; [|reflexivity].
    destruct (IB.exists_file w1 p); reflexivity.
  - exact Hf2.
  - intros p Hp Hn. rewrite Hf3. apply Hrm4; [|exact Hn].
    destruct result as [d|]; [|discriminate]. exact Hp.
Qed.

(** The download branch of [handle_button_callback] is its final [try]
    statement. *)
Lemma callback_reaches_fetch E now user_id data action session w :
  Main.is_session_valid user_id now w = true ->
  Main.parse_callback data = Some (action, user_id) ->
  Main.user_sessions w !! user_id = Some session ->
  action <> u "cancel" ->
  Main.handle_button_callback E now user_id data w
  = (call E (EAnswer None);;
     call E (EEdit (MDownloading (bool_decide (action = u "audio"))) []);;
     Main.fetch_and_deliver E user_id (Main.s_url session)
                            (bool_decide (action = u "audio"))) w.
Proof.
  intros Hv Hp Hs Hc. unfold Main.handle_button_callback.
  unfold mbind, M_bind, bind, get, call.
  destruct (fails E (EAnswer None)); [reflexivity|].
  rewrite Hv, Hp, Z.eqb_refl, Hs. cbn [negb].
  rewrite (bool_decide_eq_false_2 _ Hc).
  destruct (fails E (EEdit _ [])); [reflexivity|].
  destruct (Main.fetch_and_deliver _ _ _ _ w) as [[s2 ev2] r]. reflexivity.
Qed.

(** X25.  The [try] statement that fetches and delivers in the callback
    handlers ([handle_button_callback] of [main.py], [handle_format_callback]
    of [instagram_bot.py]), under every behaviour of the fetcher, of the
    transport and of the file system: the session of the request (the entry
    of [user_sessions], the key of [context.user_data]) is cleared exactly
    once and is absent afterwards; when the fetcher handed over a file (the
    path it returned exists on disk), [os.remove] is called on it exactly
    once, on no other path, and the file is gone unless [os.remove] itself
    raised; when no file was handed over nothing is removed. *)
Theorem handed_file_removed_once :
  (forall E user_id url audio_only w,
     let r := Main.fetch_and_deliver E user_id url audio_only w in
     count (is_clear user_id) (events_of r) = 1%nat /\
     Main.user_sessions (state_of r) !! user_id = None /\
     match Main.fetched E url audio_only w with
     | Some p =>
         count (is_remove p) (events_of r) = 1%nat /\
         count is_any_remove (events_of r) = 1%nat /\
         (fails E (ERemove p) = None -> p ∉ Main.files (state_of r))
     | None => count is_any_remove (events_of r) = 0%nat
     end) /\
  (forall E user_id key url audio_only w,
     is_Some (IB.data_of w user_id !! key) ->
     let r := IB.fetch_and_deliver E user_id key url audio_only w in
     count (is_del key) (events_of r) = 1%nat /\
     IB.data_of (state_of r) user_id !! key = None /\
     match IB.fetched E url audio_only w with
     | Some p =>
         count (is_remove p) (events_of r) = 1%nat /\
         count is_any_remove (events_of r) = 1%nat /\
         (fails E (ERemove p) = None -> p ∉ IB.files (state_of r))
     | None => count is_any_remove (events_of r) = 0%nat
     end).
Proof.
  split.
  - intros E user_id url audio_only w r.
    destruct (main_cleanup E user_id url audio_only w) as (Hc & Hs & Hf).
    fold r in Hc, Hs, Hf.
    rewrite (count_cleanups _ _ (is_clear_cleanup user_id)).
    rewrite (count_cleanups _ _ is_any_remove_cleanup).
    rewrite Hc. split; [|split; [exact Hs|]].
    + destruct (Main.fetched E url audio_only w); unfold count; cbn;
        now rewrite Z.eqb_refl.
    + destruct (Main.fetched E url audio_only w) as [p|]; [|reflexivity].
      rewrite (count_cleanups _ _ (is_remove_cleanup p)), Hc.
      split; [|split; [reflexivity | exact (Hf p eq_refl)]].
      unfold count. cbn. now rewrite bool_decide_eq_true_2.
  - intros E user_id key url audio_only w Hkey r.
    destruct (ib_cleanup E user_id key url audio_only w Hkey) as (Hc & Hs & Hf).
    fold r in Hc, Hs, Hf.
    rewrite (count_cleanups _ _ (is_del_cleanup key)).
    rewrite (count_cleanups _ _ is_any_remove_cleanup).
    rewrite Hc. split; [|split; [exact Hs|]].
    + destruct (IB.fetched E url audio_only w); unfold count; cbn;
        now rewrite bool_decide_eq_true_2.
    + destruct (IB.fetched E url audio_only w) as [p|]; [|reflexivity].
      rewrite (count_cleanups _ _ (is_remove_cleanup p)), Hc.
      split; [|split; [reflexivity | exact (Hf p eq_refl)]].
      unfold count. cbn. now rewrite bool_decide_eq_true_2.
Qed.

(** The video was fetched but could not be sent. *)
Lemma handed_file_removed_once_witness :
  let url := u "https://instagram.com/reel/abc" in
  let p := u "/tmp/instagram_20240101_120000.mp4" in
  let r := IB.fetch_and_deliver failing_delivery 7 (u "url_abc") url false
             pending_world in
  IB.fetched failing_delivery url false pending_world = Some p /\
  count (is_del (u "url_abc")) (events_of r) = 1%nat /\
  IB.data_of (state_of r) 7 !! u "url_abc" = None /\
  count (is_remove p) (events_of r) = 1%nat /\
  p ∉ IB.files (state_of r).
Proof.
  intros url p r.
  assert (Hk : is_Some (IB.data_of pending_world 7 !! u "url_abc"))
    by (eexists; vm_compute; reflexivity).
  assert (Hf : IB.fetched failing_delivery url false pending_world = Some p)
    by (vm_compute; reflexivity).
  pose proof (proj2 handed_file_removed_once failing_delivery 7 (u "url_abc")
                url false pending_world Hk) as H.
  cbn zeta in H. rewrite Hf in H. destruct H as (H1 & H2 & H3 & _ & H4).
  repeat split; try assumption. apply H4. reflexivity.
Defined.

(** ** Case folding in the classifier of [main.py] *)

Lemma lower_idem c : lower (lower c) = lower c.
Proof.
  unfold lower.
  destruct ((65 <=? c)%N && (c <=? 90)%N) eqn:E; [|now rewrite E].
  apply andb_true_iff in E. destruct E as [E1 E2].
  apply N.leb_le in E1, E2.
  replace ((65 <=? c + 32)%N && (c + 32 <=? 90)%N) with false; [reflexivity|].
  symmetry. apply andb_false_iff. right. apply N.leb_gt. lia.
Qed.

Lemma lower_newline c : (lower c =? 10)%N = (c =? 10)%N.
Proof.
  unfold lower.
  destruct ((65 <=? c)%N && (c <=? 90)%N) eqn:E; [|reflexivity].
  apply andb_true_iff in E. destruct E as [E1 E2].
  apply N.leb_le in E1, E2.
  transitivity false; [apply N.eqb_neq | symmetry; apply N.eqb_neq]; lia.
Qed.

Lemma chr_eq_lower c x : chr_eq true c (lower x) = chr_eq true c x.
Proof. unfold chr_eq. now rewrite lower_idem. Qed.

Lemma cset_ok_lower c x : cset_ok true c (lower x) = cset_ok true c x.
Proof.
  destruct c as [c| |cs]; cbn [cset_ok].
  - apply chr_eq_lower.
  - now rewrite lower_newline.
  - f_equal. induction cs as [|c cs IH]; [reflexivity|]. cbn [existsb].
    now rewrite chr_eq_lower, IH.
Qed.

Lemma star_lower c s :
  star (cset_ok true c) (lower_str s)
  = List.map lower_str (star (cset_ok true c) s).
Proof.
  induction s as [|x s IH]; [reflexivity|].
  cbn [lower_str List.map star]. fold (lower_str s).
  rewrite cset_ok_lower. destruct (cset_ok true c x); [|reflexivity].
  rewrite List.map_app, IH. reflexivity.
Qed.

Lemma plus_lower c s :
  plus (cset_ok true c) (lower_str s)
  = List.map lower_str (plus (cset_ok true c) s).
Proof.
  destruct s as [|x s]; [reflexivity|].
  cbn [lower_str List.map plus]. fold (lower_str s).
  rewrite cset_ok_lower. destruct (cset_ok true c x); [|reflexivity].
  apply star_lower.
Qed.

Lemma consumed_lower s rest :
  consumed (lower_str s) (lower_str rest) = lower_str (consumed s rest).
Proof.
  unfold consumed, lower_str. rewrite !length_map.
  apply List.firstn_map.
Qed.

Lemma at_eos_lower s : at_eos (lower_str s) = at_eos s.
Proof.
  destruct s as [|c [|d s]]; try reflexivity. cbn. apply lower_newline.
Qed.

Lemma flat_map_lower {A B} (f : A -> list B) (f' : A -> list B)
      (L : A -> A) (L' : B -> B) l :
  (forall a, f' (L a) = List.map L' (f a)) ->
  flat_map f' (List.map L l) = List.map L' (flat_map f l).
Proof.
  intros H. induction l as [|a l IH]; [reflexivity|]. cbn.
  now rewrite List.map_app, H, IH.
Qed.

(** Matching does not look at the case of the text. *)
Lemma rmatch_lower r : forall s g,
  rmatch true r (lower_str s) (lower_caps g)
  = List.map lower_state (rmatch true r s g).
Proof.
  induction r as [|c|r1 IH1 r2 IH2|r IH|c|c|n r IH|]; intros s g; cbn [rmatch].
  - reflexivity.
  - destruct s as [|x s]; [reflexivity|]. cbn [lower_str List.map].
    rewrite cset_ok_lower. destruct (cset_ok true c x); reflexivity.
  - rewrite IH1. apply flat_map_lower. intros [s1 g1].
    unfold lower_state. cbn [fst snd]. apply IH2.
  - rewrite List.map_app, IH. reflexivity.
  - rewrite star_lower, !List.map_map. reflexivity.
  - rewrite plus_lower, !List.map_map. reflexivity.
  - rewrite IH, !List.map_map. apply List.map_ext. intros [s1 g1].
    unfold lower_state. cbn [fst snd lower_caps List.map].
    now rewrite consumed_lower.
  - rewrite at_eos_lower. destruct (at_eos s); reflexivity.
Qed.

Lemma match_here_lower r s :
  match_here true r (lower_str s)
  = option_map lower_match (match_here true r s).
Proof.
  unfold match_here.
  change (@nil (nat * list N)) with (lower_caps []) at 1.
  rewrite rmatch_lower.
  destruct (rmatch true r s []) as [|[rest g] l]; [reflexivity|].
  cbn. unfold lower_match. cbn. now rewrite consumed_lower.
Qed.

Lemma search_lower r s :
  search true r (lower_str s) = option_map lower_match (search true r s).
Proof.
  induction s as [|x s IH].
  - cbn [search lower_str List.map].
    change (@nil N) with (lower_str []) at 1. rewrite match_here_lower.
    destruct (match_here true r []); reflexivity.
  - cbn [search lower_str List.map].
    change (lower x :: List.map lower s) with (lower_str (x :: s)).
    rewrite match_here_lower.
    destruct (match_here true r (x :: s)); [reflexivity|]. exact IH.
Qed.

Lemma first_match_lower pats s :
  option_map fst (first_match true pats (lower_str s))
  = option_map fst (first_match true pats s).
Proof.
  induction pats as [|[k p] pats IH]; [reflexivity|]. cbn [first_match].
  rewrite search_lower. destruct (search true p s); [reflexivity|]. exact IH.
Qed.

(** C9.  Two texts that differ only in letter case (anywhere: scheme, host,
    path markers or elsewhere) are classified alike by
    [extract_instagram_info] of [main.py]: both are rejected, or both are
    given the same kind. *)
Theorem C9_case_insensitive t1 t2 :
  lower_str t1 = lower_str t2 ->
  option_map snd (Main.extract_instagram_info t1)
  = option_map snd (Main.extract_instagram_info t2).
Proof.
  intros H.
  assert (Hk : forall t, option_map snd (Main.extract_instagram_info t)
                         = option_map fst (first_match true Main.patterns t)).
  { intros t. unfold Main.extract_instagram_info.
    destruct (first_match true Main.patterns t) as [[k m]|]; reflexivity. }
  rewrite !Hk, <- (first_match_lower _ t1), <- (first_match_lower _ t2), H.
  reflexivity.
Qed.

Lemma C9_case_insensitive_witness :
  option_map snd (Main.extract_instagram_info
                    (u "HTTPS://WWW.INSTAGRAM.COM/REEL/XYZ123/"))
  = option_map snd (Main.extract_instagram_info
                      (u "https://www.instagram.com/reel/XYZ123/")).
Proof.
  apply C9_case_insensitive. vm_compute. reflexivity.
Defined.

(** ** Pattern priority *)




(** C5 fails on [instagram_bot.py], the classifier that returns an
    identifier: its groups are [[^/]+], which runs through a query string or
    a fragment, so appending one changes the identifier.  The patterns of
    [main.py] capture [[^/?#]+] and give the same first group with and
    without it.  A profile link with a query string is thus looked up under
    the user name ["alice?hl=en"]. *)
Theorem C5_identifier_keeps_query :
  IB.i_id (IB.extract_instagram_info (u "https://instagram.com/reel/XYZ123"))
  = Some (u "XYZ123") /\
  IB.i_id (IB.extract_instagram_info
             (u "https://instagram.com/reel/XYZ123?igshid=abc"))
  = Some (u "XYZ123?igshid=abc") /\
  IB.i_id (IB.extract_instagram_info (u "https://instagram.com/reel/XYZ123#top"))
  = Some (u "XYZ123#top") /\
  IB.i_id (IB.extract_instagram_info (u "https://instagram.com/alice?hl=en"))
  = Some (u "alice?hl=en") /\
  option_map (fun km => group 1 (snd km))
    (first_match true Main.patterns
       (u "https://instagram.com/reel/XYZ123?igshid=abc"))
  = Some (Some (u "XYZ123")) /\
  events_of (IB.handle_instagram_url quiet 1 1 7
               (u "https://instagram.com/alice?hl=en")
               (IB.MkWorld (Rate.MkState ∅ 0) true ∅ ∅))
  = [EReply (MProcessingUrl (u "https://instagram.com/alice?hl=en")
                            (Some Profile));
     EProfilePicture (u "alice?hl=en");
     EEdit MProfilePictureFailed []].
Proof. repeat split; vm_compute; reflexivity. Qed.

(** ** Dispatch of text messages in [instagram_bot.py] *)

Lemma handle_denied E now now_c user_id message_text w :
  fst (Rate.is_rate_limited user_id now now_c (IB.rate w)) = true ->
  IB.handle_instagram_url E now now_c user_id message_text w
  = (IB.MkWorld (snd (Rate.is_rate_limited user_id now now_c (IB.rate w)))
                (IB.instagram_client w) (IB.user_data w) (IB.files w),
     [EReply MRateLimited],
     match fails E (EReply MRateLimited) with
     | Some e => Raise e
     | None => Val tt
     end).
Proof.
  intros H. unfold IB.handle_instagram_url. rewrite get_bind.
  destruct (Rate.is_rate_limited user_id now now_c (IB.rate w)) as [limited st].
  cbn [fst snd] in *. subst limited. mrun.
  destruct (fails E (EReply MRateLimited)); reflexivity.
Qed.

(** C6.  When [is_rate_limited] denies the user, [handle_instagram_url]
    sends the rate-limited reply and returns: that reply is its only call
    (nothing is fetched), the files and every user's pending choices are as
    before, only the rate limiter's own state has changed, and the outcome
    does not depend on the text of the message, which is neither searched
    for a URL nor classified. *)
Theorem C6_denial_precedes_all_work E now now_c user_id message_text w :
  fst (Rate.is_rate_limited user_id now now_c (IB.rate w)) = true ->
  let r := IB.handle_instagram_url E now now_c user_id message_text w in
  events_of r = [EReply MRateLimited] /\
  IB.rate (state_of r) = snd (Rate.is_rate_limited user_id now now_c (IB.rate w)) /\
  IB.user_data (state_of r) = IB.user_data w /\
  IB.files (state_of r) = IB.files w /\
  IB.instagram_client (state_of r) = IB.instagram_client w /\
  result_of r = match fails E (EReply MRateLimited) with
                | Some e => Raise e
                | None => Val tt
                end /\
  forall text', IB.handle_instagram_url E now now_c user_id text' w = r.
Proof.
  intros H r. subst r. rewrite (handle_denied E now now_c user_id _ w H).
  unfold state_of, events_of, result_of.
  cbn [fst snd IB.rate IB.user_data IB.files IB.instagram_client].
  repeat split. intros text'. apply handle_denied. exact H.
Qed.

(** The thirty-first message of user 7 within the hour. *)
Lemma C6_denial_precedes_all_work_witness :
  events_of (IB.handle_instagram_url quiet 31 31 7
               (u "https://instagram.com/reel/abc") saturated_world)
  = [EReply MRateLimited].
Proof.
  refine (proj1 (C6_denial_precedes_all_work quiet 31 31 7
                   (u "https://instagram.com/reel/abc") saturated_world _)).
  vm_compute. reflexivity.
Defined.

(** An admitted message with a reel link goes on to the format choice. *)
Example admitted_message :
  events_of (IB.handle_instagram_url quiet 1 1 7
               (u "look https://instagram.com/reel/abc")
               (IB.MkWorld (Rate.MkState ∅ 0) true ∅ ∅))
  = [EReply (MProcessingUrl (u "https://instagram.com/reel/abc") (Some Reel));
     EEdit (MChooseFormat (u "https://instagram.com/reel/abc"))
           [u "video_abc"; u "audio_abc"]].
Proof. vm_compute. reflexivity. Qed.

(** ** Captions of [main.py] *)

Section Emits.
Context {S : Type} (P : event -> Prop).

Lemma emits_ret {A} (a : A) : emits P (ret a : M S A).
Proof. intros s. constructor. Qed.

Lemma emits_get : emits P (get : M S S).
Proof. intros s. constructor. Qed.

Lemma emits_modify f : emits P (modify f : M S unit).
Proof. intros s. constructor. Qed.

Lemma emits_call E e : P e -> emits P (call E e : M S unit).
Proof. intros H s. repeat constructor. exact H. Qed.

Lemma emits_emit e : P e -> emits P (emit e : M S unit).
Proof. intros H s. repeat constructor. exact H. Qed.

Lemma emits_bind {A B} (m : M S A) (f : A -> M S B) :
  emits P m -> (forall a, emits P (f a)) -> emits P (m ≫= f).
Proof.
  intros Hm Hf s. specialize (Hm s). revert Hm.
  unfold mbind, M_bind, bind, events_of.
  destruct (m s) as [[s1 ev1] [a|e]]; cbn [fst snd]; intros Hev; [|exact Hev].
  specialize (Hf a s1). revert Hf. unfold events_of.
  destruct (f a s1) as [[s2 ev2] r]; cbn [fst snd]. intros Hev2.
  apply List.Forall_app. now split.
Qed.

Lemma emits_try_except {A} (m : M S A) h :
  emits P m -> (forall e, emits P (h e)) -> emits P (try_except m h).
Proof.
  intros Hm Hh s. specialize (Hm s). revert Hm.
  unfold try_except, events_of.
  destruct (m s) as [[s1 ev1] [a|e]]; cbn [fst snd]; intros Hev; [exact Hev|].
  specialize (Hh e s1). revert Hh. unfold events_of.
  destruct (h e s1) as [[s2 ev2] r]; cbn [fst snd]. intros Hev2.
  apply List.Forall_app. now split.
Qed.

Lemma emits_try_finally {A} (m : M S A) final :
  emits P m -> emits P final -> emits P (try_finally m final).
Proof.
  intros Hm Hf s. destruct (try_finally_run m final s) as [_ ->].
  apply List.Forall_app. split; [apply Hm | apply Hf].
Qed.

Lemma emits_try_assign {X A} (dflt : X) (first : M S X) (rest : X -> M S A)
      handler final :
  emits P first -> (forall x, emits P (rest x)) ->
  (forall e, emits P (handler e)) -> (forall x, emits P (final x)) ->
  emits P (try_assign dflt first rest handler final).
Proof.
  intros H1 H2 H3 H4 s. specialize (H1 s). revert H1.
  unfold try_assign, events_of.
  destruct (first s) as [[s1 ev1] [x|e]]; cbn [fst snd]; intros Hev.
  - pose proof (emits_try_finally _ _
                  (emits_try_except _ _ (H2 x) H3) (H4 x) s1) as H.
    revert H. unfold events_of.
    destruct (try_finally _ _ s1) as [[s2 ev2] r]; cbn [fst snd]. intros H.
    apply List.Forall_app. now split.
  - pose proof (emits_try_finally _ _ (H3 e) (H4 dflt) s1) as H.
    revert H. unfold events_of.
    destruct (try_finally _ _ s1) as [[s2 ev2] r]; cbn [fst snd]. intros H.
    apply List.Forall_app. now split.
Qed.

End Emits.

(** The callback path cuts every caption to the transport's limit. *)
Lemma callback_caption_fits E user_id url audio_only :
  emits caption_fits (Main.fetch_and_deliver E user_id url audio_only).
Proof.
  unfold Main.fetch_and_deliver, Main.download_with_ytdlp, Main.clear_session,
    Main.safe_delete_file.
  apply emits_try_assign; [|intros [[? ?] ?]|intros ?|intros [[? ?] ?]];
    repeat first
      [ apply emits_ret | apply emits_get | apply emits_modify
      | apply emits_emit; exact I
      | apply emits_call; cbn; first [exact I | apply List.firstn_le_length]
      | apply emits_bind; [|intros ?]
      | apply emits_try_except; [|intros ?]
      | match goal with
        | |- emits _ (if ?b then _ else _) => destruct b
        | |- emits _ (match ?x with _ => _ end) => destruct x
        end ].
Qed.

Lemma join_snoc sep xs (d : list N) :
  Main.join sep (xs ++ [d])
  = match xs with
    | [] => d
    | _ => Main.join sep xs ++ sep ++ d
    end.
Proof.
  induction xs as [|x xs IH]; [reflexivity|].
  destruct xs as [|y xs]; [reflexivity|].
  change (Main.join sep ((x :: y :: xs) ++ [d]))
    with (x ++ sep ++ Main.join sep ((y :: xs) ++ [d])).
  rewrite IH. cbn [Main.join]. now rewrite <- !app_assoc.
Qed.

(** With no uploader, title or description there is no caption. *)
Lemma build_caption_empty i :
  uploader i = [] -> title i = [] -> description i = [] ->
  Main.build_caption i = None.
Proof. intros H1 H2 H3. unfold Main.build_caption. now rewrite H1, H2, H3. Qed.

(** A description (other than the title) closes the caption: whole when it
    has at most 200 characters, else its first 200 characters and ["..."]. *)
Lemma build_caption_description i :
  description i <> [] -> description i <> title i ->
  exists before,
    Main.build_caption i
    = Some (before ++ [128172; 32]%N ++
            if (200 <? length (description i))%nat
            then firstn 200 (description i) ++ u "..."
            else description i).
Proof.
  intros Hne Hnt. unfold Main.build_caption.
  assert (H1 : Main.nonempty (description i) = true)
    by (destruct (description i); [congruence | reflexivity]).
  rewrite H1, (bool_decide_eq_false_2 _ Hnt). cbn [andb negb].
  set (A := if Main.nonempty (uploader i) then _ else _).
  set (B := if Main.nonempty (title i) && _ then _ else _).
  rewrite (app_assoc A B). generalize (A ++ B). clear A B. intros xs.
  set (d := [128172; 32]%N ++ _).
  assert (Hj := join_snoc Main.nl2 xs d).
  destruct (xs ++ [d]) as [|z zs] eqn:E; [now destruct xs|].
  rewrite Hj. destruct xs as [|x xs'].
  - exists []. reflexivity.
  - exists (Main.join Main.nl2 (x :: xs') ++ Main.nl2).
    now rewrite <- app_assoc.
Qed.

(** C8 fails on the profile path of [main.py]: [handle_profile_download]
    hands the caption built from the fetcher's metadata to [reply_photo] as
    it is, so a title of 1100 characters gives a caption of 1151, above the
    limit of 1024; the callback path, given the same metadata, cuts it to
    1024. *)
Theorem C8_profile_caption_not_truncated :
  let url := u "https://instagram.com/alice" in
  let p := u "downloads/media_1700000000.jpg" in
  let w := Main.MkWorld ∅ ∅ in
  (exists c,
     events_of (Main.handle_profile_download long_title url w)
     = [EEdit MDownloadingProfile []; EExtractInfo url; EDownload url false;
        EOpen p; EReplyPhoto p (CapText c); EDeleteMessage; ERemove p] /\
     length c = 1151%nat /\
     ~ caption_fits (EReplyPhoto p (CapText c))) /\
  (exists c,
     events_of (Main.fetch_and_deliver long_title 7 url false w)
     = [EExtractInfo url; EDownload url false; EOpen p;
        EReplyVideo p (CapText c); EDeleteMessage; EClearSession 7; ERemove p] /\
     length c = 1024%nat).
Proof.
  cbn zeta. split.
  - eexists. split; [vm_compute; reflexivity|].
    split; [vm_compute; reflexivity|]. cbn [caption_fits].
    intros H. vm_compute in H. lia.
  - eexists. split; [vm_compute; reflexivity|]. vm_compute. reflexivity.
Qed.

(** * Further properties *)

(** ** The sweep and the records of the rate limiter *)

Lemma recent_within a l : Forall (fun t => a < t) (Rate.recent a l).
Proof.
  unfold Rate.recent. apply List.Forall_forall. intros t Ht.
  apply List.filter_In in Ht. destruct Ht as [_ Ht]. now apply Z.ltb_lt.
Qed.

Lemma recent_nil a l :
  Rate.recent a l = [] <-> Forall (fun t => t <= a) l.
Proof.
  unfold Rate.recent. induction l as [|t l IH]; cbn [List.filter].
  - split; [constructor | reflexivity].
  - destruct (a <? t) eqn:E.
    + apply Z.ltb_lt in E. split; [discriminate|].
      intros H. inversion H; subst. lia.
    + apply Z.ltb_ge in E. rewrite IH. split.
      * intros H. now constructor.
      * intros H. now inversion H.
Qed.

(** X1.  [cleanup_old_requests] keeps, for every user, exactly the instants of the
    last hour, in order; a user is kept exactly when such an instant exists,
    so no empty record stays behind; sweeping twice is sweeping once. *)
Theorem sweep_keeps_recent_only now ur v :
  (forall l, Rate.cleanup_old_requests now ur !! v = Some l ->
             l <> [] /\
             l = Rate.recent (now - Rate.hour) (Rate.record_of ur v) /\
             Forall (fun t => now - Rate.hour < t) l) /\
  (Rate.cleanup_old_requests now ur !! v = None <->
   Forall (fun t => t <= now - Rate.hour) (Rate.record_of ur v)) /\
  Rate.cleanup_old_requests now (Rate.cleanup_old_requests now ur)
  = Rate.cleanup_old_requests now ur.
Proof.
  assert (Hlook : forall m w,
    Rate.cleanup_old_requests now m !! w
    = match Rate.recent (now - Rate.hour) (Rate.record_of m w) with
      | [] => None
      | l => Some l
      end).
  { intros m w. unfold Rate.cleanup_old_requests, Rate.record_of.
    rewrite lookup_omap. destruct (m !! w); reflexivity. }
  split; [|split].
  - intros l. rewrite Hlook.
    pose proof (recent_within (now - Rate.hour) (Rate.record_of ur v)) as Hw.
    destruct (Rate.recent (now - Rate.hour) (Rate.record_of ur v)) as [|t k];
      [discriminate|].
    intros H. inversion H; subst l. repeat split; [discriminate | exact Hw].
  - rewrite Hlook, <- recent_nil.
    destruct (Rate.recent (now - Rate.hour) (Rate.record_of ur v));
      split; congruence.
  - apply map_eq. intros w. rewrite !Hlook, record_of_cleanup, recent_recent.
    now rewrite Z.max_id.
Qed.

Lemma bounded_step user_id now now_c st :
  bounded (Rate.user_requests st) ->
  bounded (Rate.user_requests (snd (Rate.is_rate_limited user_id now now_c st))).
Proof.
  intros Hb v. destruct (Z.eq_dec v user_id) as [->|Hv].
  - destruct (is_rate_limited_eq user_id now now_c st) as [_ Hrec].
    cbn zeta in Hrec. unfold Rate.record_of at 1. rewrite Hrec. cbn [default from_option id].
    pose proof (List.filter_length_le
                  (fun t => Rate.window_start now now_c st <? t)
                  (Rate.record_of (Rate.user_requests st) user_id)) as Hle.
    specialize (Hb user_id). unfold Rate.kept_of, Rate.recent.
    destruct (Rate.MAX_REQUESTS_PER_HOUR <=? _)%nat eqn:E.
    + unfold Rate.recent in E. lia.
    + apply Nat.leb_gt in E. unfold Rate.kept_of, Rate.recent in E.
      rewrite length_app. cbn [length]. lia.
  - rewrite is_rate_limited_other by exact Hv. specialize (Hb v).
    destruct (_ <? _); [|exact Hb].
    pose proof (List.filter_length_le (fun t => now_c - Rate.hour <? t)
                  (Rate.record_of (Rate.user_requests st) v)).
    unfold Rate.recent. lia.
Qed.

(** X2.  Starting with no records, whatever calls are made, by whichever users and
    at whatever instants, no record ever holds more than 30 instants. *)
Theorem records_never_exceed_limit cs t0 v :
  (length (Rate.record_of
             (Rate.user_requests (snd (Rate.run cs (Rate.MkState ∅ t0)))) v)
   <= 30)%nat.
Proof.
  assert (H : forall cs st, bounded (Rate.user_requests st) ->
                            bounded (Rate.user_requests (snd (Rate.run cs st)))).
  { clear. induction cs as [|c cs IH]; intros st Hb; [exact Hb|].
    cbn [Rate.run].
    pose proof (bounded_step (Rate.c_user c) (Rate.c_now c) (Rate.c_now_c c)
                  st Hb) as Hs.
    destruct (Rate.is_rate_limited _ _ _ st) as [r st1]. cbn [snd] in Hs.
    specialize (IH st1 Hs). destruct (Rate.run cs st1) as [rs st2].
    exact IH. }
  apply (H cs (Rate.MkState ∅ t0)). intros w. cbn. unfold Rate.record_of.
  rewrite lookup_empty. cbn. lia.
Qed.

(** X3.  After a call, admitted or denied, every instant in the caller's record is
    less than one hour old, and the record is the old one pruned, with at
    most the current instant added at its end. *)
Theorem caller_record_within_hour user_id now now_c st :
  let l := Rate.record_of
             (Rate.user_requests (snd (Rate.is_rate_limited user_id now now_c st)))
             user_id in
  Forall (fun t => now - Rate.hour < t) l /\
  (forall t, In t l -> t = now \/
                       In t (Rate.record_of (Rate.user_requests st) user_id)).
Proof.
  destruct (is_rate_limited_eq user_id now now_c st) as [_ Hrec].
  cbn zeta in *.
  assert (Hl : Rate.record_of
                 (Rate.user_requests
                    (snd (Rate.is_rate_limited user_id now now_c st))) user_id
               = if (Rate.MAX_REQUESTS_PER_HOUR
                     <=? length (Rate.kept_of user_id now now_c st))%nat
                 then Rate.kept_of user_id now now_c st
                 else Rate.kept_of user_id now now_c st ++ [now])
    by (unfold Rate.record_of; now rewrite Hrec).
  rewrite Hl. clear Hl Hrec.
  pose proof (window_start_ge now now_c st) as Hge.
  assert (Hk : Forall (fun t => now - Rate.hour < t)
                      (Rate.kept_of user_id now now_c st)).
  { eapply List.Forall_impl; [|apply recent_within]. cbn beta. intros t; lia. }
  assert (Hin : forall t, In t (Rate.kept_of user_id now now_c st) ->
                          In t (Rate.record_of (Rate.user_requests st) user_id)).
  { intros t Ht. unfold Rate.kept_of, Rate.recent in Ht.
    apply List.filter_In in Ht. tauto. }
  assert (Hh : 0 < Rate.hour) by (unfold Rate.hour; lia).
  destruct (Rate.MAX_REQUESTS_PER_HOUR <=? _)%nat.
  - split; [exact Hk | intros t Ht; right; auto].
  - split.
    + apply List.Forall_app. split; [exact Hk|]. repeat constructor. lia.
    + intros t Ht. apply List.in_app_or in Ht. destruct Ht as [Ht|[<-|[]]];
        [right; auto | now left].
Qed.

Lemma last_cleanup_after user_id now now_c st :
  Rate.last_cleanup (snd (Rate.is_rate_limited user_id now now_c st))
  = if Rate.five_minutes <? now - Rate.last_cleanup st
    then now else Rate.last_cleanup st.
Proof.
  unfold Rate.is_rate_limited.
  destruct (Rate.five_minutes <? now - Rate.last_cleanup st); cbn zeta;
    destruct (Rate.MAX_REQUESTS_PER_HOUR <=? _)%nat; reflexivity.
Qed.

(** X4.  The sweep runs at most once in five minutes: a call that sweeps sets
    [last_cleanup] to its own clock reading, and a call made no more than
    five minutes later does not sweep, so it leaves [last_cleanup] and the
    record of every user but its caller exactly as they were. *)
Theorem no_second_sweep_within_five_minutes u1 now1 c1 st u2 now2 c2 v :
  Rate.five_minutes < now1 - Rate.last_cleanup st ->
  now2 - now1 <= Rate.five_minutes ->
  v <> u2 ->
  let st1 := snd (Rate.is_rate_limited u1 now1 c1 st) in
  let st2 := snd (Rate.is_rate_limited u2 now2 c2 st1) in
  Rate.last_cleanup st1 = now1 /\
  Rate.last_cleanup st2 = now1 /\
  Rate.record_of (Rate.user_requests st2) v
  = Rate.record_of (Rate.user_requests st1) v.
Proof.
  intros H1 H2 Hv st1 st2.
  assert (E1 : Rate.last_cleanup st1 = now1).
  { unfold st1. rewrite last_cleanup_after.
    now rewrite (proj2 (Z.ltb_lt _ _) H1). }
  assert (E2 : (Rate.five_minutes <? now2 - Rate.last_cleanup st1) = false)
    by (apply Z.ltb_ge; lia).
  split; [exact E1|]. split.
  - unfold st2. rewrite last_cleanup_after, E2. exact E1.
  - unfold st2. rewrite is_rate_limited_other by exact Hv. now rewrite E2.
Qed.

Lemma no_second_sweep_within_five_minutes_witness :
  let st := Rate.MkState {[ 9 := [1] ]} 0 in
  let st1 := snd (Rate.is_rate_limited 7 4000000000 4000000000 st) in
  let st2 := snd (Rate.is_rate_limited 7 4000000001 4000000001 st1) in
  Rate.last_cleanup st1 = 4000000000 /\
  Rate.last_cleanup st2 = 4000000000 /\
  Rate.record_of (Rate.user_requests st2) 9
  = Rate.record_of (Rate.user_requests st1) 9.
Proof.
  apply (no_second_sweep_within_five_minutes 7 4000000000 4000000000
           (Rate.MkState {[ 9 := [1] ]} 0) 7 4000000001 4000000001 9).
  - vm_compute. reflexivity.
  - vm_compute. discriminate.
  - lia.
Defined.

(** ** Messages of [instagram_bot.py] *)

(** X5.  An admitted message uses up a slot before its text is looked at: when it
    holds no Instagram link the handler only says so, and the caller's record
    has still grown by the current instant. *)
Theorem message_without_link_uses_slot E now now_c user_id message_text w :
  fst (Rate.is_rate_limited user_id now now_c (IB.rate w)) = false ->
  IB.first_url message_text = None ->
  let r := IB.handle_instagram_url E now now_c user_id message_text w in
  events_of r = [EReply MNoValidUrl] /\
  Rate.record_of (Rate.user_requests (IB.rate (state_of r))) user_id
  = Rate.kept_of user_id now now_c (IB.rate w) ++ [now] /\
  IB.user_data (state_of r) = IB.user_data w /\
  IB.files (state_of r) = IB.files w.
Proof.
  intros Hadm Hurl r. subst r.
  destruct (is_rate_limited_eq user_id now now_c (IB.rate w)) as [Hr Hrec].
  cbn zeta in Hr, Hrec. rewrite Hadm in Hr. rewrite <- Hr in Hrec.
  unfold IB.handle_instagram_url. rewrite get_bind.
  destruct (Rate.is_rate_limited user_id now now_c (IB.rate w)) as [limited st].
  cbn [fst snd] in *. subst limited. rewrite Hurl. mrun.
  cbn [IB.rate IB.user_data IB.files]. repeat split.
  unfold Rate.record_of. now rewrite Hrec.
Qed.

Lemma message_without_link_uses_slot_witness :
  let w := IB.MkWorld (Rate.MkState ∅ 0) true ∅ ∅ in
  let r := IB.handle_instagram_url quiet 5 5 7 (u "hello instagram.com") w in
  events_of r = [EReply MNoValidUrl] /\
  Rate.record_of (Rate.user_requests (IB.rate (state_of r))) 7
  = Rate.kept_of 7 5 5 (IB.rate w) ++ [5] /\
  IB.user_data (state_of r) = IB.user_data w /\
  IB.files (state_of r) = IB.files w.
Proof.
  apply (message_without_link_uses_slot quiet 5 5 7 (u "hello instagram.com")
           (IB.MkWorld (Rate.MkState ∅ 0) true ∅ ∅)).
  - vm_compute. reflexivity.
  - vm_compute. reflexivity.
Defined.

(** ** The session store of [main.py] *)

Lemma call_bind {S A} E e (f : unit -> M S A) s :
  (call E e ≫= f) s
  = match fails E e with
    | Some x => (s, [e], Raise x)
    | None => (state_of (f tt s), e :: events_of (f tt s), result_of (f tt s))
    end.
Proof.
  unfold mbind, M_bind, bind, call, state_of, events_of, result_of.
  destruct (fails E e); [reflexivity|].
  destruct (f tt s) as [[s2 ev2] r]. reflexivity.
Qed.

Lemma is_session_valid_true_inv user_id now w :
  Main.is_session_valid user_id now w = true ->
  exists s, Main.user_sessions w !! user_id = Some s.
Proof.
  unfold Main.is_session_valid.
  destruct (Main.user_sessions w !! user_id) as [s|]; [eauto | discriminate].
Qed.

Lemma is_session_valid_lookup user_id now w w' :
  Main.user_sessions w' !! user_id = Main.user_sessions w !! user_id ->
  Main.is_session_valid user_id now w' = Main.is_session_valid user_id now w.
Proof. intros H. unfold Main.is_session_valid. now rewrite H. Qed.

(** X6.  Sessions are kept per user: creating or clearing the session of one user
    changes neither the session of any other user nor the files, a new
    session replaces the old one of the same user whatever it was, and
    [clear_session] never raises, leaves the user without a valid session at
    every instant, and changes nothing when it is repeated. *)
Theorem session_store_per_user user_id url url_type t0 w :
  let w1 := Main.create_session user_id url url_type t0 w in
  let c := Main.clear_session user_id w in
  (forall v, v <> user_id ->
     Main.user_sessions w1 !! v = Main.user_sessions w !! v /\
     Main.user_sessions (state_of c) !! v = Main.user_sessions w !! v) /\
  Main.user_sessions w1 !! user_id = Some (Main.MkSession url url_type t0) /\
  (forall url' url_type' t1,
     Main.create_session user_id url url_type t0
       (Main.create_session user_id url' url_type' t1 w) = w1) /\
  Main.files w1 = Main.files w /\
  result_of c = Val tt /\
  Main.files (state_of c) = Main.files w /\
  (forall now, Main.is_session_valid user_id now (state_of c) = false) /\
  state_of (Main.clear_session user_id (state_of c)) = state_of c /\
  state_of (Main.clear_session user_id w1) = state_of c.
Proof.
  cbn zeta. unfold Main.clear_session, Main.create_session. mrun.
  cbn [Main.user_sessions Main.files]. repeat split.
  - now apply lookup_insert_ne.
  - now apply lookup_delete_ne.
  - apply lookup_insert_eq.
  - intros url' url_type' t1. f_equal. apply insert_insert_eq.
  - intros now. unfold Main.is_session_valid. cbn [Main.user_sessions].
    now rewrite lookup_delete_eq.
  - f_equal. apply delete_delete_eq.
  - f_equal. apply delete_insert_eq.
Qed.

(** ** Button callbacks of [main.py]: cancelling, bad data, other users *)

(** X7.  Pressing Cancel on one's own live prompt clears the session and shows
    the cancelled message: nothing is fetched and no file is touched.  Any
    button pressed afterwards, at any time, only gets the session-expired
    message. *)
Theorem cancel_clears_and_stops E now user_id data w :
  Main.is_session_valid user_id now w = true ->
  Main.parse_callback data = Some (u "cancel", user_id) ->
  fails E (EAnswer None) = None ->
  let r := Main.handle_button_callback E now user_id data w in
  events_of r = [EAnswer None; EClearSession user_id; EEdit MCancelled []] /\
  Main.user_sessions (state_of r) = delete user_id (Main.user_sessions w) /\
  Main.files (state_of r) = Main.files w /\
  forall E' now' data',
    events_of (Main.handle_button_callback E' now' user_id data' (state_of r))
    = EAnswer None ::
      match fails E' (EAnswer None) with
      | Some _ => []
      | None => [EEdit MSessionExpired []]
      end.
Proof.
  intros Hv Hp Ha r.
  assert (Hrun : Main.handle_button_callback E now user_id data w
                 = (Main.MkWorld (delete user_id (Main.user_sessions w))
                                 (Main.files w),
                    [EAnswer None; EClearSession user_id; EEdit MCancelled []],
                    match fails E (EEdit MCancelled []) with
                    | Some e => Raise e
                    | None => Val tt
                    end)).
  { destruct (is_session_valid_true_inv _ _ _ Hv) as [s Hs].
    unfold Main.handle_button_callback.
    unfold mbind, M_bind, bind, get, call.
    rewrite Ha, Hv, Hp, Z.eqb_refl, Hs. cbn [negb].
    rewrite bool_decide_eq_true_2 by reflexivity.
    unfold Main.clear_session. mrun.
    destruct (fails E (EEdit MCancelled [])); reflexivity. }
  subst r. rewrite Hrun. unfold state_of, events_of. cbn [fst snd].
  cbn [Main.user_sessions Main.files]. repeat split.
  intros E' now' data'.
  rewrite callback_expired.
  - mrun. destruct (fails E' (EAnswer None)); [reflexivity|].
    destruct (fails E' (EEdit MSessionExpired [])); reflexivity.
  - unfold Main.is_session_valid. cbn [Main.user_sessions].
    now rewrite lookup_delete_eq.
Qed.

Lemma cancel_clears_and_stops_witness :
  let r := Main.handle_button_callback quiet 10%Q 7 (u "cancel_7")
             (session_world 7 0%Q) in
  events_of r = [EAnswer None; EClearSession 7; EEdit MCancelled []] /\
  Main.user_sessions (state_of r)
  = delete 7 (Main.user_sessions (session_world 7 0%Q)).
Proof.
  intros r.
  pose proof (cancel_clears_and_stops quiet 10%Q 7 (u "cancel_7")
                (session_world 7 0%Q)) as H.
  destruct H as (H1 & H2 & _).
  - vm_compute. reflexivity.
  - vm_compute. reflexivity.
  - reflexivity.
  - split; [exact H1 | exact H2].
Defined.

(** ** Button data *)

Lemma u_String c s : u (String c s) = N_of_ascii c :: u s.
Proof. reflexivity. Qed.

Lemma digits_pos d : forall acc,
  digits (Zpos acc) (u (NilEmpty.string_of_uint d))
  = Some (Zpos (Pos.of_uint_acc d acc)).
Proof.
  induction d as [|d IH|d IH|d IH|d IH|d IH|d IH|d IH|d IH|d IH|d IH];
    intros acc; [reflexivity|..];
    cbn [NilEmpty.string_of_uint Pos.of_uint_acc]; rewrite u_String;
    cbn [digits];
    match goal with
    | |- context [digit ?c] =>
        let v := eval vm_compute in (digit c) in
        change (digit c) with v; cbv iota beta
    end;
    rewrite <- IH; f_equal; lia.
Qed.

Lemma digits_uint d :
  digits 0 (u (NilEmpty.string_of_uint d)) = Some (Z.of_N (Pos.of_uint d)).
Proof.
  induction d as [|d IH|d IH|d IH|d IH|d IH|d IH|d IH|d IH|d IH|d IH];
    [reflexivity|exact IH|..];
    cbn [NilEmpty.string_of_uint Pos.of_uint]; rewrite u_String;
    cbn [digits];
    match goal with
    | |- context [digit ?c] =>
        let v := eval vm_compute in (digit c) in
        change (digit c) with v; cbv iota beta
    end;
    cbn [Z.of_N]; rewrite <- digits_pos; f_equal.
Qed.

Lemma parse_digits d :
  d <> Decimal.Nil ->
  parse_int (u (NilEmpty.string_of_uint d))
  = digits 0 (u (NilEmpty.string_of_uint d)) /\
  u (NilEmpty.string_of_uint d) <> [].
Proof.
  intros Hd. destruct d; [congruence|..];
    cbn [NilEmpty.string_of_uint]; rewrite u_String;
    (split; [reflexivity | discriminate]).
Qed.

(** [int] reads back what [str] prints, for every integer. *)
Lemma parse_int_str_of_Z z : parse_int (str_of_Z z) = Some z.
Proof.
  unfold str_of_Z. destruct z as [|p|p]; [reflexivity|..];
    cbn [Z.to_int NilZero.string_of_int];
    pose proof (DecimalPos.Unsigned.to_uint_nonnil p) as Hn;
    pose proof (DecimalPos.Unsigned.of_to p) as Hof;
    destruct (parse_digits (Pos.to_uint p) Hn) as [Hp Hne].
  - unfold NilZero.string_of_uint.
    destruct (Pos.to_uint p) eqn:E; [congruence|..];
      rewrite <- E in *; rewrite Hp, digits_uint, Hof; reflexivity.
  - rewrite u_String. unfold parse_int.
    change (N_of_ascii "-" =? 45)%N with true. cbv iota.
    assert (Hs : NilZero.string_of_uint (Pos.to_uint p)
                 = NilEmpty.string_of_uint (Pos.to_uint p)).
    { unfold NilZero.string_of_uint. destruct (Pos.to_uint p); congruence. }
    rewrite Hs.
    destruct (u (NilEmpty.string_of_uint (Pos.to_uint p))) eqn:E;
      [congruence|]. rewrite <- E, digits_uint, Hof. reflexivity.
Qed.

Lemma split_once_app action rest :
  (95%N ∉ action) ->
  split_once (action ++ 95%N :: rest) = Some (action, rest).
Proof.
  induction action as [|c a IH]; intros Hn; [reflexivity|].
  cbn [app split_once].
  assert (Hc : (c =? 95)%N = false).
  { apply N.eqb_neq. intros ->. apply Hn. left. }
  rewrite Hc, IH; [reflexivity|]. intros Hin. apply Hn. now right.
Qed.

Lemma parse_button action user_id :
  95%N ∉ action ->
  Main.parse_callback (action ++ 95%N :: str_of_Z user_id)
  = Some (action, user_id).
Proof.
  intros Hn. unfold Main.parse_callback.
  now rewrite split_once_app, parse_int_str_of_Z.
Qed.

(** X8.  The data of every button that [handle_media_choice] builds is read back
    by [handle_button_callback] as its action and the id of the user the
    prompt was made for, whatever that id is. *)
Theorem button_data_round_trip user_id :
  List.map Main.parse_callback (Main.keyboard user_id)
  = [Some (u "video", user_id); Some (u "audio", user_id);
     Some (u "cancel", user_id)].
Proof.
  unfold Main.keyboard. cbn [List.map].
  change (u "video_" ++ str_of_Z user_id)
    with (u "video" ++ 95%N :: str_of_Z user_id).
  change (u "audio_" ++ str_of_Z user_id)
    with (u "audio" ++ 95%N :: str_of_Z user_id).
  change (u "cancel_" ++ str_of_Z user_id)
    with (u "cancel" ++ 95%N :: str_of_Z user_id).
  rewrite !parse_button; [reflexivity|..]; rewrite list_elem_of_In; vm_compute;
    intuition discriminate.
Qed.

(** ** What a callback changes *)

Lemma main_download_files E url audio_only w :
  Main.files w ⊆ Main.files (state_of (Main.download_with_ytdlp E url audio_only w)) /\
  Main.files (state_of (Main.download_with_ytdlp E url audio_only w))
  ⊆ Main.files w ∪ list_to_set (files_of E url audio_only).
Proof.
  unfold Main.download_with_ytdlp. mrun.
  destruct (fails E (EExtractInfo url)) as [e|].
  - destruct (e_class e); try (destruct (_ || _)); cbn; set_solver.
  - destruct (availability_private (info_of E url)); [cbn; set_solver|].
    destruct (fails E (EDownload url audio_only)) as [e|].
    + destruct (e_class e); try (destruct (_ || _)); cbn; set_solver.
    + destruct (files_of E url audio_only); cbn; set_solver.
Qed.

Lemma main_final_files E user_id (filepath : option (list N)) w :
  let r := (Main.clear_session user_id;;
            match truthy filepath with
            | Some p => Main.safe_delete_file E p
            | None => ret tt
            end) w in
  forall q, q ∈ Main.files w -> truthy filepath <> Some q ->
            q ∈ Main.files (state_of r).
Proof.
  unfold Main.clear_session, Main.safe_delete_file.
  destruct (truthy filepath) as [p|] eqn:Ht.
  - destruct (truthy_cons _ _ Ht) as (c & s & ->).
    unfold Main.exists_file. mrun. cbn [Main.files Main.user_sessions].
    destruct (bool_decide (c :: s ∈ Main.files w)) eqn:Hex.
    + destruct (fails E (ERemove (c :: s))) eqn:Hf; cbn.
      * intros q Hq _. exact Hq.
      * intros q Hq Hne. apply elem_of_difference. split; [exact Hq|].
        rewrite elem_of_singleton. congruence.
    + cbn. intros q Hq _. exact Hq.
  - mrun. cbn. intros q Hq _. exact Hq.
Qed.

(** The final [try] statement of [handle_button_callback] removes the
    caller's session and nobody else's, and it removes no file that was on
    disk before, other than the one the fetcher handed over (when yt-dlp
    wrote over an existing path). *)
Lemma main_fetch_frame E user_id url audio_only w :
  let r := Main.fetch_and_deliver E user_id url audio_only w in
  Main.user_sessions (state_of r) = delete user_id (Main.user_sessions w) /\
  (forall q, q ∈ Main.files w -> Main.fetched E url audio_only w <> Some q ->
             q ∈ Main.files (state_of r)).
Proof.
  intros r. subst r. unfold Main.fetched, Main.fetch_and_deliver, try_assign.
  pose proof (main_download_files E url audio_only w) as [Hsub _].
  destruct (main_download_quiet E url audio_only w)
    as (w1 & ev1 & [[filepath status_msg] caption] & Hd & Hs & Hev1).
  rewrite Hd in *. unfold state_of in Hsub. cbn [fst] in Hsub.
  match goal with
  | |- context [try_finally ?b ?f w1] =>
      assert (Hsil : silent b);
      [|destruct (try_finally_silent b f w1 Hsil) as [Hst _];
        destruct (try_finally b f w1) as [[s2 ev2] r2]]
  end.
  { apply silent_try_except;
      [|intros e; apply silent_call; reflexivity].
    apply silent_bind; [apply silent_get|]. intros w'.
    destruct (truthy filepath);
      [destruct (Main.exists_file w' l)|];
      repeat first [ apply silent_call; reflexivity
                   | apply silent_bind; [|intros ?]
                   | match goal with
                     | |- silent (if ?b then _ else _) => destruct b
                     end ]. }
  cbv beta iota in Hst. unfold state_of, events_of in *. cbn [fst snd] in *.
  destruct (main_final E user_id filepath w1) as (_ & Hf2 & _).
  pose proof (main_final_files E user_id filepath w1) as Hf4.
  cbn zeta in Hf2, Hf4. unfold state_of in Hf2, Hf4. rewrite Hst.
  split; [now rewrite Hf2, Hs|].
  intros q Hq Hne. apply Hf4; [now apply Hsub|].
  intros Ht. rewrite Ht in Hne.
  destruct (Main.exists_file w1 q) eqn:Hex; [congruence|].
  unfold Main.exists_file in Hex. apply bool_decide_eq_false in Hex.
  apply Hex. now apply Hsub.
Qed.

(** X9.  Whatever button is pressed, with whatever data, at whatever time and
    whatever the transport and the fetcher do, [handle_button_callback]
    leaves the session of every other user as it is: the store afterwards is
    the store before, or the store before without the session of the acting
    user. *)
Theorem callback_touches_own_session_only E now user_id data w :
  let r := Main.handle_button_callback E now user_id data w in
  (Main.user_sessions (state_of r) = Main.user_sessions w \/
   Main.user_sessions (state_of r) = delete user_id (Main.user_sessions w)) /\
  (forall v now', v <> user_id ->
     Main.is_session_valid v now' (state_of r) = Main.is_session_valid v now' w).
Proof.
  intros r.
  assert (H : Main.user_sessions (state_of r) = Main.user_sessions w \/
              Main.user_sessions (state_of r)
              = delete user_id (Main.user_sessions w)).
  { subst r. unfold Main.handle_button_callback.
    rewrite call_bind. destruct (fails E (EAnswer None)); [now left|].
    rewrite get_bind.
    destruct (Main.is_session_valid user_id now w); cbn [negb].
    2:{ unfold call, state_of. cbn. now left. }
    destruct (Main.parse_callback data) as [[action owner]|];
      [|now left].
    destruct (user_id =? owner); cbn [negb];
      [|unfold call, state_of; cbn; now left].
    destruct (Main.user_sessions w !! user_id) as [session|]; [|now left].
    destruct (bool_decide (action = u "cancel")).
    - right. unfold Main.clear_session. mrun.
      destruct (fails E (EEdit MCancelled [])); reflexivity.
    - rewrite call_bind. destruct (fails E (EEdit _ [])); [now left|].
      right. unfold state_of at 1. cbn [fst].
      apply (main_fetch_frame E user_id). }
  split; [exact H|]. intros v now' Hv. apply is_session_valid_lookup.
  destruct H as [-> | ->]; [reflexivity | now apply lookup_delete_ne].
Qed.

Lemma split_once_none data : 95%N ∉ data -> split_once data = None.
Proof.
  induction data as [|c s IH]; intros Hn; [reflexivity|]. cbn [split_once].
  assert (Hc : (c =? 95)%N = false).
  { apply N.eqb_neq. intros ->. apply Hn. left. }
  rewrite Hc, IH; [reflexivity|]. intros Hin. apply Hn. now right.
Qed.

(** X10.  Callback data without an underscore cannot be unpacked: the handler of a
    user with a live session raises [ValueError] right after answering the
    callback; nothing is fetched and the store is unchanged. *)
Theorem callback_without_separator E now user_id data w :
  95%N ∉ data ->
  Main.is_session_valid user_id now w = true ->
  fails E (EAnswer None) = None ->
  Main.handle_button_callback E now user_id data w
  = (w, [EAnswer None], Raise value_error).
Proof.
  intros Hn Hv Ha. unfold Main.handle_button_callback, Main.parse_callback.
  unfold mbind, M_bind, bind, get, call, raise.
  now rewrite Ha, Hv, (split_once_none data Hn).
Qed.

Lemma callback_without_separator_witness :
  Main.handle_button_callback quiet 10%Q 7 (u "video") (session_world 7 0%Q)
  = (session_world 7 0%Q, [EAnswer None], Raise value_error).
Proof.
  apply callback_without_separator.
  - rewrite list_elem_of_In. vm_compute. intuition discriminate.
  - vm_compute. reflexivity.
  - reflexivity.
Defined.

(** ** A fetch that succeeds *)

Lemma fetch_run E user_id url audio_only w p others :
  (forall e, fails E e = None) ->
  availability_private (info_of E url) = false ->
  files_of E url audio_only = p :: others ->
  p <> [] ->
  let r := Main.fetch_and_deliver E user_id url audio_only w in
  exists c,
    (length c <= 1024)%nat /\
    events_of r
    = [EExtractInfo url; EDownload url audio_only; EOpen p;
       (if audio_only then EReplyAudio p (CapText c)
        else EReplyVideo p (CapText c));
       EDeleteMessage; EClearSession user_id; ERemove p] /\
    result_of r = Val tt /\
    Main.user_sessions (state_of r) = delete user_id (Main.user_sessions w) /\
    Main.files (state_of r)
    = (Main.files w ∪ list_to_set (p :: others)) ∖ {[p]}.
Proof.
  intros Hok Hpriv Hfiles Hp r. subst r.
  destruct p as [|ch p']; [congruence|].
  assert (Hex : bool_decide
                  (ch :: p' ∈ Main.files w ∪ list_to_set ((ch :: p') :: others))
                = true) by (apply bool_decide_eq_true_2; set_solver).
  destruct audio_only;
    (eexists; split; [apply (List.firstn_le_length 1024)|];
     unfold Main.fetch_and_deliver, Main.download_with_ytdlp,
       Main.clear_session, Main.safe_delete_file, Main.exists_file;
     mrun; rewrite !Hok, Hpriv, Hfiles;
     cbn [truthy Main.files Main.user_sessions];
     rewrite ?Hok; cbv beta iota zeta;
     cbn [truthy Main.files Main.user_sessions];
     rewrite ?Hex, ?Hok; cbv beta iota zeta;
     cbn [truthy Main.files Main.user_sessions];
     rewrite ?Hex, ?Hok; cbv beta iota zeta; cbn [app fst snd];
     cbn [Main.files Main.user_sessions];
     repeat split; reflexivity).
Qed.

(** X11.  When nothing raises, the content is not private and yt-dlp leaves a
    file, the final [try] statement of [handle_button_callback] asks yt-dlp
    once for the metadata and once for the download, sends the first file
    listed as audio or as video with a caption of at most 1024 characters,
    deletes the prompt, clears the session and removes the file. *)
Theorem fetch_success E user_id url audio_only w p others :
  (forall e, fails E e = None) ->
  availability_private (info_of E url) = false ->
  files_of E url audio_only = p :: others ->
  p <> [] ->
  let r := Main.fetch_and_deliver E user_id url audio_only w in
  exists c,
    (length c <= 1024)%nat /\
    events_of r
    = [EExtractInfo url; EDownload url audio_only; EOpen p;
       (if audio_only then EReplyAudio p (CapText c)
        else EReplyVideo p (CapText c));
       EDeleteMessage; EClearSession user_id; ERemove p] /\
    result_of r = Val tt /\
    Main.user_sessions (state_of r) = delete user_id (Main.user_sessions w) /\
    Main.files (state_of r)
    = (Main.files w ∪ list_to_set (p :: others)) ∖ {[p]}.
Proof. exact (fetch_run E user_id url audio_only w p others). Qed.

Lemma fetch_success_witness :
  let url := u "https://instagram.com/reel/abc" in
  let p := u "downloads/media_1700000000.jpg" in
  let r := Main.fetch_and_deliver long_title 7 url false (session_world 7 0%Q) in
  exists c,
    (length c <= 1024)%nat /\
    events_of r
    = [EExtractInfo url; EDownload url false; EOpen p;
       EReplyVideo p (CapText c);
       EDeleteMessage; EClearSession 7; ERemove p] /\
    result_of r = Val tt.
Proof.
  intros url p r.
  destruct (fetch_success long_title 7 url false (session_world 7 0%Q) p [])
    as (c & Hc & He & Hr & _).
  - intros e. reflexivity.
  - reflexivity.
  - reflexivity.
  - discriminate.
  - exists c. repeat split; assumption.
Defined.

(** ** From the link to the delivery *)

(** X12.  A message with a reel or post link from a user, then the Video button of
    the prompt pressed by the same user less than 300 seconds later, with a
    transport and a fetcher that work: the message creates the session and
    shows the three buttons; the callback fetches the URL that was matched
    in the message, sends the video, clears the session and removes the
    file. *)
Theorem link_then_video_button E now1 now2 user_id text url k w p others :
  Main.extract_instagram_info text = Some (url, k) ->
  k = Reel \/ k = Post ->
  (forall e, fails E e = None) ->
  availability_private (info_of E url) = false ->
  files_of E url false = p :: others ->
  p <> [] ->
  (now2 - now1 < 300)%Q ->
  let r1 := Main.handle_instagram_message E now1 user_id text w in
  let r2 := Main.handle_button_callback E now2 user_id
              (u "video_" ++ str_of_Z user_id) (state_of r1) in
  events_of r1
  = [EReply (MProcessing k); EEdit (MChoose k) (Main.keyboard user_id)] /\
  Main.user_sessions (state_of r1) !! user_id
  = Some (Main.MkSession url k now1) /\
  exists c,
    (length c <= 1024)%nat /\
    events_of r2
    = [EAnswer None; EEdit (MDownloading false) [];
       EExtractInfo url; EDownload url false; EOpen p;
       EReplyVideo p (CapText c); EDeleteMessage;
       EClearSession user_id; ERemove p] /\
    result_of r2 = Val tt /\
    Main.user_sessions (state_of r2) !! user_id = None /\
    p ∉ Main.files (state_of r2).
Proof.
  intros Hext Hk Hok Hpriv Hfiles Hp Hlt r1 r2.
  assert (Hr1 : r1 = (Main.create_session user_id url k now1 w,
                      [EReply (MProcessing k);
                       EEdit (MChoose k) (Main.keyboard user_id)],
                      Val tt)).
  { subst r1. unfold Main.handle_instagram_message. rewrite Hext.
    unfold Main.handle_media_choice. mrun. rewrite !Hok.
    destruct Hk as [-> | ->]; cbv beta iota zeta; rewrite ?Hok; reflexivity. }
  set (w1 := Main.create_session user_id url k now1 w) in *.
  assert (Hs : Main.user_sessions w1 !! user_id
               = Some (Main.MkSession url k now1)) by apply lookup_insert_eq.
  assert (Hv : Main.is_session_valid user_id now2 w1 = true).
  { unfold Main.is_session_valid. rewrite Hs. now apply Qltb_lt. }
  assert (Hpc : Main.parse_callback (u "video_" ++ str_of_Z user_id)
                = Some (u "video", user_id)).
  { change (u "video_" ++ str_of_Z user_id)
      with (u "video" ++ 95%N :: str_of_Z user_id).
    apply parse_button. rewrite list_elem_of_In. vm_compute.
    intuition discriminate. }
  assert (Hnc : u "video" <> u "cancel") by (vm_compute; discriminate).
  set (F := Main.fetch_and_deliver E user_id url false w1).
  assert (Hr2 : r2 = (state_of F,
                      EAnswer None :: EEdit (MDownloading false) []
                        :: events_of F,
                      result_of F)).
  { subst r2. rewrite Hr1. change (state_of (w1, _, _)) with w1.
    rewrite (callback_reaches_fetch E now2 user_id _ (u "video") _ w1
               Hv Hpc Hs Hnc).
    rewrite (bool_decide_eq_false_2 (u "video" = u "audio"))
      by (vm_compute; discriminate).
    cbn [Main.s_url]. rewrite !call_bind, !Hok. fold F.
    unfold state_of, events_of, result_of. reflexivity. }
  destruct (fetch_run E user_id url false w1 p others Hok Hpriv Hfiles Hp)
    as (c & Hc & He & Hr & Hss & Hfs).
  fold F in He, Hr, Hss, Hfs.
  rewrite Hr1, Hr2.
  change (state_of (w1, _, _)) with w1.
  change (events_of (w1, ?e, _)) with e.
  change (state_of (state_of F, _, _)) with (state_of F).
  change (events_of (state_of F, ?e, _)) with e.
  change (result_of (state_of F, _, ?r)) with r.
  split; [reflexivity|]. split; [exact Hs|].
  exists c. split; [exact Hc|]. rewrite He, Hr, Hss, Hfs.
  repeat split.
  - apply lookup_delete_eq.
  - rewrite elem_of_difference, elem_of_singleton. tauto.
Qed.

Lemma link_then_video_button_witness :
  let text := u "check this https://instagram.com/reel/abc" in
  let url := u "https://instagram.com/reel/abc" in
  let p := u "downloads/media_1700000000.jpg" in
  let w := Main.MkWorld ∅ ∅ in
  let r1 := Main.handle_instagram_message long_title 0%Q 7 text w in
  let r2 := Main.handle_button_callback long_title 299%Q 7
              (u "video_" ++ str_of_Z 7) (state_of r1) in
  Main.user_sessions (state_of r1) !! 7 = Some (Main.MkSession url Reel 0%Q) /\
  Main.user_sessions (state_of r2) !! 7 = None /\
  p ∉ Main.files (state_of r2).
Proof.
  intros text url p w r1 r2.
  destruct (link_then_video_button long_title 0%Q 299%Q 7 text url Reel w p [])
    as (_ & H1 & c & _ & _ & _ & H2 & H3).
  - vm_compute. reflexivity.
  - now left.
  - intros e. reflexivity.
  - reflexivity.
  - reflexivity.
  - discriminate.
  - reflexivity.
  - repeat split; assumption.
Defined.

(** ** The fetcher of [main.py] *)

(** X13.  [download_with_ytdlp] never raises.  It returns a path only when both
    calls to yt-dlp returned, the content is not private and a file is listed
    under the output template: the path is then the first file listed, it is
    on disk, and the status is the success line; in every other case it
    returns no path and no caption.  It asks for the metadata once, and for
    the download at most once and never for private content. *)
Theorem fetcher_outcome E url audio_only w :
  let r := Main.download_with_ytdlp E url audio_only w in
  exists filepath status_msg caption,
    result_of r = Val (filepath, status_msg, caption) /\
    (forall p, filepath = Some p <->
               fails E (EExtractInfo url) = None /\
               availability_private (info_of E url) = false /\
               fails E (EDownload url audio_only) = None /\
               head (files_of E url audio_only) = Some p) /\
    (forall p, filepath = Some p ->
               status_msg = Main.StOk /\
               caption = Main.build_caption (info_of E url) /\
               p ∈ Main.files (state_of r)) /\
    (filepath = None -> caption = None /\ status_msg <> Main.StOk) /\
    (events_of r = [EExtractInfo url] \/
     events_of r = [EExtractInfo url; EDownload url audio_only]) /\
    (availability_private (info_of E url) = true ->
     events_of r = [EExtractInfo url]) /\
    Main.user_sessions (state_of r) = Main.user_sessions w.
Proof.
  unfold Main.download_with_ytdlp. mrun.
  destruct (fails E (EExtractInfo url)) as [e|] eqn:Hx.
  - destruct (e_class e); try destruct (_ || _); cbn;
      eexists None, _, None; (split; [reflexivity|]);
      (repeat split; try discriminate; try tauto;
       try (intros (H & _); discriminate); try (now left)).
  - destruct (availability_private (info_of E url)) eqn:Hp.
    + cbn. eexists None, _, None. split; [reflexivity|].
      repeat split; try discriminate; try tauto;
        try (intros (_ & H & _); discriminate); now left.
    + destruct (fails E (EDownload url audio_only)) as [e|] eqn:Hd.
      * destruct (e_class e); try destruct (_ || _); cbn;
          eexists None, _, None; (split; [reflexivity|]);
          (repeat split; try discriminate; try tauto;
           try (intros (_ & _ & H & _); discriminate); try (now right)).
      * destruct (files_of E url audio_only) as [|p others] eqn:Hf; cbn.
        -- eexists None, _, None. split; [reflexivity|].
           repeat split; try discriminate; try tauto;
             try (intros (_ & _ & _ & H); discriminate); now right.
        -- eexists (Some p), _, _. split; [reflexivity|].
           repeat split; try congruence; try tauto; try (now right).
           inversion H; subst. set_solver.
Qed.

(** ** Profile pictures in [main.py] *)

Lemma main_profile_final E (filepath : option (list N)) w :
  let r := match truthy filepath with
           | Some p => Main.safe_delete_file E p
           | None => ret tt
           end w in
  cleanups (events_of r)
  = match truthy filepath with
    | Some p => if Main.exists_file w p then [ERemove p] else []
    | None => []
    end /\
  Main.user_sessions (state_of r) = Main.user_sessions w /\
  (forall p, truthy filepath = Some p -> Main.exists_file w p = true ->
             fails E (ERemove p) = None -> p ∉ Main.files (state_of r)).
Proof.
  unfold Main.safe_delete_file.
  destruct (truthy filepath) as [p|] eqn:Ht.
  - destruct (truthy_cons _ _ Ht) as (c & s & ->).
    unfold Main.exists_file. mrun. cbn [Main.files Main.user_sessions].
    destruct (bool_decide (c :: s ∈ Main.files w)) eqn:Hex.
    + destruct (fails E (ERemove (c :: s))) eqn:Hf; cbn.
      * repeat split. intros p Hp _ Hn. inversion Hp; subst. congruence.
      * repeat split. intros p Hp _ _. inversion Hp; subst.
        rewrite elem_of_difference. intros [_ Hn]. apply Hn.
        now apply elem_of_singleton.
    + cbn. repeat split. intros p Hp Hx. inversion Hp; subst.
      cbn [Main.files] in Hx. congruence.
  - mrun. cbn. repeat split. intros p Hp. discriminate.
Qed.

Lemma main_profile_cleanup E url w :
  let r := Main.handle_profile_download E url w in
  let handed :=
    match fails E (EEdit MDownloadingProfile []) with
    | Some _ => None
    | None => Main.fetched E url false w
    end in
  cleanups (events_of r)
  = match handed with Some p => [ERemove p] | None => [] end /\
  Main.user_sessions (state_of r) = Main.user_sessions w /\
  (forall p, handed = Some p -> fails E (ERemove p) = None ->
             p ∉ Main.files (state_of r)).
Proof.
  intros r handed.
  subst r handed. unfold Main.handle_profile_download, try_assign.
    destruct (fails E (EEdit MDownloadingProfile [])) as [e|] eqn:Hedit.
    - rewrite call_bind, Hedit. mrun.
      destruct (fails E (EEdit (MProfileError (e_msg e)) []));
        cbn; repeat split; discriminate.
    - unfold Main.fetched.
      destruct (main_download_quiet E url false w)
        as (w1 & ev1 & [[filepath status_msg] caption] & Hd & Hs & Hev1).
      rewrite call_bind, Hedit, Hd.
      change (state_of (w1, ev1, Val (filepath, status_msg, caption))) with w1.
      change (events_of (w1, ev1, Val (filepath, status_msg, caption)))
        with ev1.
      change (result_of (w1, ev1, Val (filepath, status_msg, caption)))
        with (@Val (option (list N) * Main.status * option (list N))
                   (filepath, status_msg, caption)).
      cbv iota.
      match goal with
      | |- context [try_finally ?b ?f w1] =>
          assert (Hsil : silent b);
          [|destruct (try_finally_silent b f w1 Hsil) as [Hst Hcl];
            destruct (try_finally b f w1) as [[s2 ev2] r2]]
      end.
      { apply silent_try_except;
          [|intros e; apply silent_call; reflexivity].
        apply silent_bind; [apply silent_get|]. intros w'.
        destruct (truthy filepath);
          [destruct (Main.exists_file w' l)|];
          repeat first [ apply silent_call; reflexivity
                       | apply silent_bind; [|intros ?] ]. }
      cbv beta iota in Hst, Hcl.
      unfold state_of, events_of in *. cbn [fst snd] in *.
      destruct (main_profile_final E filepath w1) as (Hf1 & Hf2 & Hf3).
      cbn zeta in Hf1, Hf2, Hf3. unfold state_of, events_of in Hf1, Hf2, Hf3.
      change ((EEdit MDownloadingProfile [] :: ev1) ++ ev2)
        with ([EEdit MDownloadingProfile []] ++ ev1 ++ ev2).
      rewrite !cleanups_app, Hcl, Hf1, Hev1. cbn [cleanups List.filter
        is_cleanup app].
      split; [|split].
      + destruct (truthy filepath) as [p|]; [|reflexivity].
        destruct (Main.exists_file w1 p); reflexivity.
      + rewrite Hst, Hf2. exact Hs.
      + intros p Hp Hn. rewrite Hst.
        destruct (truthy filepath) as [q|] eqn:Ht; [|discriminate].
        destruct (Main.exists_file w1 q) eqn:Hex; [|discriminate].
        inversion Hp; subst q. exact (Hf3 p eq_refl Hex Hn).
Qed.

(** X14.  [handle_profile_download], under every behaviour of the transport, of
    yt-dlp and of the file system: it never touches a session; when the
    progress message could be shown and the fetcher handed over a file,
    [os.remove] is called on that file exactly once and on no other path,
    and the file is gone unless [os.remove] raised; otherwise nothing is
    removed. *)
Theorem profile_download_cleans_up E url w :
  let r := Main.handle_profile_download E url w in
  let handed :=
    match fails E (EEdit MDownloadingProfile []) with
    | Some _ => None
    | None => Main.fetched E url false w
    end in
  Main.user_sessions (state_of r) = Main.user_sessions w /\
  (forall v, count (is_clear v) (events_of r) = 0%nat) /\
  match handed with
  | Some p =>
      count (is_remove p) (events_of r) = 1%nat /\
      count is_any_remove (events_of r) = 1%nat /\
      (fails E (ERemove p) = None -> p ∉ Main.files (state_of r))
  | None => count is_any_remove (events_of r) = 0%nat
  end.
Proof.
  intros r handed.
  destruct (main_profile_cleanup E url w) as (Hc & Hs & Hf).
  fold r in Hc, Hs, Hf. fold handed in Hc, Hf.
  split; [exact Hs|]. split.
  - intros v. rewrite (count_cleanups _ _ (is_clear_cleanup v)), Hc.
    destruct handed; reflexivity.
  - rewrite (count_cleanups _ _ is_any_remove_cleanup), Hc.
    destruct handed as [p|]; [|reflexivity].
    rewrite (count_cleanups _ _ (is_remove_cleanup p)), Hc.
    split; [|split; [reflexivity | exact (Hf p eq_refl)]].
    unfold count. cbn. now rewrite bool_decide_eq_true_2.
Qed.

(** ** Format callbacks of [instagram_bot.py] *)

(** X15.  A duration that yt-dlp reports as a non-zero [float] cannot be formatted
    with [:02d]: the caption raises [ValueError], so the file that was
    fetched is removed without being sent, the error message is shown and
    the pending choice is dropped. *)
Theorem float_duration_blocks_delivery E user_id key url audio_only w p others q :
  fails E (EDownload url audio_only) = None ->
  files_of E url audio_only = p :: others ->
  p <> [] ->
  duration (info_of E url) = Float q ->
  Qeq_bool q 0 = false ->
  let r := IB.fetch_and_deliver E user_id key url audio_only w in
  events_of r
  = [EDownload url audio_only; ERemove p; EEdit MErrorDuringDownload []]
    ++ match IB.data_of w user_id !! key with
       | Some _ => [EDelUserData key]
       | None => []
       end.
Proof.
  intros Hd Hfiles Hp Hdur Hq r. subst r.
  destruct p as [|ch p']; [congruence|].
  assert (Hex : bool_decide
                  (ch :: p' ∈ IB.files w ∪ list_to_set ((ch :: p') :: others))
                = true) by (apply bool_decide_eq_true_2; set_solver).
  unfold IB.fetch_and_deliver, IB.download_with_ytdlp, IB.build_caption,
    IB.safe_delete_file, IB.exists_file, IB.set_files, IB.data_of.
  mrun. rewrite Hd, Hfiles.
  cbn [head IB.d_file_path IB.d_duration truthy IB.files IB.user_data].
  rewrite Hex, Hdur, Hq. cbv beta iota zeta.
  cbn [IB.files IB.user_data]. rewrite Hex.
  destruct (fails E (ERemove (ch :: p'))); cbv beta iota zeta;
    destruct (fails E (EEdit MErrorDuringDownload []));
    cbv beta iota zeta; cbn [IB.user_data];
    destruct (default ∅ (IB.user_data w !! user_id) !! key); reflexivity.
Qed.

Lemma float_duration_blocks_delivery_witness :
  let E := MkEnv (fun _ => None)
                 (fun _ => MkInfo false (u "Video by alice") [] (u "alice")
                                  (Float 12.5))
                 (fun _ _ => [u "/tmp/instagram_20240101_120000.mp4"])
                 (fun _ => None) in
  events_of (IB.fetch_and_deliver E 7 (u "url_abc")
               (u "https://instagram.com/reel/abc") false pending_world)
  = [EDownload (u "https://instagram.com/reel/abc") false;
     ERemove (u "/tmp/instagram_20240101_120000.mp4");
     EEdit MErrorDuringDownload []; EDelUserData (u "url_abc")].
Proof.
  intros E.
  apply (float_duration_blocks_delivery E 7 (u "url_abc")
           (u "https://instagram.com/reel/abc") false pending_world
           (u "/tmp/instagram_20240101_120000.mp4") [] 12.5%Q);
    try reflexivity. discriminate.
Defined.

Lemma bind_events_prefix {S A B} (m : M S A) (f : A -> M S B) s :
  exists rest, events_of ((m ≫= f) s) = events_of (m s) ++ rest.
Proof.
  unfold mbind, M_bind, bind, events_of.
  destruct (m s) as [[s1 ev1] [a|e]]; cbn [fst snd].
  - destruct (f a s1) as [[s2 ev2] r]. cbn [fst snd]. eauto.
  - exists []. now rewrite app_nil_r.
Qed.

Lemma try_except_events_prefix {S A} (m : M S A) h s :
  exists rest, events_of (try_except m h s) = events_of (m s) ++ rest.
Proof.
  unfold try_except, events_of.
  destruct (m s) as [[s1 ev1] [a|e]]; cbn [fst snd].
  - exists []. now rewrite app_nil_r.
  - destruct (h e s1) as [[s2 ev2] r]. cbn [fst snd]. eauto.
Qed.

Lemma ib_fetch_starts E user_id key url audio_only w :
  exists rest,
    events_of (IB.fetch_and_deliver E user_id key url audio_only w)
    = EDownload url audio_only :: rest.
Proof.
  unfold IB.fetch_and_deliver.
  match goal with
  | |- context [try_finally (try_except (?m ≫= ?g) ?h) ?f w] =>
      destruct (try_finally_run (try_except (m ≫= g) h) f w) as [_ ->];
      destruct (try_except_events_prefix (m ≫= g) h w) as [r1 ->];
      destruct (bind_events_prefix m g w) as [r0 ->];
      assert (Hm : events_of (m w) = [EDownload url audio_only])
  end.
  { unfold IB.download_with_ytdlp. mrun.
    destruct (fails E (EDownload url audio_only)); reflexivity. }
  rewrite Hm. cbn [app]. eauto.
Qed.

(** X16.  The prompt of [handle_reel_download] and its buttons: once the prompt is
    shown the URL is kept under the identifier; pressing Video then starts
    the download of exactly that URL and drops the entry, whatever the
    outcome; and a button of the same prompt pressed again only gets the
    session-expired message. *)
Theorem format_choice_round_trip E user_id i cid w :
  IB.i_id i = Some cid ->
  fails E (EEdit (MChooseFormat (IB.i_url i))
                 [u "video_" ++ cid; u "audio_" ++ cid]) = None ->
  fails E (EAnswer None) = None ->
  fails E (EEdit (MDownloadingFormat (u "video")) []) = None ->
  let w1 := state_of (IB.handle_reel_download E user_id i w) in
  let r := IB.handle_format_callback E user_id (u "video_" ++ cid) w1 in
  IB.data_of w1 user_id !! IB.url_key cid = Some (IB.i_url i) /\
  (exists rest,
     events_of r
     = EAnswer None :: EEdit (MDownloadingFormat (u "video")) []
         :: EDownload (IB.i_url i) false :: rest) /\
  IB.data_of (state_of r) user_id !! IB.url_key cid = None /\
  (forall format_type,
     95%N ∉ format_type ->
     events_of (IB.handle_format_callback E user_id
                  (format_type ++ 95%N :: cid) (state_of r))
     = [EAnswer None; EEdit MSessionExpiredUrl []]).
Proof.
  intros Hid Hedit Hans Hdl w1 r.
  assert (Hw1 : IB.data_of w1 user_id !! IB.url_key cid = Some (IB.i_url i)).
  { subst w1. unfold IB.handle_reel_download. rewrite Hid. cbn [default from_option]. unfold Datatypes.id.
    rewrite call_bind, Hedit. unfold state_of at 1. cbn [fst].
    unfold modify, state_of, IB.set_data, IB.data_of. cbn [fst IB.user_data].
    rewrite lookup_insert_eq. cbn. apply lookup_insert_eq. }
  assert (Hrun : forall format_type w',
             95%N ∉ format_type ->
             IB.handle_format_callback E user_id (format_type ++ 95%N :: cid) w'
             = match IB.data_of w' user_id !! IB.url_key cid with
               | None =>
                   (w', [EAnswer None; EEdit MSessionExpiredUrl []],
                    match fails E (EEdit MSessionExpiredUrl []) with
                    | Some e => Raise e
                    | None => Val tt
                    end)
               | Some url =>
                   let x :=
                     (call E (EEdit (MDownloadingFormat format_type) []);;
                      IB.fetch_and_deliver E user_id (IB.url_key cid) url
                        (bool_decide (format_type = u "audio"))) w' in
                   (state_of x, EAnswer None :: events_of x, result_of x)
               end).
  { intros format_type w' Hn. unfold IB.handle_format_callback.
    rewrite call_bind, Hans, (split_once_app _ _ Hn), get_bind.
    destruct (IB.data_of w' user_id !! IB.url_key cid) as [url|].
    - reflexivity.
    - unfold call, state_of, events_of, result_of. cbn.
      destruct (fails E (EEdit MSessionExpiredUrl [])); reflexivity. }
  assert (Hv : 95%N ∉ u "video")
    by (rewrite list_elem_of_In; vm_compute; intuition discriminate).
  assert (Hr : r = (state_of (IB.fetch_and_deliver E user_id (IB.url_key cid)
                                (IB.i_url i) false w1),
                    EAnswer None :: EEdit (MDownloadingFormat (u "video")) []
                      :: events_of (IB.fetch_and_deliver E user_id
                                      (IB.url_key cid) (IB.i_url i) false w1),
                    result_of (IB.fetch_and_deliver E user_id (IB.url_key cid)
                                 (IB.i_url i) false w1))).
  { subst r. change (u "video_" ++ cid) with (u "video" ++ 95%N :: cid).
    rewrite (Hrun (u "video") w1 Hv), Hw1. cbv zeta.
    rewrite call_bind, Hdl.
    rewrite (bool_decide_eq_false_2 (u "video" = u "audio"))
      by (vm_compute; discriminate).
    reflexivity. }
  split; [exact Hw1|].
  destruct (ib_cleanup E user_id (IB.url_key cid) (IB.i_url i) false w1)
    as (_ & Hgone & _); [now rewrite Hw1|]. cbn zeta in Hgone.
  rewrite Hr. change (state_of (?s, _, _)) with s.
  change (events_of (_, ?e, _)) with e.
  split; [|split; [exact Hgone|]].
  - destruct (ib_fetch_starts E user_id (IB.url_key cid) (IB.i_url i) false w1)
      as [rest ->]. eauto.
  - intros format_type Hn. rewrite (Hrun format_type _ Hn), Hgone. reflexivity.
Qed.

Lemma format_choice_round_trip_witness :
  let w := IB.MkWorld (Rate.MkState ∅ 0) true ∅ ∅ in
  let w1 := state_of (IB.handle_reel_download quiet 7 reel_abc w) in
  let r := IB.handle_format_callback quiet 7 (u "video_" ++ u "abc") w1 in
  IB.data_of w1 7 !! IB.url_key (u "abc")
  = Some (u "https://instagram.com/reel/abc") /\
  IB.data_of (state_of r) 7 !! IB.url_key (u "abc") = None.
Proof.
  intros w w1 r.
  destruct (format_choice_round_trip quiet 7 reel_abc (u "abc") w)
    as (H1 & _ & H2 & _); try reflexivity.
  split; [exact H1 | exact H2].
Defined.

(** ** The fetcher is called at most once *)

Lemma download_events_cases E url audio_only w :
  events_of (Main.download_with_ytdlp E url audio_only w) = [EExtractInfo url] \/
  events_of (Main.download_with_ytdlp E url audio_only w)
  = [EExtractInfo url; EDownload url audio_only].
Proof.
  unfold Main.download_with_ytdlp. mrun.
  destruct (fails E (EExtractInfo url)) as [e|].
  - destruct (e_class e); try destruct (_ || _); now left.
  - destruct (availability_private (info_of E url)); [now left|].
    destruct (fails E (EDownload url audio_only)) as [e|].
    + destruct (e_class e); try destruct (_ || _); now right.
    + destruct (files_of E url audio_only); now right.
Qed.

Lemma main_fetch_events E user_id url audio_only w :
  exists ev2,
    events_of (Main.fetch_and_deliver E user_id url audio_only w)
    = events_of (Main.download_with_ytdlp E url audio_only w) ++ ev2 /\
    Forall (fun e => is_download e = false) ev2.
Proof.
  unfold Main.fetch_and_deliver, try_assign.
  destruct (main_download_quiet E url audio_only w)
    as (w1 & ev1 & [[filepath status_msg] caption] & Hd & _ & _).
  rewrite Hd.
  match goal with
  | |- context [try_finally ?b ?f w1] =>
      assert (He : emits (fun e => is_download e = false) (try_finally b f))
  end.
  { unfold Main.clear_session, Main.safe_delete_file.
    repeat first
      [ apply emits_ret | apply emits_get | apply emits_modify
      | apply emits_emit; reflexivity
      | apply emits_call; reflexivity
      | apply emits_bind; [|intros ?]
      | apply emits_try_except; [|intros ?]
      | apply emits_try_finally
      | match goal with
        | |- emits _ (if ?b then _ else _) => destruct b
        | |- emits _ (match ?x with _ => _ end) => destruct x
        end ]. }
  specialize (He w1). revert He. unfold events_of.
  destruct (try_finally _ _ w1) as [[s2 ev2] r2]. cbn [fst snd].
  intros He. exists ev2. split; [reflexivity | exact He].
Qed.

Lemma count_app f a b : count f (a ++ b) = (count f a + count f b)%nat.
Proof. unfold count. now rewrite List.filter_app, length_app. Qed.

Lemma count_none f evs :
  Forall (fun e => f e = false) evs -> count f evs = 0%nat.
Proof.
  unfold count. induction 1 as [|e evs He _ IH]; [reflexivity|].
  cbn [List.filter]. now rewrite He.
Qed.

(** X17.  Whatever happens, one button callback calls [ydl.download] at most once
    (there is no retry), and it calls it only for the owner of a live
    session who pressed a button other than Cancel. *)
Theorem download_at_most_once E now user_id data w :
  let r := Main.handle_button_callback E now user_id data w in
  (count is_download (events_of r) <= 1)%nat /\
  (count is_download (events_of r) = 1%nat ->
   Main.is_session_valid user_id now w = true /\
   exists action, Main.parse_callback data = Some (action, user_id) /\
                  action <> u "cancel").
Proof.
  intros r. subst r. unfold Main.handle_button_callback.
  rewrite call_bind. destruct (fails E (EAnswer None));
    [cbn; split; [lia | discriminate]|].
  unfold events_of at 1 3. cbn [fst snd]. rewrite get_bind.
  destruct (Main.is_session_valid user_id now w); cbn [negb].
  2:{ unfold call, events_of. cbn. split; [lia | discriminate]. }
  destruct (Main.parse_callback data) as [[action owner]|];
    [|cbn; split; [lia | discriminate]].
  destruct (user_id =? owner) eqn:Ho; cbn [negb];
    [|unfold call, events_of; cbn; split; [lia | discriminate]].
  apply Z.eqb_eq in Ho. subst owner.
  destruct (Main.user_sessions w !! user_id) as [session|];
    [|cbn; split; [lia | discriminate]].
  destruct (bool_decide (action = u "cancel")) eqn:Hc.
  - unfold Main.clear_session. mrun.
    destruct (fails E (EEdit MCancelled [])); cbn; split; (lia || discriminate).
  - apply bool_decide_eq_false in Hc. rewrite call_bind.
    destruct (fails E (EEdit _ [])); [cbn; split; [lia | discriminate]|].
    unfold events_of at 1 3. cbn [fst snd].
    destruct (main_fetch_events E user_id (Main.s_url session)
                (bool_decide (action = u "audio")) w) as (ev2 & -> & Hev2).
    change (EAnswer None :: EEdit ?m [] :: ?l ++ ev2)
      with ([EAnswer None; EEdit m []] ++ l ++ ev2).
    rewrite !count_app, (count_none _ _ Hev2).
    assert (Hd : (count is_download
                    (events_of (Main.download_with_ytdlp E (Main.s_url session)
                                  (bool_decide (action = u "audio")) w))
                  <= 1)%nat).
    { destruct (download_events_cases E (Main.s_url session)
                  (bool_decide (action = u "audio")) w) as [-> | ->];
        cbn; lia. }
    set (n := count is_download (events_of (Main.download_with_ytdlp _ _ _ w)))
      in *.
    unfold count at 1. cbn [List.filter is_download length].
    split; [lia|]. intros _. split; [reflexivity|].
    exists action. split; [reflexivity | exact Hc].
Qed.

(** ** Profile links in [instagram_bot.py] without a client *)

(** X18.  When [instagram_client] is not set, [download_profile_picture] returns
    the dict of [download_with_ytdlp] instead of a path, and
    [os.path.exists] raises [TypeError] on it: an admitted profile link is
    answered with the processing message and then only with the generic
    error message; no photo is sent, and the files yt-dlp wrote stay on
    disk. *)
Theorem profile_link_without_client E now now_c user_id message_text url name w :
  fst (Rate.is_rate_limited user_id now now_c (IB.rate w)) = false ->
  IB.instagram_client w = false ->
  IB.first_url message_text = Some url ->
  IB.extract_instagram_info url = IB.MkInfo (Some Profile) (Some name) url ->
  (forall e, fails E e = None) ->
  let r := IB.handle_instagram_url E now now_c user_id message_text w in
  events_of r
  = [EReply (MProcessingUrl url (Some Profile));
     EDownload (u "https://instagram.com/" ++ name) false;
     EEdit MErrorOccurred []] /\
  result_of r = Val tt /\
  IB.files (state_of r)
  = IB.files w
    ∪ list_to_set (files_of E (u "https://instagram.com/" ++ name) false).
Proof.
  intros Hadm Hcl Hurl Hinfo Hok r. subst r.
  unfold IB.handle_instagram_url. rewrite get_bind.
  destruct (Rate.is_rate_limited user_id now now_c (IB.rate w)) as [limited st].
  cbn [fst] in Hadm. subst limited. rewrite Hurl, Hinfo.
  cbn [IB.i_type IB.i_id].
  unfold IB.handle_profile_download, IB.download_profile_picture,
    IB.download_with_ytdlp, IB.set_files.
  cbn [IB.i_id default from_option]. unfold Datatypes.id.
  mrun. cbn [IB.instagram_client IB.files IB.user_data IB.rate].
  rewrite Hcl. cbn [negb]. rewrite !Hok. cbv beta iota zeta.
  rewrite ?Hok. repeat split.
Qed.

Lemma profile_link_without_client_witness :
  let w := IB.MkWorld (Rate.MkState ∅ 0) false ∅ ∅ in
  let r := IB.handle_instagram_url long_title 1 1 7
             (u "https://instagram.com/alice") w in
  events_of r
  = [EReply (MProcessingUrl (u "https://instagram.com/alice") (Some Profile));
     EDownload (u "https://instagram.com/" ++ u "alice") false;
     EEdit MErrorOccurred []] /\
  result_of r = Val tt.
Proof.
  intros w r.
  destruct (profile_link_without_client long_title 1 1 7
              (u "https://instagram.com/alice")
              (u "https://instagram.com/alice") (u "alice") w)
    as (H1 & H2 & _).
  - vm_compute. reflexivity.
  - reflexivity.
  - vm_compute. reflexivity.
  - vm_compute. reflexivity.
  - intros e. reflexivity.
  - split; [exact H1 | exact H2].
Defined.

(** ** Identifiers *)

Lemma star_split ok s s1 :
  In s1 (star ok s) -> exists w, s = w ++ s1 /\ Forall (fun x => ok x = true) w.
Proof.
  revert s1. induction s as [|x s IH]; intros s1; cbn [star].
  - intros [<-|[]]. exists []. split; [reflexivity | constructor].
  - destruct (ok x) eqn:Hx.
    + intros Hin. apply List.in_app_or in Hin. destruct Hin as [Hin|[<-|[]]].
      * destruct (IH s1 Hin) as (w & -> & Hw). exists (x :: w).
        split; [reflexivity | now constructor].
      * exists []. split; [reflexivity | constructor].
    + intros [<-|[]]. exists []. split; [reflexivity | constructor].
Qed.

Lemma plus_split ok s s1 :
  In s1 (plus ok s) ->
  exists x w, s = (x :: w) ++ s1 /\ Forall (fun x => ok x = true) (x :: w).
Proof.
  destruct s as [|x s]; cbn [plus]; [intros []|].
  destruct (ok x) eqn:Hx; [|intros []].
  intros Hin. destruct (star_split ok s s1 Hin) as (w & -> & Hw).
  exists x, w. split; [reflexivity | now constructor].
Qed.

Lemma consumed_app (w s1 : list N) : consumed (w ++ s1) s1 = w.
Proof.
  unfold consumed. rewrite length_app.
  replace (length w + length s1 - length s1)%nat with (length w) by lia.
  rewrite List.firstn_app, List.firstn_all, Nat.sub_diag. cbn.
  apply app_nil_r.
Qed.

Lemma cnot_excludes ic c cs x :
  existsb (N.eqb c) cs = true -> cset_ok ic (CNot cs) x = true -> x <> c.
Proof.
  intros Hc Hok ->. cbn [cset_ok] in Hok. apply negb_true_iff in Hok.
  apply List.existsb_exists in Hc. destruct Hc as (c' & Hin & Heq).
  apply N.eqb_eq in Heq. subst c'.
  assert (H : existsb (fun c0 => chr_eq ic c0 c) cs = true).
  { apply List.existsb_exists. exists c. split; [exact Hin|].
    unfold chr_eq. destruct ic; apply N.eqb_refl. }
  congruence.
Qed.

(** Matching keeps the captures it is given and only adds to them; what it
    adds under number 1 is a non-empty run without the excluded character. *)
Lemma rmatch_caps ic c r : forall s g s' g',
  grp1_excludes c r = true ->
  In (s', g') (rmatch ic r s g) ->
  (caps_exclude c g -> caps_exclude c g') /\
  (assoc 1 g <> None -> assoc 1 g' <> None) /\
  (sets_grp1 r = true -> assoc 1 g' <> None).
Proof.
  induction r as [|cc|r1 IH1 r2 IH2|r IH|cc|cc|n r IH|];
    intros s g s' g' Hr Hin; cbn [rmatch sets_grp1 grp1_excludes] in *.
  - destruct Hin as [Heq|[]]. inversion Heq; subst.
    split; [auto | split; [auto | intros; discriminate]].
  - destruct s as [|x s]; [destruct Hin|].
    destruct (cset_ok ic cc x); [|destruct Hin].
    destruct Hin as [Heq|[]]. inversion Heq; subst.
    split; [auto | split; [auto | intros; discriminate]].
  - apply andb_true_iff in Hr. destruct Hr as [Hr1 Hr2].
    apply List.in_flat_map in Hin. destruct Hin as ([s1 g1] & Hin1 & Hin2).
    cbn [fst snd] in Hin2.
    destruct (IH1 _ _ _ _ Hr1 Hin1) as (A1 & B1 & C1).
    destruct (IH2 _ _ _ _ Hr2 Hin2) as (A2 & B2 & C2).
    split; [auto | split; [auto|]].
    intros Hs. apply orb_true_iff in Hs. destruct Hs as [Hs|Hs]; auto.
  - apply List.in_app_or in Hin. destruct Hin as [Hin|[Heq|[]]].
    + destruct (IH _ _ _ _ Hr Hin) as (A & B & _).
      split; [auto | split; [auto | intros; discriminate]].
    + inversion Heq; subst. split; [auto | split; [auto | intros; discriminate]].
  - apply List.in_map_iff in Hin. destruct Hin as (s1 & Heq & _).
    inversion Heq; subst. split; [auto | split; [auto | intros; discriminate]].
  - apply List.in_map_iff in Hin. destruct Hin as (s1 & Heq & _).
    inversion Heq; subst. split; [auto | split; [auto | intros; discriminate]].
  - apply andb_true_iff in Hr. destruct Hr as [Hn Hr].
    apply List.in_map_iff in Hin. destruct Hin as ([s1 g1] & Heq & Hin).
    cbn [fst snd] in Heq. inversion Heq; subst s' g'. clear Heq.
    destruct (IH _ _ _ _ Hr Hin) as (A & B & C).
    destruct (Nat.eqb n 1) eqn:En.
    + apply Nat.eqb_eq in En. subst n. cbn [negb orb] in Hn.
      split; [|split; intros _; cbn; discriminate].
      intros Hg v [Hv|Hv]; [|exact (A Hg v Hv)].
      inversion Hv; subst v. clear Hv.
      destruct r as [| | | | |[cl| |cs]| |]; try discriminate.
      cbn [rmatch] in Hin. apply List.in_map_iff in Hin.
      destruct Hin as (s2 & Heq & Hin). inversion Heq; subst s2 g1.
      destruct (plus_split _ _ _ Hin) as (x & w & -> & Hw).
      rewrite consumed_app. split; [discriminate|].
      intros Hc. apply (proj1 (List.Forall_forall _ _) Hw) in Hc.
      exact (cnot_excludes ic c cs c Hn Hc eq_refl).
    + split; [|split].
      * intros Hg v [Hv|Hv]; [|exact (A Hg v Hv)].
        inversion Hv; subst. discriminate.
      * intros Hg. cbn [assoc].
        destruct (Nat.eqb 1 n) eqn:E1; [discriminate | auto].
      * cbn [orb]. intros Hs. cbn [assoc].
        destruct (Nat.eqb 1 n) eqn:E1; [discriminate | auto].
  - destruct (at_eos s); [|destruct Hin].
    destruct Hin as [Heq|[]]. inversion Heq; subst.
    split; [auto | split; [auto | intros; discriminate]].
Qed.

Lemma search_in ic r s m :
  search ic r s = Some m ->
  exists pre suffix rest,
    s = pre ++ suffix /\
    In (rest, groups m) (rmatch ic r suffix []) /\
    group0 m = consumed suffix rest.
Proof.
  induction s as [|x s IH]; cbn [search]; unfold match_here.
  - destruct (rmatch ic r [] []) as [|[rest g] l] eqn:E; [discriminate|].
    intros H. inversion H; subst m. exists [], [], rest.
    rewrite E. repeat split. now left.
  - destruct (rmatch ic r (x :: s) []) as [|[rest g] l] eqn:E.
    + intros H. destruct (IH H) as (pre & suffix & rest & -> & Hin & Hg).
      exists (x :: pre), suffix, rest. repeat split; assumption.
    + intros H. inversion H; subst m. exists [], (x :: s), rest.
      rewrite E. repeat split. now left.
Qed.

Lemma first_match_in ic pats text k m :
  first_match ic pats text = Some (k, m) ->
  exists p, In (k, p) pats /\ search ic p text = Some m.
Proof.
  induction pats as [|[k' p] pats IH]; cbn [first_match]; [discriminate|].
  destruct (search ic p text) as [m'|] eqn:E.
  - intros H. inversion H; subst. exists p. split; [now left | exact E].
  - intros H. destruct (IH H) as (q & Hin & Hs). exists q.
    split; [now right | exact Hs].
Qed.

(** X19.  Whenever [extract_instagram_info] of [instagram_bot.py] reports a known
    type it reports an identifier as well, and this identifier is not empty
    and contains no slash. *)
Theorem identifier_of_known_type url k :
  IB.i_type (IB.extract_instagram_info url) = Some k ->
  exists id,
    IB.i_id (IB.extract_instagram_info url) = Some id /\
    id <> [] /\ ~ In slash id.
Proof.
  unfold IB.extract_instagram_info.
  destruct (first_match false IB.patterns url) as [[k' m]|] eqn:E;
    [|discriminate].
  intros _. cbn [IB.i_id].
  destruct (first_match_in _ _ _ _ _ E) as (p & Hp & Hs).
  destruct (search_in _ _ _ _ Hs) as (pre & suffix & rest & _ & Hin & _).
  assert (Hgood : grp1_excludes slash p = true /\ sets_grp1 p = true).
  { destruct Hp as [Hp|[Hp|[Hp|[Hp|[]]]]]; inversion Hp; subst;
      split; vm_compute; reflexivity. }
  destruct Hgood as [Hg1 Hg2].
  destruct (rmatch_caps false slash p suffix [] rest (groups m) Hg1 Hin)
    as (A & _ & C).
  unfold group.
  destruct (assoc 1 (groups m)) as [id|] eqn:Ha; [|now apply C in Hg2].
  exists id. split; [reflexivity|]. apply A.
  - intros v [].
  - clear - Ha. induction (groups m) as [|[n v] g IH]; [discriminate|].
    cbn [assoc] in Ha. destruct (Nat.eqb 1 n) eqn:En.
    + apply Nat.eqb_eq in En. subst n. inversion Ha; subst. now left.
    + right. auto.
Qed.

Lemma identifier_of_known_type_witness :
  exists id,
    IB.i_id (IB.extract_instagram_info (u "https://instagram.com/p/Cx_1/?a=b"))
    = Some id /\
    id <> [] /\ ~ In slash id.
Proof.
  apply (identifier_of_known_type (u "https://instagram.com/p/Cx_1/?a=b") Post).
  vm_compute. reflexivity.
Defined.

(** X20.  The URL that is handed on is literally a part of the message: the
    matched URL of [main.py] and the first URL [handle_instagram_url] finds
    both occur, as they are, in the text. *)
Theorem matched_url_is_part_of_text text url :
  (forall k, Main.extract_instagram_info text = Some (url, k) ->
             exists pre post, text = pre ++ url ++ post) /\
  (IB.first_url text = Some url ->
   exists pre post, text = pre ++ url ++ post).
Proof.
  assert (H : forall ic r m, search ic r text = Some m ->
                             exists pre post, text = pre ++ group0 m ++ post).
  { intros ic r m Hs.
    destruct (search_in _ _ _ _ Hs) as (pre & suffix & rest & -> & _ & ->).
    exists pre, (skipn (length suffix - length rest) suffix).
    unfold consumed. now rewrite List.firstn_skipn. }
  split.
  - intros k. unfold Main.extract_instagram_info.
    destruct (first_match true Main.patterns text) as [[k' m]|] eqn:E;
      [|discriminate].
    intros Heq. inversion Heq; subst.
    destruct (first_match_in _ _ _ _ _ E) as (p & _ & Hs). eauto.
  - unfold IB.first_url.
    destruct (search false IB.p_url text) as [m|] eqn:E; [|discriminate].
    intros Heq. inversion Heq; subst. eauto.
Qed.

(** ** Which messages create a session *)

(** X21.  [handle_instagram_message] creates a session exactly for reel and post
    links, once the processing message has been sent: the session then holds
    the matched URL, the kind and the current time, even when showing the
    buttons fails.  For every other text (no link, profile, story) and when
    the processing message cannot be sent, the sessions are as before. *)
Theorem message_creates_session E now user_id text w :
  let r := Main.handle_instagram_message E now user_id text w in
  Main.user_sessions (state_of r)
  = match Main.extract_instagram_info text with
    | Some (url, (Reel | Post) as k) =>
        match fails E (EReply (MProcessing k)) with
        | None => <[user_id := Main.MkSession url k now]> (Main.user_sessions w)
        | Some _ => Main.user_sessions w
        end
    | _ => Main.user_sessions w
    end.
Proof.
  intros r. subst r. unfold Main.handle_instagram_message.
  destruct (Main.extract_instagram_info text) as [[url k]|];
    [|reflexivity].
  rewrite call_bind.
  destruct (fails E (EReply (MProcessing k))); [now destruct k|].
  unfold state_of at 1. cbn [fst].
  assert (Hmedia : forall k',
    Main.user_sessions
      (state_of (try_except (Main.handle_media_choice E now url k' user_id)
                   (fun e => call E (EEdit (MOops (e_msg e)) [])) w))
    = <[user_id := Main.MkSession url k' now]> (Main.user_sessions w)).
  { intros k'. unfold Main.handle_media_choice, Main.create_session. mrun.
    destruct (fails E (EEdit (MChoose k') (Main.keyboard user_id)));
      [|reflexivity].
    destruct (fails E (EEdit (MOptionsError (e_msg e)) [])); [|reflexivity].
    destruct (fails E (EEdit (MOops (e_msg e0)) [])); reflexivity. }
  destruct k; try apply Hmedia.
  - destruct (try_except_silent (Main.handle_profile_download E url)
                (fun e => call E (EEdit (MOops (e_msg e)) [])) w) as [-> _].
    + intros e. apply silent_call. reflexivity.
    + apply (main_profile_cleanup E url w).
  - mrun. destruct (fails E (EEdit MUnsupported [])); [|reflexivity].
    destruct (fails E (EEdit (MOops (e_msg e)) [])); reflexivity.
Qed.

(** ** Profile pictures in [instagram_bot.py] *)

(** X22.  With a client that saves the picture to a file, [handle_profile_download]
    removes that file exactly once, whether the photo could be sent or not,
    and leaves the pending choices alone; the file is gone unless
    [os.remove] raised. *)
Theorem profile_picture_removed E i name p w :
  IB.instagram_client w = true ->
  IB.i_id i = Some name ->
  fails E (EProfilePicture name) = None ->
  picture_of E name = Some p ->
  p <> [] ->
  let r := IB.handle_profile_download E i w in
  count (is_remove p) (events_of r) = 1%nat /\
  count is_any_remove (events_of r) = 1%nat /\
  IB.user_data (state_of r) = IB.user_data w /\
  (fails E (ERemove p) = None -> p ∉ IB.files (state_of r)).
Proof.
  intros Hcl Hid Hpic Hp Hne r. subst r.
  destruct p as [|ch p']; [congruence|].
  assert (Hex : bool_decide (ch :: p' ∈ IB.files w ∪ {[ch :: p']}) = true)
    by (apply bool_decide_eq_true_2; set_solver).
  assert (Hrm : bool_decide (ch :: p' = ch :: p') = true)
    by now apply bool_decide_eq_true_2.
  unfold IB.handle_profile_download, IB.download_profile_picture,
    IB.safe_delete_file, IB.exists_file, IB.set_files.
  rewrite Hid. cbn [default from_option]. unfold Datatypes.id.
  mrun. rewrite Hcl. cbn [negb]. rewrite Hpic, Hp. cbv beta iota zeta.
  cbn [truthy IB.files IB.user_data]. rewrite Hex. cbv beta iota zeta.
  cbn [IB.files IB.user_data]. rewrite ?Hex.
  destruct (fails E (EOpen (ch :: p')));
    [|destruct (fails E (EReplyPhoto (ch :: p') _));
      [|destruct (fails E EDeleteMessage)]];
    destruct (fails E (ERemove (ch :: p'))) eqn:Hf;
    cbv beta iota zeta; cbn [fst snd app IB.files IB.user_data];
    rewrite ?Hex; cbv beta iota zeta; cbn [fst snd app IB.files IB.user_data];
    unfold count; cbn [List.filter is_remove is_any_remove length];
    rewrite ?Hrm; cbn [length];
    (repeat split; try reflexivity; try (intros H; discriminate H);
     try (intros _; rewrite elem_of_difference, elem_of_singleton; tauto)).
Qed.

Lemma profile_picture_removed_witness :
  let E := MkEnv (fun e => match e with
                           | EReplyPhoto _ _ =>
                               Some (MkExn OtherException (u "Timed out"))
                           | _ => None
                           end)
                 (fun _ => MkInfo false [] [] [] (Int 0)) (fun _ _ => [])
                 (fun _ => Some (u "/tmp/profile_alice_20240101_120000.jpg")) in
  let i := IB.extract_instagram_info (u "https://instagram.com/alice") in
  let w := IB.MkWorld (Rate.MkState ∅ 0) true ∅ ∅ in
  let r := IB.handle_profile_download E i w in
  count (is_remove (u "/tmp/profile_alice_20240101_120000.jpg")) (events_of r)
  = 1%nat /\
  u "/tmp/profile_alice_20240101_120000.jpg" ∉ IB.files (state_of r).
Proof.
  intros E i w r.
  destruct (profile_picture_removed E i (u "alice")
              (u "/tmp/profile_alice_20240101_120000.jpg") w)
    as (H1 & _ & _ & H2).
  - reflexivity.
  - vm_compute. reflexivity.
  - reflexivity.
  - reflexivity.
  - discriminate.
  - split; [exact H1 | apply H2; reflexivity].
Defined.

(** ** Captions on the callback path *)

(** X23.  Every caption that the final [try] statement of [handle_button_callback]
    hands to [reply_audio] or [reply_video] has at most 1024 characters,
    whatever the metadata are. *)
Theorem callback_captions_within_limit E user_id url audio_only w :
  Forall caption_fits
         (events_of (Main.fetch_and_deliver E user_id url audio_only w)).
Proof. apply callback_caption_fits. Qed.

(** X24.  A description that is not empty and differs from the title closes the
    caption of [download_with_ytdlp], after the speech-balloon mark: as it
    is when it has at most 200 characters, else cut to its first 200
    characters followed by three dots. *)
Theorem description_cut_at_200 i :
  description i <> [] -> description i <> title i ->
  exists before,
    Main.build_caption i
    = Some (before ++ [128172; 32]%N ++
            if (200 <? length (description i))%nat
            then firstn 200 (description i) ++ u "..."
            else description i).
Proof. apply build_caption_description. Qed.

Lemma description_cut_at_200_witness :
  exists before,
    Main.build_caption (MkInfo false (u "Video by alice") (repeat 120%N 250)
                               (u "alice") (Int 0))
    = Some (before ++ [128172; 32]%N ++ repeat 120%N 200 ++ u "...").
Proof.
  destruct (description_cut_at_200
              (MkInfo false (u "Video by alice") (repeat 120%N 250)
                      (u "alice") (Int 0))) as [before H].
  - discriminate.
  - vm_compute. discriminate.
  - exists before. exact H.
Defined.

(** ** Files that yt-dlp wrote and the handlers do not learn of *)

Lemma main_download_writes E url audio_only w q :
  fails E (EExtractInfo url) = None ->
  availability_private (info_of E url) = false ->
  In q (files_of E url audio_only) ->
  q ∈ Main.files (state_of (Main.download_with_ytdlp E url audio_only w)).
Proof.
  intros He Hp Hq.
  assert (Hin : q ∈ Main.files w ∪ list_to_set (files_of E url audio_only)).
  { apply elem_of_union_r, elem_of_list_to_set, list_elem_of_In, Hq. }
  unfold Main.download_with_ytdlp. mrun. rewrite He, Hp.
  destruct (fails E (EDownload url audio_only)) as [e|].
  - destruct (e_class e); try (destruct (_ || _)); cbn; exact Hin.
  - destruct (files_of E url audio_only); cbn; exact Hin.
Qed.

Lemma main_fetched_first E url audio_only w p :
  Main.fetched E url audio_only w = Some p ->
  fails E (EDownload url audio_only) = None /\
  head (files_of E url audio_only) = Some p.
Proof.
  unfold Main.fetched, Main.download_with_ytdlp. mrun.
  destruct (fails E (EExtractInfo url)) as [e|].
  - destruct (e_class e); try (destruct (_ || _)); cbn; discriminate.
  - destruct (availability_private (info_of E url)); [cbn; discriminate|].
    destruct (fails E (EDownload url audio_only)) as [e|].
    + destruct (e_class e); try (destruct (_ || _)); cbn; discriminate.
    + destruct (files_of E url audio_only) as [|f fs]; cbn; [discriminate|].
      destruct f as [|c f]; cbn; [discriminate|].
      destruct (Main.exists_file _ _); [|discriminate].
      intros H. inversion H. split; reflexivity.
Qed.

Lemma main_fetch_keeps E user_id url audio_only w q :
  q ∈ Main.files (state_of (Main.download_with_ytdlp E url audio_only w)) ->
  Main.fetched E url audio_only w <> Some q ->
  q ∈ Main.files (state_of (Main.fetch_and_deliver E user_id url audio_only w)).
Proof.
  unfold Main.fetched, Main.fetch_and_deliver, try_assign.
  destruct (main_download_quiet E url audio_only w)
    as (w1 & ev1 & [[filepath status_msg] caption] & Hd & Hs & Hev1).
  rewrite Hd. unfold state_of at 1. cbn [fst]. intros Hq Hne.
  match goal with
  | |- context [try_finally ?b ?f w1] =>
      assert (Hsil : silent b);
      [|destruct (try_finally_silent b f w1 Hsil) as [Hst _];
        destruct (try_finally b f w1) as [[s2 ev2] r2]]
  end.
  { apply silent_try_except;
      [|intros e; apply silent_call; reflexivity].
    apply silent_bind; [apply silent_get|]. intros w'.
    destruct (truthy filepath);
      [destruct (Main.exists_file w' l)|];
      repeat first [ apply silent_call; reflexivity
                   | apply silent_bind; [|intros ?]
                   | match goal with
                     | |- silent (if ?b then _ else _) => destruct b
                     end ]. }
  cbv beta iota in Hst. unfold state_of, events_of in *. cbn [fst snd] in *.
  pose proof (main_final_files E user_id filepath w1) as Hf4.
  cbn zeta in Hf4. unfold state_of in Hf4. rewrite Hst.
  apply Hf4; [exact Hq|].
  intros Ht. rewrite Ht in Hne.
  destruct (Main.exists_file w1 q) eqn:Hex; [congruence|].
  unfold Main.exists_file in Hex. apply bool_decide_eq_false in Hex.
  now apply Hex.
Qed.

Lemma ib_download_writes E url audio_only w q :
  In q (files_of E url audio_only) ->
  q ∈ IB.files (state_of (IB.download_with_ytdlp E url audio_only w)).
Proof.
  intros Hq.
  assert (Hin : q ∈ IB.files w ∪ list_to_set (files_of E url audio_only)).
  { apply elem_of_union_r, elem_of_list_to_set, list_elem_of_In, Hq. }
  unfold IB.download_with_ytdlp. mrun.
  destruct (fails E (EDownload url audio_only)); cbn; exact Hin.
Qed.

Lemma ib_fetched_first E url audio_only w p :
  IB.fetched E url audio_only w = Some p ->
  fails E (EDownload url audio_only) = None /\
  head (files_of E url audio_only) = Some p.
Proof.
  unfold IB.fetched, IB.download_with_ytdlp. mrun.
  destruct (fails E (EDownload url audio_only)) as [e|]; cbn; [discriminate|].
  destruct (files_of E url audio_only) as [|f fs]; cbn; [discriminate|].
  destruct f as [|c f]; cbn; [discriminate|].
  destruct (IB.exists_file _ _); [|discriminate].
  intros H. inversion H. split; reflexivity.
Qed.

Lemma ib_safe_delete_keeps E p w q :
  q ∈ IB.files w -> q <> p ->
  q ∈ IB.files (state_of (IB.safe_delete_file E p w)).
Proof.
  intros Hq Hne. unfold IB.safe_delete_file. mrun.
  destruct (IB.exists_file w p); [|exact Hq].
  destruct (fails E (ERemove p)); cbn; [exact Hq|].
  apply elem_of_difference. split; [exact Hq|].
  rewrite elem_of_singleton. exact Hne.
Qed.

(** What follows the download inside the [try] of [handle_format_callback]
    removes no file but the one that was handed over. *)
Lemma ib_deliver_keeps E url (audio_only : bool) (result : option IB.download)
      w q :
  let r :=
    (w ← (get : M IB.world IB.world);
     match result with
     | Some d =>
         match truthy (IB.d_file_path d) with
         | Some p =>
             if IB.exists_file w p then
               try_finally
                 (c ← IB.build_caption d url;
                  @call IB.world E (EOpen p);;
                  (if audio_only then @call IB.world E (EReplyAudio p c)
                   else @call IB.world E (EReplyVideo p c));;
                  @call IB.world E EDeleteMessage)
                 (IB.safe_delete_file E p)
             else @call IB.world E (EEdit MDownloadFailedUrl [])
         | None => @call IB.world E (EEdit MDownloadFailedUrl [])
         end
     | None => @call IB.world E (EEdit MDownloadFailedUrl [])
     end) w in
  let produced :=
    match result with
    | Some d =>
        match truthy (IB.d_file_path d) with
        | Some p => if IB.exists_file w p then Some p else None
        | None => None
        end
    | None => None
    end in
  q ∈ IB.files w -> produced <> Some q -> q ∈ IB.files (state_of r).
Proof.
  cbn zeta. rewrite get_bind. intros Hq Hne.
  destruct result as [d|]; [destruct (truthy (IB.d_file_path d)) as [p|]|];
    [destruct (IB.exists_file w p) eqn:Hex|..].
  2-4: exact Hq.
  match goal with
  | |- context [try_finally ?b ?f w] =>
      assert (Hsil : silent b);
      [|destruct (try_finally_silent b f w Hsil) as [Hst _]]
  end.
  { apply silent_bind.
    - unfold IB.build_caption.
      destruct (IB.d_duration d) as [[| |]|x]; try apply silent_ret.
      destruct (Qeq_bool x 0); [apply silent_ret | apply silent_raise].
    - intros c.
      repeat first [ apply silent_call; reflexivity
                   | apply silent_bind; [|intros ?]
                   | match goal with
                     | |- silent (if ?b then _ else _) => destruct b
                     end ]. }
  rewrite Hst. apply ib_safe_delete_keeps; [exact Hq | congruence].
Qed.

Lemma ib_fetch_keeps E user_id key url audio_only w q :
  q ∈ IB.files (state_of (IB.download_with_ytdlp E url audio_only w)) ->
  IB.fetched E url audio_only w <> Some q ->
  q ∈ IB.files (state_of (IB.fetch_and_deliver E user_id key url audio_only w)).
Proof.
  unfold IB.fetched, IB.fetch_and_deliver.
  destruct (ib_download_quiet E url audio_only w)
    as (w1 & ev1 & result & Hd & Hud & Hev1).
  rewrite Hd. unfold state_of at 1. cbn [fst]. intros Hq Hne.
  match goal with
  | |- context [try_finally (try_except (?m ≫= ?g) ?h) ?f w] =>
      destruct (try_finally_run (try_except (m ≫= g) h) f w) as [Hst _];
      destruct (try_except_silent (m ≫= g) h w) as [Hst2 _];
      [intros e; apply silent_call; reflexivity|];
      destruct (bind_val m g w w1 ev1 result Hd) as [Hst3 _]
  end.
  cbv beta in Hst3.
  pose proof (ib_deliver_keeps E url audio_only result w1 q) as Hk.
  cbn zeta in Hk.
  rewrite Hst, Hst2, Hst3.
  match goal with
  | |- q ∈ IB.files (state_of (?f ?s)) =>
      assert (Hf : IB.files (state_of (f s)) = IB.files s)
  end.
  { rewrite get_bind. destruct (IB.data_of _ user_id !! key); reflexivity. }
  rewrite Hf. apply Hk; [exact Hq|].
  destruct result as [d|]; [exact Hne | discriminate].
Qed.

(** C1 fails on a fetch that fails.  The cleanup clauses know only the path
    that [download_with_ytdlp] returns, so a file that yt-dlp wrote is
    deleted only when it is that path.  When [ydl.download] raises after
    writing (the fetcher then returns no path), or when the directory listing
    yields the file after another one, the file is still on disk when the
    handler returns and [os.remove] was never called on it; after a failed
    download nothing is removed at all.  The other half of the claim holds on
    these paths too: the session of the request is cleared exactly once.
    This is so for the final [try] statement of [handle_button_callback] of
    [main.py] and of [handle_format_callback] of [instagram_bot.py]; the last
    two parts run both handlers from the button press on, for a download that
    is interrupted. *)
Theorem C1_fetch_failure_leaves_file :
  (forall E user_id url audio_only w q,
     fails E (EExtractInfo url) = None ->
     availability_private (info_of E url) = false ->
     In q (files_of E url audio_only) ->
     is_Some (fails E (EDownload url audio_only)) \/
     head (files_of E url audio_only) <> Some q ->
     let r := Main.fetch_and_deliver E user_id url audio_only w in
     q ∈ Main.files (state_of r) /\
     count (is_remove q) (events_of r) = 0%nat /\
     (is_Some (fails E (EDownload url audio_only)) ->
      count is_any_remove (events_of r) = 0%nat) /\
     count (is_clear user_id) (events_of r) = 1%nat) /\
  (forall E user_id key url audio_only w q,
     is_Some (IB.data_of w user_id !! key) ->
     In q (files_of E url audio_only) ->
     is_Some (fails E (EDownload url audio_only)) \/
     head (files_of E url audio_only) <> Some q ->
     let r := IB.fetch_and_deliver E user_id key url audio_only w in
     q ∈ IB.files (state_of r) /\
     count (is_remove q) (events_of r) = 0%nat /\
     (is_Some (fails E (EDownload url audio_only)) ->
      count is_any_remove (events_of r) = 0%nat) /\
     count (is_del key) (events_of r) = 1%nat) /\
  (let url := u "https://instagram.com/reel/abc" in
   let r := Main.handle_button_callback interrupted_download 10%Q 7
              (u "audio_7") (session_world 7 0%Q) in
   events_of r
   = [EAnswer None; EEdit (MDownloading true) [];
      EExtractInfo url; EDownload url true;
      EEdit (MDownloadFailed
               (Main.status_text
                  (Main.StFailed
                     (u "ERROR: Postprocessing: ffprobe and ffmpeg not found"))))
            [];
      EClearSession 7] /\
   result_of r = Val tt /\
   Main.exists_file (state_of r) (u "downloads/audio_1700000000.webm") = true /\
   Main.user_sessions (state_of r) !! 7 = None) /\
  (let url := u "https://instagram.com/reel/abc" in
   let r := IB.handle_format_callback interrupted_download 7 (u "video_abc")
              pending_world in
   events_of r
   = [EAnswer None; EEdit (MDownloadingFormat (u "video")) [];
      EDownload url false; EEdit MDownloadFailedUrl [];
      EDelUserData (u "url_abc")] /\
   result_of r = Val tt /\
   IB.exists_file (state_of r) (u "/tmp/instagram_20240101_120000.mp4.part")
   = true /\
   IB.data_of (state_of r) 7 !! u "url_abc" = None).
Proof.
  split; [|split; [|split]].
  - intros E user_id url audio_only w q He Hp Hq Hor r.
    assert (Hnone : is_Some (fails E (EDownload url audio_only)) ->
                    Main.fetched E url audio_only w = None).
    { intros [e Hx].
      destruct (Main.fetched E url audio_only w) as [p|] eqn:Hf; [|reflexivity].
      destruct (main_fetched_first _ _ _ _ _ Hf). congruence. }
    assert (Hne : Main.fetched E url audio_only w <> Some q).
    { intros Hf. destruct (main_fetched_first _ _ _ _ _ Hf) as [Hd Hh].
      destruct Hor as [[e Hx] | Hx]; congruence. }
    destruct (main_cleanup E user_id url audio_only w) as (Hc & _ & _).
    fold r in Hc.
    split.
    { apply main_fetch_keeps; [|exact Hne].
      apply main_download_writes; assumption. }
    rewrite (count_cleanups _ _ (is_remove_cleanup q)).
    rewrite (count_cleanups _ _ is_any_remove_cleanup).
    rewrite (count_cleanups _ _ (is_clear_cleanup user_id)).
    rewrite Hc. split; [|split].
    + destruct (Main.fetched E url audio_only w) as [p|]; unfold count; cbn;
        [|reflexivity].
      rewrite bool_decide_eq_false_2 by congruence. reflexivity.
    + intros Hd. rewrite (Hnone Hd). reflexivity.
    + destruct (Main.fetched E url audio_only w); unfold count; cbn;
        now rewrite Z.eqb_refl.
  - intros E user_id key url audio_only w q Hkey Hq Hor r.
    assert (Hnone : is_Some (fails E (EDownload url audio_only)) ->
                    IB.fetched E url audio_only w = None).
    { intros [e Hx].
      destruct (IB.fetched E url audio_only w) as [p|] eqn:Hf; [|reflexivity].
      destruct (ib_fetched_first _ _ _ _ _ Hf). congruence. }
    assert (Hne : IB.fetched E url audio_only w <> Some q).
    { intros Hf. destruct (ib_fetched_first _ _ _ _ _ Hf) as [Hd Hh].
      destruct Hor as [[e Hx] | Hx]; congruence. }
    destruct (ib_cleanup E user_id key url audio_only w Hkey) as (Hc & _ & _).
    fold r in Hc.
    split.
    { apply ib_fetch_keeps; [|exact Hne]. apply ib_download_writes, Hq. }
    rewrite (count_cleanups _ _ (is_remove_cleanup q)).
    rewrite (count_cleanups _ _ is_any_remove_cleanup).
    rewrite (count_cleanups _ _ (is_del_cleanup key)).
    rewrite Hc. split; [|split].
    + destruct (IB.fetched E url audio_only w) as [p|]; unfold count; cbn;
        [|reflexivity].
      rewrite bool_decide_eq_false_2 by congruence. reflexivity.
    + intros Hd. rewrite (Hnone Hd). reflexivity.
    + destruct (IB.fetched E url audio_only w); unfold count; cbn;
        now rewrite bool_decide_eq_true_2.
  - cbv zeta. split; [|split; [|split]]; vm_compute; reflexivity.
  - cbv zeta. split; [|split; [|split]]; vm_compute; reflexivity.
Qed.

(** The audio of a reel is asked for and ffmpeg is missing; a video download
    is cut off. *)
Lemma C1_fetch_failure_leaves_file_witness :
  let url := u "https://instagram.com/reel/abc" in
  let q := u "downloads/audio_1700000000.webm" in
  let q' := u "/tmp/instagram_20240101_120000.mp4.part" in
  let r := Main.fetch_and_deliver interrupted_download 7 url true
             (session_world 7 0%Q) in
  let r' := IB.fetch_and_deliver interrupted_download 7 (u "url_abc") url false
              pending_world in
  (q ∈ Main.files (state_of r) /\
   count is_any_remove (events_of r) = 0%nat /\
   count (is_clear 7) (events_of r) = 1%nat) /\
  (q' ∈ IB.files (state_of r') /\
   count is_any_remove (events_of r') = 0%nat /\
   count (is_del (u "url_abc")) (events_of r') = 1%nat).
Proof.
  intros url q q' r r'.
  assert (Hd : forall a, is_Some (fails interrupted_download (EDownload url a)))
    by (intros a; eexists; reflexivity).
  assert (Hk : is_Some (IB.data_of pending_world 7 !! u "url_abc"))
    by (eexists; vm_compute; reflexivity).
  split.
  - destruct (proj1 C1_fetch_failure_leaves_file interrupted_download 7 url
                true (session_world 7 0%Q) q eq_refl eq_refl
                (or_introl eq_refl) (or_introl (Hd true)))
      as (H1 & _ & H3 & H4).
    split; [exact H1 | split; [exact (H3 (Hd true)) | exact H4]].
  - destruct (proj1 (proj2 C1_fetch_failure_leaves_file) interrupted_download
                7 (u "url_abc") url false pending_world q' Hk
                (or_introl eq_refl) (or_introl (Hd false)))
      as (H1 & _ & H3 & H4).
    split; [exact H1 | split; [exact (H3 (Hd false)) | exact H4]].
Defined.

(** ** Pattern priority and the position of links *)





Lemma found_search ic r text :
  found ic r text = false <-> search ic r text = None.
Proof. unfold found. destruct (search ic r text); split; congruence. Qed.




